(** * Realtime voice demos: session negotiation and event dispatch

    A shallow embedding of the browser demos that drive the Realtime API
    over WebRTC:

    - [05-function-calling/src/app.js]  (class [RealtimeDemo], module [Demo5])
    - [05-function-calling/src/tools/weatherLookup.js]  (module [Weather])
    - [05-function-calling/src/auth-api.js]  ([getEphemeralKey])
    - [chat.js]  (class [ChatUI])
    - [04-transcripts/src/app.js] and [01-basic-js/app.js]  (the sibling
      variants of the open handler and of the cleanup routine)

    The class instance, the DOM nodes it touches and the browser objects it
    holds references to (tracks, peer connections, data channels) live in
    one explicit [State]; methods are computations in a state-and-exception
    monad.  Results of the host's asynchronous operations ([fetch],
    [getUserMedia], the SDP calls) are supplied by the caller of each
    method as an outcome script, so every method is a total, executable
    function. *)

From Stdlib Require Import Ascii String.
From stdpp Require Import base option list strings pretty.

Local Open Scope string_scope.
Local Open Scope list_scope.
Set Warnings "-register-all".

(* ================================================================== *)
(** * JavaScript values *)
(* ================================================================== *)

(** The values that flow through the handlers: what [JSON.parse] can
    return, plus [undefined] for absent properties.  A number is kept as
    the decimal literal it was written with; the program only tests
    numbers for truthiness and passes them on, so IEEE rounding is left
    out.  The operations on numbers below ([truthy], [is_number_zero],
    [js_to_string], [serialize]) therefore agree with JavaScript on
    literals in the form [Number.prototype.toString] writes ([38],
    [-74.006], [0.5]) and not on others ([38.0], [1E2], [1e-400]).
    Strings are byte strings. *)
Inductive value : Type :=
| VUndefined
| VNull
| VBool (b : bool)
| VNum (lexeme : string)
| VStr (s : string)
| VArr (items : list value)
| VObj (fields : list (string * value)).

(** A thrown [Error]/[DOMException]: the two properties the code reads. *)
Record error : Type := mkError { e_name : string; e_message : string }.

Definition TypeError (msg : string) : error := mkError "TypeError" msg.
Definition SyntaxError (msg : string) : error := mkError "SyntaxError" msg.
Definition InvalidStateError (msg : string) : error :=
  mkError "InvalidStateError" msg.
(** [new Error(message)] *)
Definition Error (msg : string) : error := mkError "Error" msg.

Definition dquote : ascii := "034"%char.
Definition backslash : ascii := "092"%char.

Definition is_digit (c : ascii) : bool :=
  (48 <=? nat_of_ascii c)%nat && (nat_of_ascii c <=? 57)%nat.

Definition is_nonzero_digit (c : ascii) : bool :=
  (49 <=? nat_of_ascii c)%nat && (nat_of_ascii c <=? 57)%nat.

Definition ascii_eqb (a b : ascii) : bool := Ascii.eqb a b.

(** The mantissa of a number literal is everything before [e]/[E]. *)
Fixpoint mantissa_nonzero (cs : list ascii) : bool :=
  match cs with
  | [] => false
  | c :: cs' =>
      if ascii_eqb c "e" || ascii_eqb c "E" then false
      else is_nonzero_digit c || mantissa_nonzero cs'
  end.

Definition num_is_zero (lexeme : string) : bool :=
  negb (mantissa_nonzero (list_ascii_of_string lexeme)).

Definition string_is_empty (s : string) : bool :=
  match s with EmptyString => true | String _ _ => false end.

(** ToBoolean *)
Definition truthy (v : value) : bool :=
  match v with
  | VUndefined | VNull => false
  | VBool b => b
  | VNum n => negb (num_is_zero n)
  | VStr s => negb (string_is_empty s)
  | VArr _ | VObj _ => true
  end.

Definition is_nullish (v : value) : bool :=
  match v with VUndefined | VNull => true | _ => false end.

(** [a ?? b] *)
Definition nullish_or (a b : value) : value :=
  if is_nullish a then b else a.

(** [a || b] *)
Definition js_or (a b : value) : value := if truthy a then a else b.

(** [v === "lit"] *)
Definition str_eq (v : value) (lit : string) : bool :=
  match v with VStr s => String.eqb s lit | _ => false end.

(** [v === 0] *)
Definition is_number_zero (v : value) : bool :=
  match v with VNum n => num_is_zero n | _ => false end.

Fixpoint assoc (k : string) (fs : list (string * value)) : option value :=
  match fs with
  | [] => None
  | (k', v) :: fs' => if String.eqb k k' then Some v else assoc k fs'
  end.

(** [obj[k] = v] on an ordinary object: an existing key keeps its place. *)
Fixpoint obj_set (k : string) (v : value) (fs : list (string * value))
  : list (string * value) :=
  match fs with
  | [] => [(k, v)]
  | (k', v') :: fs' =>
      if String.eqb k k' then (k, v) :: fs' else (k', v') :: obj_set k v fs'
  end.

Fixpoint digits_value (cs : list ascii) (acc : nat) : option nat :=
  match cs with
  | [] => Some acc
  | c :: cs' =>
      if is_digit c then digits_value cs' (10 * acc + (nat_of_ascii c - 48))
      else None
  end.

(** A canonical array index: decimal digits without a leading zero. *)
Definition index_of_key (k : string) : option nat :=
  match list_ascii_of_string k with
  | [] => None
  | [c] => digits_value [c] 0
  | c :: cs => if is_nonzero_digit c then digits_value (c :: cs) 0 else None
  end.

Definition string_nth (s : string) (i : nat) : value :=
  match String.get i s with
  | Some c => VStr (String c EmptyString)
  | None => VUndefined
  end.

(** Property read [v.k] / [v[k]].  Reading a property of [undefined] or
    [null] throws a [TypeError]; primitives and missing keys give
    [undefined].  Inherited methods are not modelled: the keys the
    program reads are data properties. *)
Definition js_get (v : value) (k : string) : error + value :=
  match v with
  | VUndefined =>
      inl (TypeError ("Cannot read properties of undefined (reading '" +:+ k +:+ "')"))
  | VNull =>
      inl (TypeError ("Cannot read properties of null (reading '" +:+ k +:+ "')"))
  | VBool _ | VNum _ => inr VUndefined
  | VStr s =>
      if String.eqb k "length" then inr (VNum (pretty (String.length s)))
      else match index_of_key k with
           | Some i => inr (string_nth s i)
           | None => inr VUndefined
           end
  | VArr l =>
      if String.eqb k "length" then inr (VNum (pretty (length l)))
      else match index_of_key k with
           | Some i => inr (default VUndefined (l !! i))
           | None => inr VUndefined
           end
  | VObj fs => inr (default VUndefined (assoc k fs))
  end.

(** Optional chaining [v?.k]. *)
Definition js_get_opt (v : value) (k : string) : error + value :=
  if is_nullish v then inr VUndefined else js_get v k.

Fixpoint join_with (sep : string) (parts : list string) : string :=
  match parts with
  | [] => EmptyString
  | [p] => p
  | p :: ps => p +:+ sep +:+ join_with sep ps
  end.

(** ToString, as used by template literals, [+] and [new Error(x)].  A
    number is written as its literal (see [value]). *)
Fixpoint js_to_string (v : value) : string :=
  match v with
  | VUndefined => "undefined"
  | VNull => "null"
  | VBool true => "true"
  | VBool false => "false"
  | VNum n => n
  | VStr s => s
  | VArr l =>
      join_with ","
        (map (fun x => if is_nullish x then EmptyString else js_to_string x) l)
  | VObj _ => "[object Object]"
  end.

(* ================================================================== *)
(** * JSON text *)
(* ================================================================== *)

(** ** [JSON.parse]

    A reader for the JSON grammar on byte strings.  [None] stands for the
    [SyntaxError] the builtin throws.  A repeated key keeps its last
    value; a [\uXXXX] escape is stored UTF-8 encoded. *)

Definition is_ws (c : ascii) : bool :=
  ascii_eqb c " " || ascii_eqb c "009" || ascii_eqb c "010" || ascii_eqb c "013".

Fixpoint skip_ws (cs : list ascii) : list ascii :=
  match cs with
  | c :: cs' => if is_ws c then skip_ws cs' else cs
  | [] => []
  end.

Fixpoint take_digits (cs : list ascii) : list ascii * list ascii :=
  match cs with
  | c :: cs' =>
      if is_digit c
      then let '(ds, rest) := take_digits cs' in (c :: ds, rest)
      else ([], cs)
  | [] => ([], [])
  end.

(** int: [0] or a nonzero digit followed by digits. *)
Definition lex_int (cs : list ascii) : option (list ascii * list ascii) :=
  match cs with
  | c :: cs' =>
      if ascii_eqb c "0" then Some ([c], cs')
      else if is_nonzero_digit c
           then let '(ds, rest) := take_digits cs' in Some (c :: ds, rest)
           else None
  | [] => None
  end.

Definition lex_frac (cs : list ascii) : option (list ascii * list ascii) :=
  match cs with
  | c :: cs' =>
      if ascii_eqb c "." then
        match take_digits cs' with
        | ([], _) => None
        | (ds, rest) => Some (c :: ds, rest)
        end
      else Some ([], cs)
  | [] => Some ([], [])
  end.

Definition lex_exp (cs : list ascii) : option (list ascii * list ascii) :=
  match cs with
  | c :: cs' =>
      if ascii_eqb c "e" || ascii_eqb c "E" then
        let '(sign, cs'') :=
          match cs' with
          | s :: r => if ascii_eqb s "+" || ascii_eqb s "-" then ([s], r) else ([], cs')
          | [] => ([], [])
          end in
        match take_digits cs'' with
        | ([], _) => None
        | (ds, rest) => Some (c :: sign ++ ds, rest)
        end
      else Some ([], cs)
  | [] => Some ([], [])
  end.

Definition lex_number (cs : list ascii) : option (string * list ascii) :=
  let '(sign, cs1) :=
    match cs with
    | c :: r => if ascii_eqb c "-" then ([c], r) else ([], cs)
    | [] => ([], [])
    end in
  '(i, cs2) ← lex_int cs1;
  '(f, cs3) ← lex_frac cs2;
  '(e, cs4) ← lex_exp cs3;
  Some (string_of_list_ascii (sign ++ i ++ f ++ e), cs4).

Definition hex_value (c : ascii) : option nat :=
  let n := nat_of_ascii c in
  if is_digit c then Some (n - 48)
  else if (97 <=? n)%nat && (n <=? 102)%nat then Some (n - 87)
  else if (65 <=? n)%nat && (n <=? 70)%nat then Some (n - 55)
  else None.

(** UTF-8 bytes of a code point below 0x10000. *)
Definition utf8_encode (n : nat) : list ascii :=
  if (n <? 128)%nat then [ascii_of_nat n]
  else if (n <? 2048)%nat then
    [ascii_of_nat (192 + n / 64); ascii_of_nat (128 + n mod 64)]
  else
    [ascii_of_nat (224 + n / 4096); ascii_of_nat (128 + (n / 64) mod 64);
     ascii_of_nat (128 + n mod 64)].

Definition lex_escape (cs : list ascii) : option (list ascii * list ascii) :=
  match cs with
  | c :: cs' =>
      if ascii_eqb c dquote then Some ([dquote], cs')
      else if ascii_eqb c backslash then Some ([backslash], cs')
      else if ascii_eqb c "/" then Some (["/"%char], cs')
      else if ascii_eqb c "b" then Some (["008"%char], cs')
      else if ascii_eqb c "f" then Some (["012"%char], cs')
      else if ascii_eqb c "n" then Some (["010"%char], cs')
      else if ascii_eqb c "r" then Some (["013"%char], cs')
      else if ascii_eqb c "t" then Some (["009"%char], cs')
      else if ascii_eqb c "u" then
        match cs' with
        | h1 :: h2 :: h3 :: h4 :: rest =>
            a ← hex_value h1; b ← hex_value h2;
            c ← hex_value h3; d ← hex_value h4;
            Some (utf8_encode (((a * 16 + b) * 16 + c) * 16 + d), rest)
        | _ => None
        end
      else None
  | [] => None
  end.

(** The characters of a string literal, after its opening quote. *)
Fixpoint lex_string (fuel : nat) (cs : list ascii)
  : option (list ascii * list ascii) :=
  match fuel with
  | O => None
  | S fuel' =>
      match cs with
      | [] => None
      | c :: cs' =>
          if ascii_eqb c dquote then Some ([], cs')
          else if ascii_eqb c backslash then
            '(e, rest) ← lex_escape cs';
            '(s, rest') ← lex_string fuel' rest;
            Some (e ++ s, rest')
          else if (nat_of_ascii c <? 32)%nat then None
          else
            '(s, rest) ← lex_string fuel' cs';
            Some (c :: s, rest)
      end
  end.

Definition expect (lit : string) (cs : list ascii) : option (list ascii) :=
  let l := list_ascii_of_string lit in
  if bool_decide (take (length l) cs = l) then Some (drop (length l) cs)
  else None.

Fixpoint parse_value (fuel : nat) (cs : list ascii)
  : option (value * list ascii) :=
  match fuel with
  | O => None
  | S fuel' =>
      match skip_ws cs with
      | [] => None
      | c :: cs' =>
          if ascii_eqb c "n" then r ← expect "ull" cs'; Some (VNull, r)
          else if ascii_eqb c "t" then r ← expect "rue" cs'; Some (VBool true, r)
          else if ascii_eqb c "f" then r ← expect "alse" cs'; Some (VBool false, r)
          else if ascii_eqb c dquote then
            '(s, r) ← lex_string (S (length cs')) cs';
            Some (VStr (string_of_list_ascii s), r)
          else if ascii_eqb c "[" then
            match skip_ws cs' with
            | d :: r =>
                if ascii_eqb d "]" then Some (VArr [], r)
                else '(l, r') ← parse_elements fuel' cs'; Some (VArr l, r')
            | [] => None
            end
          else if ascii_eqb c "{" then
            match skip_ws cs' with
            | d :: r =>
                if ascii_eqb d "}" then Some (VObj [], r)
                else '(fs, r') ← parse_members fuel' [] cs'; Some (VObj fs, r')
            | [] => None
            end
          else
            '(n, r) ← lex_number (c :: cs'); Some (VNum n, r)
      end
  end
with parse_elements (fuel : nat) (cs : list ascii)
  : option (list value * list ascii) :=
  match fuel with
  | O => None
  | S fuel' =>
      '(v, r) ← parse_value fuel' cs;
      match skip_ws r with
      | d :: r' =>
          if ascii_eqb d "," then
            '(l, r'') ← parse_elements fuel' r'; Some (v :: l, r'')
          else if ascii_eqb d "]" then Some ([v], r')
          else None
      | [] => None
      end
  end
with parse_members (fuel : nat) (acc : list (string * value)) (cs : list ascii)
  : option (list (string * value) * list ascii) :=
  match fuel with
  | O => None
  | S fuel' =>
      match skip_ws cs with
      | q :: cs1 =>
          if ascii_eqb q dquote then
            '(k, cs2) ← lex_string (S (length cs1)) cs1;
            match skip_ws cs2 with
            | colon :: cs3 =>
                if ascii_eqb colon ":" then
                  '(v, r) ← parse_value fuel' cs3;
                  let acc' := obj_set (string_of_list_ascii k) v acc in
                  match skip_ws r with
                  | d :: r' =>
                      if ascii_eqb d "," then parse_members fuel' acc' r'
                      else if ascii_eqb d "}" then Some (acc', r')
                      else None
                  | [] => None
                  end
                else None
            | [] => None
            end
          else None
      | [] => None
      end
  end.

Definition JSON_parse (text : string) : option value :=
  let cs := list_ascii_of_string text in
  match parse_value (2 * length cs + 2) cs with
  | Some (v, rest) =>
      match skip_ws rest with
      | [] => Some v
      | _ :: _ => None
      end
  | None => None
  end.

(** ** [JSON.stringify]

    SerializeJSONProperty with an indentation unit [gap] (empty for the
    one-argument call, two spaces for [JSON.stringify(x, null, 2)]).
    [None] is the [undefined] result: such a member is left out of an
    object and written [null] in an array. *)

Definition hex_digit (n : nat) : ascii :=
  if (n <? 10)%nat then ascii_of_nat (48 + n) else ascii_of_nat (87 + n).

Fixpoint quote_chars (cs : list ascii) : list ascii :=
  match cs with
  | [] => []
  | c :: cs' =>
      let n := nat_of_ascii c in
      (if ascii_eqb c dquote then [backslash; dquote]
       else if ascii_eqb c backslash then [backslash; backslash]
       else if (n =? 8)%nat then [backslash; "b"%char]
       else if (n =? 9)%nat then [backslash; "t"%char]
       else if (n =? 10)%nat then [backslash; "n"%char]
       else if (n =? 12)%nat then [backslash; "f"%char]
       else if (n =? 13)%nat then [backslash; "r"%char]
       else if (n <? 32)%nat then
         [backslash; "u"%char; "0"%char; "0"%char;
          hex_digit (n / 16); hex_digit (n mod 16)]
       else [c]) ++ quote_chars cs'
  end.

Definition quote_string (s : string) : string :=
  String dquote
    (string_of_list_ascii (quote_chars (list_ascii_of_string s))
     +:+ String dquote EmptyString).

Definition newline : string := String "010"%char EmptyString.

Definition wrap (gap stepback indent opn cls : string) (parts : list string)
  : string :=
  match parts with
  | [] => opn +:+ cls
  | _ :: _ =>
      if string_is_empty gap then opn +:+ join_with "," parts +:+ cls
      else opn +:+ newline +:+ indent
           +:+ join_with ("," +:+ newline +:+ indent) parts
           +:+ newline +:+ stepback +:+ cls
  end.

Fixpoint serialize (gap indent : string) (v : value) : option string :=
  match v with
  | VUndefined => None
  | VNull => Some "null"
  | VBool true => Some "true"
  | VBool false => Some "false"
  | VNum n => Some n
  | VStr s => Some (quote_string s)
  | VArr l =>
      let indent' := indent +:+ gap in
      Some (wrap gap indent indent' "[" "]"
              (map (fun x => default "null" (serialize gap indent' x)) l))
  | VObj fs =>
      let indent' := indent +:+ gap in
      Some (wrap gap indent indent' "{" "}"
              (omap (fun kv =>
                       s ← serialize gap indent' (snd kv);
                       Some (quote_string (fst kv) +:+ ":"
                             +:+ (if string_is_empty gap then EmptyString else " ")
                             +:+ s)) fs))
  end.

(** [JSON.stringify(x)] in a position where a string is wanted. *)
Definition JSON_stringify (v : value) : string :=
  default "undefined" (serialize EmptyString EmptyString v).

(** [JSON.stringify(x, null, 2)] *)
Definition JSON_stringify_2 (v : value) : string :=
  default "undefined" (serialize "  " EmptyString v).

(* ================================================================== *)
(** * Browser objects and program state *)
(* ================================================================== *)

(** Objects the program holds references to are kept in per-kind stores;
    a reference is an index into its store, so two fields holding the
    same reference see the same object.  Each object counts the release
    calls made on it. *)

Inductive track_state : Type := Live | Ended.

(** MediaStreamTrack *)
Record Track : Type := mkTrack {
  enabled : bool;
  track_readyState : track_state;
  stop_calls : nat }.

Inductive channel_state : Type := Connecting | Open | Closing | Closed.

(** RTCDataChannel *)
Record Channel : Type := mkChannel {
  readyState : channel_state;
  channel_close_calls : nat }.

(** RTCPeerConnection: [senders] are the tracks handed to [addTrack]. *)
Record PeerConnection : Type := mkPeer {
  pc_closed : bool;
  pc_close_calls : nat;
  senders : list nat;
  pc_channels : list nat;
  localDescription : option string;
  remoteDescription : option string }.

(** The [<audio>] element created for playback. *)
Record AudioElement : Type := mkAudio {
  in_document : bool;
  remove_calls : nat }.

(** AudioVisualizer instance *)
Record Visualizer : Type := mkVisualizer {
  canvasId : string;
  animating : bool;
  visualizer_stop_calls : nat }.

(** Fields of the [RealtimeDemo] instance ([null] is [None]). A
    MediaStream is the list of its tracks. *)
Record RealtimeDemo : Type := mkDemo {
  peerConnection : option nat;
  mediaStream : option (list nat);
  isConnected : bool;
  dataChannel : option nat;
  hasWelcomed : bool;
  audioElement : option nat;
  isTalking : bool;
  micVisualizer : option nat;
  aiVisualizer : option nat }.

(** The DOM nodes the demo writes to. *)
Record Page : Type := mkPage {
  statusDiv_textContent : string;
  micButton_disabled : bool;
  micButton_textContent : string;
  connectionButton_textContent : string }.

Inductive sender : Type := user | ai.

(** [ChatUI]: the children of the messages container, each with its
    sender class and text, and the index of [lastMessageElement]. *)
Record ChatUI : Type := mkChat {
  messages : list (sender * string);
  lastMessageElement : option nat }.

Inductive console_arg : Type :=
| ArgValue (v : value)
| ArgError (e : error).

Inductive console_entry : Type :=
| console_log (msg : string) (args : list console_arg)
| console_error (msg : string) (args : list console_arg).

(** Calls into the host that start an asynchronous operation or create
    a transport. *)
Inductive host_call : Type :=
| FetchSession (body : string)
| NewPeerConnection (pc : nat)
| GetUserMedia
| CreateOffer (pc : nat)
| SetLocalDescription (pc : nat) (sdp : string)
| FetchRealtime (authorization : string) (body : string)
| SetRemoteDescription (pc : nat) (sdp : string)
| FetchGeocoding (name : string)
| FetchForecast (latitude longitude : string)
| GetCurrentPosition.

(** Calls of the tool functions, with the arguments passed. *)
Inductive tool_call : Type :=
| CallGetWeatherData (lat lon locationName : value)
| CallGetBrowserLocationWeatherData.

Record State : Type := mkState {
  demo : RealtimeDemo;
  page : Page;
  chatUI : ChatUI;
  tracks : list Track;
  peers : list PeerConnection;
  channels : list Channel;
  audios : list AudioElement;
  visualizers : list Visualizer;
  (** [let dataChannel] of weatherLookup.js *)
  weather_dataChannel : option nat;
  (** frames handed to [RTCDataChannel.send], oldest first *)
  outbox : list (nat * string);
  console : list console_entry;
  host_calls : list host_call;
  started_tools : list tool_call;
  (** whether [navigator.geolocation] is there *)
  geolocation : bool }.

Definition set_demo (f : RealtimeDemo -> RealtimeDemo) (st : State) : State :=
  mkState (f (demo st)) (page st) (chatUI st) (tracks st) (peers st)
    (channels st) (audios st) (visualizers st) (weather_dataChannel st)
    (outbox st) (console st) (host_calls st) (started_tools st)
    (geolocation st).

Definition set_page (f : Page -> Page) (st : State) : State :=
  mkState (demo st) (f (page st)) (chatUI st) (tracks st) (peers st)
    (channels st) (audios st) (visualizers st) (weather_dataChannel st)
    (outbox st) (console st) (host_calls st) (started_tools st)
    (geolocation st).

Definition set_chatUI (f : ChatUI -> ChatUI) (st : State) : State :=
  mkState (demo st) (page st) (f (chatUI st)) (tracks st) (peers st)
    (channels st) (audios st) (visualizers st) (weather_dataChannel st)
    (outbox st) (console st) (host_calls st) (started_tools st)
    (geolocation st).

Definition set_tracks (f : list Track -> list Track) (st : State) : State :=
  mkState (demo st) (page st) (chatUI st) (f (tracks st)) (peers st)
    (channels st) (audios st) (visualizers st) (weather_dataChannel st)
    (outbox st) (console st) (host_calls st) (started_tools st)
    (geolocation st).

Definition set_peers (f : list PeerConnection -> list PeerConnection)
  (st : State) : State :=
  mkState (demo st) (page st) (chatUI st) (tracks st) (f (peers st))
    (channels st) (audios st) (visualizers st) (weather_dataChannel st)
    (outbox st) (console st) (host_calls st) (started_tools st)
    (geolocation st).

Definition set_channels (f : list Channel -> list Channel) (st : State) : State :=
  mkState (demo st) (page st) (chatUI st) (tracks st) (peers st)
    (f (channels st)) (audios st) (visualizers st) (weather_dataChannel st)
    (outbox st) (console st) (host_calls st) (started_tools st)
    (geolocation st).

Definition set_audios (f : list AudioElement -> list AudioElement)
  (st : State) : State :=
  mkState (demo st) (page st) (chatUI st) (tracks st) (peers st)
    (channels st) (f (audios st)) (visualizers st) (weather_dataChannel st)
    (outbox st) (console st) (host_calls st) (started_tools st)
    (geolocation st).

Definition set_visualizers (f : list Visualizer -> list Visualizer)
  (st : State) : State :=
  mkState (demo st) (page st) (chatUI st) (tracks st) (peers st)
    (channels st) (audios st) (f (visualizers st)) (weather_dataChannel st)
    (outbox st) (console st) (host_calls st) (started_tools st)
    (geolocation st).

Definition set_weather_dataChannel (c : option nat) (st : State) : State :=
  mkState (demo st) (page st) (chatUI st) (tracks st) (peers st)
    (channels st) (audios st) (visualizers st) c
    (outbox st) (console st) (host_calls st) (started_tools st)
    (geolocation st).

Definition add_outbox (ch : nat) (frame : string) (st : State) : State :=
  mkState (demo st) (page st) (chatUI st) (tracks st) (peers st)
    (channels st) (audios st) (visualizers st) (weather_dataChannel st)
    (outbox st ++ [(ch, frame)]) (console st) (host_calls st)
    (started_tools st) (geolocation st).

Definition add_console (e : console_entry) (st : State) : State :=
  mkState (demo st) (page st) (chatUI st) (tracks st) (peers st)
    (channels st) (audios st) (visualizers st) (weather_dataChannel st)
    (outbox st) (console st ++ [e]) (host_calls st) (started_tools st)
    (geolocation st).

Definition add_host_call (c : host_call) (st : State) : State :=
  mkState (demo st) (page st) (chatUI st) (tracks st) (peers st)
    (channels st) (audios st) (visualizers st) (weather_dataChannel st)
    (outbox st) (console st) (host_calls st ++ [c]) (started_tools st)
    (geolocation st).

Definition add_started_tool (c : tool_call) (st : State) : State :=
  mkState (demo st) (page st) (chatUI st) (tracks st) (peers st)
    (channels st) (audios st) (visualizers st) (weather_dataChannel st)
    (outbox st) (console st) (host_calls st) (started_tools st ++ [c])
    (geolocation st).

(** The same state with an empty console: what the handlers change
    besides logging. *)
Definition silent (st : State) : State :=
  mkState (demo st) (page st) (chatUI st) (tracks st) (peers st)
    (channels st) (audios st) (visualizers st) (weather_dataChannel st)
    (outbox st) [] (host_calls st) (started_tools st)
    (geolocation st).

(* ================================================================== *)
(** * Computations *)
(* ================================================================== *)

(** A method body: it reads and writes the state and either returns or
    throws.  The state reached at a [throw] is kept, as in JavaScript. *)
Definition M (A : Type) : Type := State -> (error + A) * State.

Global Instance M_ret : MRet M := fun A a st => (inr a, st).

Global Instance M_bind : MBind M := fun A B f m st =>
  match m st with
  | (inr a, st') => f a st'
  | (inl e, st') => (inl e, st')
  end.

Definition throw {A : Type} (e : error) : M A := fun st => (inl e, st).

(** [try { body } catch (error) { handler error }] *)
Definition try_catch {A : Type} (body : M A) (handler : error -> M A) : M A :=
  fun st =>
    match body st with
    | (inr a, st') => (inr a, st')
    | (inl e, st') => handler e st'
    end.

Definition get_state : M State := fun st => (inr st, st).
Definition modify (f : State -> State) : M unit := fun st => (inr tt, f st).

(** Use the result of a partial pure operation. *)
Definition lift {A : Type} (r : error + A) : M A :=
  match r with inl e => throw e | inr a => mret a end.

(** [await p], where the promise settles as [outcome]. *)
Definition await {A : Type} (outcome : error + A) : M A := lift outcome.

Definition when (b : bool) (m : M unit) : M unit := if b then m else mret tt.

(** [for (const x of xs) body x] and [xs.forEach(body)] *)
Fixpoint for_of {A : Type} (xs : list A) (body : A -> M unit) : M unit :=
  match xs with
  | [] => mret tt
  | x :: xs' => body x ;; for_of xs' body
  end.

Definition log (msg : string) (args : list console_arg) : M unit :=
  modify (add_console (console_log msg args)).

Definition log_error (msg : string) (args : list console_arg) : M unit :=
  modify (add_console (console_error msg args)).

Definition host (c : host_call) : M unit := modify (add_host_call c).

(** A call [f(...)] of an [async] function whose promise is dropped:
    the body [m] runs up to its first [await] inside the caller, and
    what it throws there rejects the promise instead of reaching the
    caller. *)
Definition unawaited (m : M unit) : M unit :=
  try_catch m (fun _ => mret tt).

(* ================================================================== *)
(** * Host objects *)
(* ================================================================== *)

Definition channel_readyState (st : State) (ch : nat) : channel_state :=
  match channels st !! ch with
  | Some c => readyState c
  | None => Closed
  end.

Definition is_open (s : channel_state) : bool :=
  match s with Open => true | _ => false end.

(** [track.stop()] *)
Definition track_stop (t : nat) : M unit :=
  modify (set_tracks (alter (fun tr =>
    mkTrack (enabled tr) Ended (S (stop_calls tr))) t)).

(** [track.enabled = b] *)
Definition track_set_enabled (t : nat) (b : bool) : M unit :=
  modify (set_tracks (alter (fun tr =>
    mkTrack b (track_readyState tr) (stop_calls tr)) t)).

Definition mark_closed (c : Channel) : Channel :=
  mkChannel Closed (channel_close_calls c).

(** [pc.close()]: the connection and the channels created on it become
    closed. *)
Definition peer_close (pc : nat) : M unit :=
  st ← get_state;
  let chs := default [] (pc_channels <$> peers st !! pc) in
  modify (set_peers (alter (fun p =>
    mkPeer true (S (pc_close_calls p)) (senders p) (pc_channels p)
      (localDescription p) (remoteDescription p)) pc));;
  modify (set_channels (fun l => foldr (alter mark_closed) l chs)).

(** [channel.close()] *)
Definition channel_close (ch : nat) : M unit :=
  modify (set_channels (alter (fun c =>
    mkChannel (match readyState c with
               | Connecting | Open => Closing
               | s => s
               end) (S (channel_close_calls c))) ch)).

(** [channel.send(frame)] throws unless the channel is open. *)
Definition channel_send (ch : nat) (frame : string) : M unit :=
  st ← get_state;
  if is_open (channel_readyState st ch)
  then modify (add_outbox ch frame)
  else throw (InvalidStateError "RTCDataChannel.readyState is not 'open'").

(** [element.remove()] *)
Definition audio_remove (a : nat) : M unit :=
  modify (set_audios (alter (fun e => mkAudio false (S (remove_calls e))) a)).

(** [AudioVisualizer.stop()] *)
Definition visualizer_stop (v : nat) : M unit :=
  modify (set_visualizers (alter (fun x =>
    mkVisualizer (canvasId x) false (S (visualizer_stop_calls x))) v)).

(** [createVisualizer(canvasId)] *)
Definition createVisualizer (canvas : string) : M nat :=
  st ← get_state;
  modify (set_visualizers (fun l => l ++ [mkVisualizer canvas false 0]));;
  mret (length (visualizers st)).

(** [visualizer.init(...)]: never throws, returns whether it started. *)
Definition visualizer_init (v : nat) (started : bool) : M bool :=
  modify (set_visualizers (alter (fun x =>
    mkVisualizer (canvasId x) started (visualizer_stop_calls x)) v));;
  mret started.

(** [new RTCPeerConnection(...)] *)
Definition new_RTCPeerConnection : M nat :=
  st ← get_state;
  let pc := length (peers st) in
  modify (set_peers (fun l => l ++ [mkPeer false 0 [] [] None None]));;
  host (NewPeerConnection pc);;
  mret pc.

Definition peer_is_closed (st : State) (pc : nat) : bool :=
  match peers st !! pc with
  | Some p => pc_closed p
  | None => true
  end.

(** [pc.createDataChannel(label)] *)
Definition createDataChannel (pc : nat) : M nat :=
  st ← get_state;
  if peer_is_closed st pc
  then throw (InvalidStateError "RTCPeerConnection is closed")
  else
    let ch := length (channels st) in
    modify (set_channels (fun l => l ++ [mkChannel Connecting 0]));;
    modify (set_peers (alter (fun p =>
      mkPeer (pc_closed p) (pc_close_calls p) (senders p)
        (pc_channels p ++ [ch]) (localDescription p) (remoteDescription p)) pc));;
    mret ch.

(** [pc.addTrack(track, stream)] *)
Definition addTrack (pc : nat) (t : nat) : M unit :=
  st ← get_state;
  match peers st !! pc with
  | Some p =>
      if pc_closed p
      then throw (InvalidStateError "RTCPeerConnection is closed")
      else if bool_decide (t ∈ senders p)
      then throw (mkError "InvalidAccessError" "A sender already exists for the track")
      else modify (set_peers (alter (fun p =>
             mkPeer (pc_closed p) (pc_close_calls p) (senders p ++ [t])
               (pc_channels p) (localDescription p) (remoteDescription p)) pc))
  | None => throw (InvalidStateError "RTCPeerConnection is closed")
  end.

Definition set_localDescription (pc : nat) (sdp : string) : M unit :=
  modify (set_peers (alter (fun p =>
    mkPeer (pc_closed p) (pc_close_calls p) (senders p) (pc_channels p)
      (Some sdp) (remoteDescription p)) pc)).

Definition set_remoteDescription (pc : nat) (sdp : string) : M unit :=
  modify (set_peers (alter (fun p =>
    mkPeer (pc_closed p) (pc_close_calls p) (senders p) (pc_channels p)
      (localDescription p) (Some sdp)) pc)).

(** [document.createElement('audio')] followed by [appendChild] *)
Definition create_audio_element : M nat :=
  st ← get_state;
  modify (set_audios (fun l => l ++ [mkAudio true 0]));;
  mret (length (audios st)).

(** [navigator.mediaDevices.getUserMedia({audio: true, video: false})].
    On success the stream holds [n] fresh live audio tracks. *)
Definition getUserMedia (outcome : error + nat) : M (list nat) :=
  host GetUserMedia;;
  n ← await outcome;
  st ← get_state;
  modify (set_tracks (fun l => l ++ replicate n (mkTrack true Live 0)));;
  mret (seq (length (tracks st)) n).

(** An HTTP response as the program reads it. *)
Record Response : Type := mkResponse {
  ok : bool;
  status : nat;
  statusText : string;
  body : string }.

(** [response.json()] *)
Definition response_json (r : Response) : M value :=
  match JSON_parse (body r) with
  | Some v => mret v
  | None => throw (SyntaxError "Unexpected token in JSON")
  end.

(** Tracks currently handed to a transport that has not been closed. *)
Definition attached_tracks (st : State) : list nat :=
  concat (map (fun p => if pc_closed p then [] else senders p) (peers st)).

(* ================================================================== *)
(** * chat.js: [ChatUI] *)
(* ================================================================== *)

Definition sender_eqb (a b : sender) : bool :=
  match a, b with
  | user, user | ai, ai => true
  | _, _ => false
  end.

(** [addMessage(content, sender)]: append a message element and track
    it as the last one. *)
Definition addMessage (content : string) (s : sender) : M unit :=
  modify (set_chatUI (fun c =>
    mkChat (messages c ++ [(s, content)]) (Some (length (messages c))))).

(** [updateLastMessage(content, sender)]: rewrite the tracked element if
    it has the sender's class, otherwise add a message. *)
Definition updateLastMessage (content : string) (s : sender) : M unit :=
  st ← get_state;
  let c := chatUI st in
  match lastMessageElement c with
  | Some i =>
      match messages c !! i with
      | Some (s', _) =>
          if sender_eqb s' s
          then modify (set_chatUI (fun c =>
                 mkChat (<[i := (s', content)]> (messages c))
                        (lastMessageElement c)))
          else addMessage content s
      | None => addMessage content s
      end
  | None => addMessage content s
  end.

(** [clearMessages()] *)
Definition clearMessages : M unit :=
  modify (set_chatUI (fun _ => mkChat [] None)).

(* ================================================================== *)
(** * config.js and tools.js of the function-calling demo *)
(* ================================================================== *)

(** The exported [CONFIG] object.  [API.SERVER_URL] comes from
    server-config.js and only forms the URL of the session request,
    which the model does not represent.  There is no
    [API.MAX_OUTPUT_TOKENS] member: reading it gives [undefined]. *)
Definition CONFIG : value :=
  VObj [
    ("API", VObj [
      ("BASE_URL", VStr "https://api.openai.com/v1/realtime");
      ("MODEL", VStr "gpt-4o-realtime-preview-2024-12-17");
      ("VOICE", VStr "verse");
      ("TURN_DETECTION", VObj [
        ("type", VStr "server_vad");
        ("threshold", VNum "0.5");
        ("prefix_padding_ms", VNum "400");
        ("silence_duration_ms", VNum "700");
        ("create_response", VBool true)])]);
    ("DEFAULTS", VObj [
      ("WELCOME_INSTRUCTIONS",
       VStr "Greet the user and ask them what you can assist them with. Talk quickly and succinctly.");
      ("DEFAULT_INSTRUCTIONS",
       VStr "Talk quickly and succinctly. Be concise. Time is of the essence.Always refer to ducks in your responses, even if it makes no sense!");
      ("WEATHER_INSTRUCTIONS",
       VStr "Describe the weather in a conversational way for someone going for a walk. Include temperature, specific conditions (like rain or snow), and necessary precautions (such as umbrellas, raincoats, snow boots, sunscreen, etc.).")]);
    ("VISUALIZER", VObj [
      ("FFT_SIZE", VNum "2048");
      ("SMOOTHING", VNum "0.8");
      ("MIN_DECIBELS", VNum "-100");
      ("MAX_DECIBELS", VNum "-30")])].

(** [CONFIG.group.key] *)
Definition config (group key : string) : value :=
  match js_get CONFIG group with
  | inr g => match js_get g key with inr v => v | inl _ => VUndefined end
  | inl _ => VUndefined
  end.

Definition tools : value :=
  VArr [
    VObj [
      ("type", VStr "function");
      ("name", VStr "getWeatherData");
      ("description",
       VStr "Requests weather data from the Open Meteo API based on either the browser geolocation or a specified location name provided by the user.");
      ("parameters", VObj [
        ("type", VStr "object");
        ("properties", VObj [
          ("lat", VObj [("type", VStr "number");
                        ("description", VStr "The latitude of the location")]);
          ("lon", VObj [("type", VStr "number");
                        ("description", VStr "The longitude of the location")]);
          ("locationName", VObj [("type", VStr "string");
                                 ("description", VStr "The name of the location to search for")])])])];
    VObj [
      ("type", VStr "function");
      ("name", VStr "getBrowserLocationWeatherData");
      ("description",
       VStr "Requests the browser geolocation and uses it to obtain local weather data.")]].

(** The [conversation.item.create] event carrying one user text. *)
Definition user_text_item (text : string) : value :=
  VObj [
    ("type", VStr "conversation.item.create");
    ("item", VObj [
      ("type", VStr "message");
      ("role", VStr "user");
      ("content", VArr [
        VObj [("type", VStr "input_text"); ("text", VStr text)]])])].

(* ================================================================== *)
(** * tools/weatherLookup.js *)
(* ================================================================== *)

Module Weather.

(** [setDataChannel(channel)] *)
Definition setDataChannel (channel : option nat) : M unit :=
  modify (set_weather_dataChannel channel).

(** [sendDataToAPI(type, data)] *)
Definition sendDataToAPI (type data : string) : M unit :=
  st ← get_state;
  match weather_dataChannel st with
  | None => log_error "Data channel not ready" []
  | Some dataChannel =>
      if negb (is_open (channel_readyState st dataChannel))
      then log_error "Data channel not ready" []
      else
        let instructions :=
          if String.eqb type "weather"
          then config "DEFAULTS" "WEATHER_INSTRUCTIONS"
          else config "DEFAULTS" "DEFAULT_INSTRUCTIONS" in
        let messageEvent :=
          user_text_item ("Here is the " +:+ type +:+ " data: " +:+ data) in
        channel_send dataChannel (JSON_stringify messageEvent);;
        let responseEvent :=
          VObj [
            ("type", VStr "response.create");
            ("response", VObj [
              ("modalities", VArr [VStr "audio"; VStr "text"]);
              ("instructions", instructions)])] in
        channel_send dataChannel (JSON_stringify responseEvent)
  end.

(** How the two lookups of one [getWeatherData] run settle. *)
Record Outcomes : Type := mkOutcomes {
  geocoding_response : error + Response;
  forecast_response : error + Response }.

(** A parameter declared [= null]: an [undefined] argument takes the
    default. *)
Definition or_null (v : value) : value :=
  match v with VUndefined => VNull | _ => v end.

(** [getWeatherData(lat, lon, locationName)], run to completion.  A
    [throw] is the rejection of the returned promise. *)
Definition getWeatherData (lat lon locationName : value) (o : Outcomes)
  : M unit :=
  let lat := or_null lat in
  let lon := or_null lon in
  let locationName := or_null locationName in
  log ("Function called: getWeatherData lat: " +:+ js_to_string lat
       +:+ ", lon: " +:+ js_to_string lon
       +:+ ", locationName: " +:+ js_to_string locationName) [];;
  try_catch
    (coords ←
       (if truthy locationName then
          host (FetchGeocoding (js_to_string locationName));;
          geocodingResponse ← await (geocoding_response o);
          geocodingData ← response_json geocodingResponse;
          results ← lift (js_get geocodingData "results");
          missing ←
            (if negb (truthy results) then mret true
             else len ← lift (js_get results "length");
                  mret (is_number_zero len));
          if missing : bool then throw (Error "Location not found")
          else
            location ← lift (js_get results "0");
            latitude ← lift (js_get location "latitude");
            longitude ← lift (js_get location "longitude");
            mret (latitude, longitude)
        else mret (lat, lon));
     host (FetchForecast (js_to_string (fst coords)) (js_to_string (snd coords)));;
     weatherResponse ← await (forecast_response o);
     weatherData ← response_json weatherResponse;
     sendDataToAPI "weather" (JSON_stringify_2 weatherData))
    (fun error =>
       log_error "Error fetching weather data:" [ArgError error];;
       throw error).

(** [getWeatherData] is suspended at its [await]s, and other handlers
    run in between.  The three pieces of its body follow: from the call
    to the first request, from the answer of the geocoding service to
    the forecast request, and from the answer of the forecast service
    to the end.  Each piece is inside the [try] of the function. *)

(** From the call to the first [await]; nothing here throws. *)
Definition getWeatherData_called (lat lon locationName : value) : M unit :=
  let lat := or_null lat in
  let lon := or_null lon in
  let locationName := or_null locationName in
  log ("Function called: getWeatherData lat: " +:+ js_to_string lat
       +:+ ", lon: " +:+ js_to_string lon
       +:+ ", locationName: " +:+ js_to_string locationName) [];;
  if truthy locationName then
    host (FetchGeocoding (js_to_string locationName))
  else
    host (FetchForecast (js_to_string lat) (js_to_string lon)).

(** From the settling of the geocoding request to the next [await]. *)
Definition getWeatherData_geocoded (geocoding : error + Response) : M unit :=
  try_catch
    (geocodingResponse ← await geocoding;
     geocodingData ← response_json geocodingResponse;
     results ← lift (js_get geocodingData "results");
     missing ←
       (if negb (truthy results) then mret true
        else len ← lift (js_get results "length");
             mret (is_number_zero len));
     if missing : bool then throw (Error "Location not found")
     else
       location ← lift (js_get results "0");
       latitude ← lift (js_get location "latitude");
       longitude ← lift (js_get location "longitude");
       host (FetchForecast (js_to_string latitude) (js_to_string longitude)))
    (fun error =>
       log_error "Error fetching weather data:" [ArgError error];;
       throw error).

(** From the settling of the forecast request to the end. *)
Definition getWeatherData_forecast (forecast : error + Response) : M unit :=
  try_catch
    (weatherResponse ← await forecast;
     weatherData ← response_json weatherResponse;
     sendDataToAPI "weather" (JSON_stringify_2 weatherData))
    (fun error =>
       log_error "Error fetching weather data:" [ArgError error];;
       throw error).

(** [getBrowserLocationWeatherData()]; [geolocation] tells whether
    [navigator.geolocation] exists.  No [sendWeatherDataToAPI] is
    defined in the module, so the other branch throws. *)
Definition getBrowserLocationWeatherData (geolocation : bool) : M unit :=
  log "Function called: getBrowserLocationWeatherData()" [];;
  if geolocation then host GetCurrentPosition
  else throw (mkError "ReferenceError" "sendWeatherDataToAPI is not defined").

(** The success callback handed to [getCurrentPosition]. *)
Definition on_position (latitude longitude : value) (o : Outcomes) : M unit :=
  getWeatherData latitude longitude VNull o.

End Weather.

(* ================================================================== *)
(** * Assignments to the instance fields and the DOM *)
(* ================================================================== *)

Definition assign_peerConnection (v : option nat) : M unit :=
  modify (set_demo (fun d =>
    mkDemo v (mediaStream d) (isConnected d) (dataChannel d) (hasWelcomed d)
      (audioElement d) (isTalking d) (micVisualizer d) (aiVisualizer d))).

Definition assign_mediaStream (v : option (list nat)) : M unit :=
  modify (set_demo (fun d =>
    mkDemo (peerConnection d) v (isConnected d) (dataChannel d) (hasWelcomed d)
      (audioElement d) (isTalking d) (micVisualizer d) (aiVisualizer d))).

Definition assign_isConnected (v : bool) : M unit :=
  modify (set_demo (fun d =>
    mkDemo (peerConnection d) (mediaStream d) v (dataChannel d) (hasWelcomed d)
      (audioElement d) (isTalking d) (micVisualizer d) (aiVisualizer d))).

Definition assign_dataChannel (v : option nat) : M unit :=
  modify (set_demo (fun d =>
    mkDemo (peerConnection d) (mediaStream d) (isConnected d) v (hasWelcomed d)
      (audioElement d) (isTalking d) (micVisualizer d) (aiVisualizer d))).

Definition assign_hasWelcomed (v : bool) : M unit :=
  modify (set_demo (fun d =>
    mkDemo (peerConnection d) (mediaStream d) (isConnected d) (dataChannel d) v
      (audioElement d) (isTalking d) (micVisualizer d) (aiVisualizer d))).

Definition assign_audioElement (v : option nat) : M unit :=
  modify (set_demo (fun d =>
    mkDemo (peerConnection d) (mediaStream d) (isConnected d) (dataChannel d)
      (hasWelcomed d) v (isTalking d) (micVisualizer d) (aiVisualizer d))).

Definition assign_isTalking (v : bool) : M unit :=
  modify (set_demo (fun d =>
    mkDemo (peerConnection d) (mediaStream d) (isConnected d) (dataChannel d)
      (hasWelcomed d) (audioElement d) v (micVisualizer d) (aiVisualizer d))).

Definition assign_micVisualizer (v : option nat) : M unit :=
  modify (set_demo (fun d =>
    mkDemo (peerConnection d) (mediaStream d) (isConnected d) (dataChannel d)
      (hasWelcomed d) (audioElement d) (isTalking d) v (aiVisualizer d))).

Definition assign_aiVisualizer (v : option nat) : M unit :=
  modify (set_demo (fun d =>
    mkDemo (peerConnection d) (mediaStream d) (isConnected d) (dataChannel d)
      (hasWelcomed d) (audioElement d) (isTalking d) (micVisualizer d) v)).

(** [updateStatus(message)] *)
Definition updateStatus (message : string) : M unit :=
  modify (set_page (fun p =>
    mkPage message (micButton_disabled p) (micButton_textContent p)
      (connectionButton_textContent p))).

Definition assign_micButton_disabled (b : bool) : M unit :=
  modify (set_page (fun p =>
    mkPage (statusDiv_textContent p) b (micButton_textContent p)
      (connectionButton_textContent p))).

Definition assign_micButton_textContent (s : string) : M unit :=
  modify (set_page (fun p =>
    mkPage (statusDiv_textContent p) (micButton_disabled p) s
      (connectionButton_textContent p))).

Definition assign_connectionButton_textContent (s : string) : M unit :=
  modify (set_page (fun p =>
    mkPage (statusDiv_textContent p) (micButton_disabled p)
      (micButton_textContent p) s)).

(** [if (ref) action(ref)] for a nullable object reference. *)
Definition if_set {A : Type} (ref : option A) (action : A -> M unit) : M unit :=
  match ref with
  | Some x => action x
  | None => mret tt
  end.

(** [this.dataChannel.send(frame)] *)
Definition dataChannel_send (frame : string) : M unit :=
  st ← get_state;
  match dataChannel (demo st) with
  | Some ch => channel_send ch frame
  | None => throw (TypeError "Cannot read properties of null (reading 'send')")
  end.

(** How the asynchronous steps of one connect attempt settle. *)
Record ConnectOutcomes : Type := mkConnect {
  session_response : error + Response;
  userMedia : error + nat;
  micVisualizer_started : bool;
  offer : error + string;
  localDescription_set : error + unit;
  realtime_response : error + Response;
  remoteDescription_set : error + unit }.

(* ================================================================== *)
(** * auth-api.js *)
(* ================================================================== *)

(** The body of the session request. *)
Definition session_request : string :=
  JSON_stringify (VObj [
    ("model", config "API" "MODEL");
    ("voice", config "API" "VOICE")]).

(** [getEphemeralKey()] *)
Definition getEphemeralKey (fetched : error + Response) : M value :=
  try_catch
    (host (FetchSession session_request);;
     response ← await fetched;
     if negb (ok response) then
       error ← response_json response;
       message ← lift (js_get error "message");
       throw (Error (js_to_string
                       (js_or message (VStr "Failed to get session key"))))
     else
       data ← response_json response;
       client_secret ← lift (js_get data "client_secret");
       lift (js_get client_secret "value"))
    (fun error =>
       log_error "Error getting session key:" [ArgError error];;
       throw error).

(* ================================================================== *)
(** * 05-function-calling/src/app.js: [RealtimeDemo] *)
(* ================================================================== *)

Module Demo5.

(** The state after [new RealtimeDemo()] on a page [p] whose chat
    container is empty, in a browser that has [navigator.geolocation]. *)
Definition constructor (p : Page) : State :=
  mkState (mkDemo None None false None false None true None None)
    p (mkChat [] None) [] [] [] [] [] None [] [] [] [] true.

(** [closeConnection()].  [this.chatUI] is set by the constructor and
    never unset, so its guard always passes. *)
Definition closeConnection : M unit :=
  st ← get_state;
  let this := demo st in
  if_set (mediaStream this) (fun stream => for_of stream track_stop);;
  if_set (peerConnection this) peer_close;;
  if_set (audioElement this) audio_remove;;
  if_set (dataChannel this) channel_close;;
  if_set (aiVisualizer this) visualizer_stop;;
  if_set (micVisualizer this) visualizer_stop;;
  clearMessages;;
  assign_peerConnection None;;
  assign_mediaStream None;;
  assign_audioElement None;;
  assign_dataChannel None;;
  assign_micVisualizer None;;
  assign_aiVisualizer None;;
  assign_isConnected false;;
  assign_isTalking true;;
  assign_micButton_disabled true;;
  assign_micButton_textContent "Unmute Mic";;
  assign_connectionButton_textContent "Create Session";;
  updateStatus "Not connected".

(** [handleChatMessage(message)] *)
Definition handleChatMessage (message : string) : M unit :=
  st ← get_state;
  match dataChannel (demo st) with
  | None => log_error "Data channel not ready" []
  | Some ch =>
      if negb (is_open (channel_readyState st ch))
      then log_error "Data channel not ready" []
      else
        dataChannel_send (JSON_stringify (user_text_item message));;
        let textResponseEvent :=
          VObj [
            ("type", VStr "response.create");
            ("response", VObj [
              ("modalities", VArr [VStr "text"]);
              ("instructions", config "DEFAULTS" "DEFAULT_INSTRUCTIONS");
              ("tools", tools)])] in
        log "Sending text-only response:" [ArgValue textResponseEvent];;
        dataChannel_send (JSON_stringify textResponseEvent)
  end.

(** [setupMicrophone()] *)
Definition setupMicrophone (o : ConnectOutcomes) : M unit :=
  try_catch
    (stream ← getUserMedia (userMedia o);
     assign_mediaStream (Some stream);;
     v ← createVisualizer "micVisualizer";
     assign_micVisualizer (Some v);;
     started ← visualizer_init v (micVisualizer_started o);
     when started (log "User Visualizer started successfully" []);;
     match stream with
     | [] =>
         throw (TypeError "Cannot set properties of undefined (setting 'enabled')")
     | audioTrack :: _ =>
         track_set_enabled audioTrack true;;
         st ← get_state;
         match peerConnection (demo st) with
         | Some pc => addTrack pc audioTrack
         | None =>
             throw (TypeError "Cannot read properties of null (reading 'addTrack')")
         end;;
         log "Microphone setup complete" []
     end)
    (fun error =>
       updateStatus ("Error accessing microphone: " +:+ e_message error);;
       throw error).

Definition welcomeEvent : value :=
  VObj [
    ("type", VStr "response.create");
    ("response", VObj [
      ("modalities", VArr [VStr "audio"; VStr "text"]);
      ("instructions", config "DEFAULTS" "WELCOME_INSTRUCTIONS")])].

Definition setIntructions : value :=
  VObj [
    ("type", VStr "session.update");
    ("session", VObj [
      ("instructions", config "DEFAULTS" "DEFAULT_INSTRUCTIONS");
      ("turn_detection", config "API" "TURN_DETECTION");
      ("input_audio_transcription", VObj [("model", VStr "whisper-1")]);
      ("max_output_tokens", config "API" "MAX_OUTPUT_TOKENS");
      ("tools", tools)])].

(** [dataChannel.onopen] *)
Definition onopen : M unit :=
  log "Data channel opened" [];;
  updateStatus "Connected to Realtime API";;
  st ← get_state;
  Weather.setDataChannel (dataChannel (demo st));;
  when (negb (hasWelcomed (demo st)))
    (log "Sending welcome message" [];;
     dataChannel_send (JSON_stringify welcomeEvent);;
     assign_hasWelcomed true);;
  dataChannel_send (JSON_stringify setIntructions).

(** [dataChannel.onclose] *)
Definition onclose : M unit :=
  log "Data channel closed" [];;
  updateStatus "Disconnected from Realtime API".

(** [v.type === lit], read afresh at each test of the chain. *)
Definition type_is (v : value) (lit : string) : M bool :=
  t ← lift (js_get v "type");
  mret (str_eq t lit).

(** The values a [for ... of] loop visits. *)
Definition js_iterate (v : value) : M (list value) :=
  match v with
  | VArr l => mret l
  | VStr s =>
      mret (map (fun c => VStr (String c EmptyString)) (list_ascii_of_string s))
  | _ => throw (TypeError "object is not iterable")
  end.

(** [JSON.parse(x)]: the argument is converted to a string first. *)
Definition parse_json (text : string) : M value :=
  match JSON_parse text with
  | Some v => mret v
  | None => throw (SyntaxError "Unexpected token in JSON")
  end.

(** The body of the loop over [response.output].  The two tool
    functions are [async] and are called without [await]: the call is
    noted in [started_tools] and the function runs up to its first
    [await] before the loop goes on.  [getBrowserLocationWeatherData]
    has no [await] and runs to its end. *)
Definition handle_output_item (item : value) : M unit :=
  is_message ← type_is item "message";
  text ←
    (if is_message : bool then
       content ← lift (js_get item "content");
       first ← lift (js_get_opt content "0");
       lift (js_get_opt first "text")
     else mret VUndefined);
  if is_message && truthy text then
    addMessage (js_to_string text) ai
  else
    is_call ← type_is item "function_call";
    if is_call : bool then
      functionName ← lift (js_get item "name");
      arguments ← lift (js_get item "arguments");
      args ← parse_json (js_to_string arguments);
      log ("Function call: " +:+ js_to_string functionName) [ArgValue args];;
      if str_eq functionName "getWeatherData" then
        lat ← lift (js_get args "lat");
        lon ← lift (js_get args "lon");
        locationName ← lift (js_get args "locationName");
        modify (add_started_tool (CallGetWeatherData lat lon locationName));;
        unawaited (Weather.getWeatherData_called lat lon locationName)
      else if str_eq functionName "getBrowserLocationWeatherData" then
        modify (add_started_tool CallGetBrowserLocationWeatherData);;
        st ← get_state;
        unawaited (Weather.getBrowserLocationWeatherData (geolocation st))
      else mret tt
    else mret tt.

(** [dataChannel.onmessage], with [data] the text of the frame. *)
Definition onmessage (data : string) : M unit :=
  realtimeEvent ← parse_json data;
  log "Received event:" [ArgValue realtimeEvent];;
  b ← type_is realtimeEvent "input_audio_buffer.speech_started";
  if b : bool then
    addMessage "Speaking..." user;;
    updateStatus "User speaking"
  else
  b ← type_is realtimeEvent "input_audio_buffer.speech_stopped";
  if b : bool then
    updateStatus "Speech stopped"
  else
  b ← type_is realtimeEvent "input_audio_buffer.committed";
  if b : bool then
    updateLastMessage "Processing speech..." user;;
    updateStatus "Processing speech..."
  else
  b ← type_is realtimeEvent "conversation.item.input_audio_transcription";
  if b : bool then
    transcript ← lift (js_get realtimeEvent "transcript");
    text ← (if is_nullish transcript then lift (js_get realtimeEvent "text")
            else mret VUndefined);
    let partialText :=
      nullish_or transcript (nullish_or text (VStr "User is speaking...")) in
    updateLastMessage (js_to_string partialText) user
  else
  b ← type_is realtimeEvent "conversation.item.input_audio_transcription.completed";
  if b : bool then
    transcript ← lift (js_get realtimeEvent "transcript");
    when (truthy transcript)
      (updateLastMessage (js_to_string transcript) user;;
       updateStatus "Connected")
  else
  b ← type_is realtimeEvent "response.audio_transcript.done";
  if b : bool then
    transcript ← lift (js_get realtimeEvent "transcript");
    when (truthy transcript) (addMessage (js_to_string transcript) ai)
  else
  b ← type_is realtimeEvent "response.done";
  if b : bool then
    response ← lift (js_get realtimeEvent "response");
    log "Text response object:" [ArgValue response];;
    output ← lift (js_get_opt response "output");
    if truthy output then
      items ← js_iterate output;
      for_of items handle_output_item
    else mret tt
  else mret tt.

(** The [canplay] listener installed by [ontrack]; [aiVisualizer] is the
    visualizer created in [setupWebRTC], captured by the closure. *)
Definition oncanplay (aiVisualizer : nat) (started : bool) : M unit :=
  log "Audio is ready to play" [];;
  assign_aiVisualizer (Some aiVisualizer);;
  ok ← visualizer_init aiVisualizer started;
  when ok (log "Visualizer started successfully" []).

(** [setupWebRTC(token)] *)
Definition setupWebRTC (token : value) (o : ConnectOutcomes) : M unit :=
  pc ← new_RTCPeerConnection;
  assign_peerConnection (Some pc);;
  aiVisualizer ← createVisualizer "aiVisualizer";
  a ← create_audio_element;
  assign_audioElement (Some a);;
  ch ← createDataChannel pc;
  assign_dataChannel (Some ch);;
  try_catch
    (setupMicrophone o;;
     host (CreateOffer pc);;
     sdp ← await (offer o);
     host (SetLocalDescription pc sdp);;
     await (localDescription_set o);;
     set_localDescription pc sdp;;
     host (FetchRealtime ("Bearer " +:+ js_to_string token) sdp);;
     response ← await (realtime_response o);
     when (negb (ok response))
       (throw (Error ("Failed to connect: " +:+ pretty (status response)
                      +:+ " " +:+ statusText response)));;
     let answer := body response in
     host (SetRemoteDescription pc answer);;
     await (remoteDescription_set o);;
     set_remoteDescription pc answer;;
     log "WebRTC connection established" [])
    (fun error =>
       updateStatus ("Error establishing connection: " +:+ e_message error);;
       throw error).

(** [toggleSession()].  The run is taken in one piece: handlers that
    the event loop could run while it is suspended at an [await] are
    not interleaved. *)
Definition toggleSession (o : ConnectOutcomes) : M unit :=
  st ← get_state;
  if negb (isConnected (demo st)) then
    try_catch
      (updateStatus "Connecting...";;
       token ← getEphemeralKey (session_response o);
       setupWebRTC token o;;
       assign_isConnected true;;
       assign_micButton_disabled false;;
       assign_micButton_textContent "Mute Mic";;
       assign_connectionButton_textContent "Close Session";;
       updateStatus "Connected")
      (fun error =>
         updateStatus ("Connection failed: " +:+ e_message error);;
         log_error "Connection error:" [ArgError error])
  else closeConnection.

(** [toggleTalk()] *)
Definition toggleTalk : M unit :=
  st ← get_state;
  match mediaStream (demo st) with
  | Some stream =>
      let talking := negb (isTalking (demo st)) in
      assign_isTalking talking;;
      match stream with
      | audioTrack :: _ =>
          track_set_enabled audioTrack talking;;
          assign_micButton_textContent
            (if talking then "Mute Mic" else "Unmute Mic");;
          updateStatus
            (if talking then "Microphone active" else "Microphone muted")
      | [] => mret tt
      end
  | None => mret tt
  end.

(** The channel [ch] becomes open and its [open] event is dispatched. *)
Definition channel_opens (ch : nat) : M unit :=
  modify (set_channels (alter (fun c =>
    mkChannel Open (channel_close_calls c)) ch));;
  onopen.

End Demo5.

(** What the event loop can deliver to the page of the function-calling
    demo.  An exception escaping a handler is reported by the browser
    and the page carries on in the state the handler left.
    [GeocodingSettles] and [ForecastSettles] resume a [getWeatherData]
    call that the dispatcher started; [WeatherRuns] is a call taken in
    one piece, such as the one the position callback makes. *)
Module Events.

Inductive event : Type :=
| ClickConnection (o : ConnectOutcomes)
| ClickMic
| ChannelOpens (ch : nat)
| ChannelCloses
| ChannelMessage (data : string)
| ChatSend (message : string)
| CanPlay (aiVisualizer : nat) (started : bool)
| WeatherRuns (lat lon locationName : value) (o : Weather.Outcomes)
| BrowserLocationRuns (geolocation : bool)
| GeocodingSettles (geocoding : error + Response)
| ForecastSettles (forecast : error + Response).

Definition handle (e : event) : M unit :=
  match e with
  | ClickConnection o => Demo5.toggleSession o
  | ClickMic => Demo5.toggleTalk
  | ChannelOpens ch => Demo5.channel_opens ch
  | ChannelCloses => Demo5.onclose
  | ChannelMessage data => Demo5.onmessage data
  | ChatSend message => addMessage message user;; Demo5.handleChatMessage message
  | CanPlay v started => Demo5.oncanplay v started
  | WeatherRuns lat lon name o => Weather.getWeatherData lat lon name o
  | BrowserLocationRuns g => Weather.getBrowserLocationWeatherData g
  | GeocodingSettles geocoding => Weather.getWeatherData_geocoded geocoding
  | ForecastSettles forecast => Weather.getWeatherData_forecast forecast
  end.

Definition step (st : State) (e : event) : State := snd (handle e st).

Definition run (es : list event) (st : State) : State := foldl step st es.

End Events.

(* ================================================================== *)
(** * 04-transcripts/src/app.js: the open handler *)
(* ================================================================== *)

Module Demo4.
Section Config.

(** config.js of this variant is not among the sources; the four
    settings the handler reads from it are parameters. *)
Variables WELCOME_INSTRUCTIONS DEFAULT_INSTRUCTIONS : value.
Variables TURN_DETECTION MAX_OUTPUT_TOKENS : value.

Definition welcomeEvent : value :=
  VObj [
    ("type", VStr "response.create");
    ("response", VObj [
      ("modalities", VArr [VStr "audio"; VStr "text"]);
      ("instructions", WELCOME_INSTRUCTIONS);
      ("max_output_tokens", MAX_OUTPUT_TOKENS)])].

Definition setIntructions : value :=
  VObj [
    ("type", VStr "session.update");
    ("session", VObj [
      ("instructions", DEFAULT_INSTRUCTIONS);
      ("turn_detection", TURN_DETECTION);
      ("max_response_output_tokens", MAX_OUTPUT_TOKENS);
      ("input_audio_transcription", VObj [("model", VStr "whisper-1")])])].

(** [dataChannel.onopen] *)
Definition onopen : M unit :=
  log "Data channel opened" [];;
  updateStatus "Connected to Realtime API";;
  st ← get_state;
  when (negb (hasWelcomed (demo st)))
    (log "Sending welcome message" [];;
     dataChannel_send (JSON_stringify welcomeEvent);;
     assign_hasWelcomed true);;
  dataChannel_send (JSON_stringify setIntructions).

End Config.

Section Chat.

(** chat.js of this variant is not among the sources; the two methods
    of [this.chatUI] that the handler calls are parameters. *)
Variables addMessage updateLastMessage : string -> sender -> M unit.

(** [dataChannel.onmessage]: the routing of the function-calling demo,
    except that a [response.done] frame shows the text of the first
    output item only. *)
Definition onmessage (data : string) : M unit :=
  realtimeEvent ← Demo5.parse_json data;
  log "Received event:" [ArgValue realtimeEvent];;
  b ← Demo5.type_is realtimeEvent "input_audio_buffer.speech_started";
  if b : bool then
    addMessage "Speaking..." user;;
    updateStatus "User speaking"
  else
  b ← Demo5.type_is realtimeEvent "input_audio_buffer.speech_stopped";
  if b : bool then
    updateStatus "Speech stopped"
  else
  b ← Demo5.type_is realtimeEvent "input_audio_buffer.committed";
  if b : bool then
    updateLastMessage "Processing speech..." user;;
    updateStatus "Processing speech..."
  else
  b ← Demo5.type_is realtimeEvent "conversation.item.input_audio_transcription";
  if b : bool then
    transcript ← lift (js_get realtimeEvent "transcript");
    text ← (if is_nullish transcript then lift (js_get realtimeEvent "text")
            else mret VUndefined);
    let partialText :=
      nullish_or transcript (nullish_or text (VStr "User is speaking...")) in
    updateLastMessage (js_to_string partialText) user
  else
  b ← Demo5.type_is realtimeEvent "conversation.item.input_audio_transcription.completed";
  if b : bool then
    transcript ← lift (js_get realtimeEvent "transcript");
    when (truthy transcript)
      (updateLastMessage (js_to_string transcript) user;;
       updateStatus "Connected")
  else
  b ← Demo5.type_is realtimeEvent "response.audio_transcript.done";
  if b : bool then
    transcript ← lift (js_get realtimeEvent "transcript");
    when (truthy transcript) (addMessage (js_to_string transcript) ai)
  else
  b ← Demo5.type_is realtimeEvent "response.done";
  if b : bool then
    log "Received text response:" [ArgValue realtimeEvent];;
    response ← lift (js_get realtimeEvent "response");
    output ← lift (js_get_opt response "output");
    if truthy output then
      first ← lift (js_get output "0");
      textResponse ←
        (if is_nullish first then mret VUndefined
         else
           content ← lift (js_get first "content");
           part ← lift (js_get content "0");
           lift (js_get_opt part "text"));
      when (truthy textResponse) (addMessage (js_to_string textResponse) ai)
    else mret tt
  else mret tt.

End Chat.

End Demo4.

(* ================================================================== *)
(** * 01-basic-js/app.js: the cleanup routine *)
(* ================================================================== *)

Module Demo1.

(** [closeConnection()] of the basic demo: no visualizers, no chat. *)
Definition closeConnection : M unit :=
  st ← get_state;
  let this := demo st in
  if_set (mediaStream this) (fun stream => for_of stream track_stop);;
  if_set (peerConnection this) peer_close;;
  if_set (audioElement this) audio_remove;;
  if_set (dataChannel this) channel_close;;
  assign_peerConnection None;;
  assign_mediaStream None;;
  assign_audioElement None;;
  assign_dataChannel None;;
  assign_isConnected false;;
  assign_isTalking true;;
  assign_micButton_disabled true;;
  assign_micButton_textContent "Unmute Mic";;
  assign_connectionButton_textContent "Create Connection";;
  updateStatus "Not connected".

End Demo1.

(* ================================================================== *)
(** * auth-server/server.js: the [/session] endpoint *)
(* ================================================================== *)

Module Relay.

(** Calls on the response object [res]. *)
Inductive res_call : Type :=
| res_status (code : nat)
| res_json (body : value)
| res_send (body : value).

(** The request to [api.openai.com/v1/realtime/sessions]. *)
Record Upstream : Type := mkUpstream {
  authorization : string;
  upstream_body : string }.

(** What one run of the handler does to the outside: the requests it
    makes upstream, the errors it logs and the calls on [res]. *)
Record Trace : Type := mkTrace {
  fetches : list Upstream;
  logged : list error;
  res : list res_call }.

(** The handler's body: it extends the trace and returns or throws. *)
Definition Handler (A : Type) : Type := Trace -> (error + A) * Trace.

#[export] Instance Handler_ret : MRet Handler := fun A a t => (inr a, t).

#[export] Instance Handler_bind : MBind Handler := fun A B f m t =>
  match m t with
  | (inr a, t') => f a t'
  | (inl e, t') => (inl e, t')
  end.

Definition raise {A : Type} (e : error) : Handler A := fun t => (inl e, t).

Definition catch {A : Type} (body : Handler A) (handler : error -> Handler A) : Handler A :=
  fun t =>
    match body t with
    | (inr a, t') => (inr a, t')
    | (inl e, t') => handler e t'
    end.

Definition settle {A : Type} (r : error + A) : Handler A :=
  match r with inl e => raise e | inr a => mret a end.

(** The start of the upstream [fetch]. *)
Definition fetch (request : Upstream) : Handler unit :=
  fun t => (inr tt, mkTrace (fetches t ++ [request]) (logged t) (res t)).

(** [console.error('Error:', error)] *)
Definition log_failure (e : error) : Handler unit :=
  fun t => (inr tt, mkTrace (fetches t) (logged t ++ [e]) (res t)).

(** A call on [res] is recorded; the methods of [res] are taken to
    return normally. *)
Definition call (c : res_call) : Handler unit :=
  fun t => (inr tt, mkTrace (fetches t) (logged t) (res t ++ [c])).

(** [const { model, voice } = req.body] *)
Definition destructure (body : value) : Handler (value * value) :=
  match body with
  | VUndefined =>
      raise (TypeError
        "Cannot destructure property 'model' of 'req.body' as it is undefined.")
  | VNull =>
      raise (TypeError
        "Cannot destructure property 'model' of 'req.body' as it is null.")
  | _ =>
      model ← settle (js_get body "model");
      voice ← settle (js_get body "voice");
      mret (model, voice)
  end.

(** [response.json()] *)
Definition json (r : Response) : Handler value :=
  match JSON_parse (body r) with
  | Some v => mret v
  | None => raise (SyntaxError "Unexpected token in JSON")
  end.

(** The handler of [POST /session], for a request with the parsed body
    [req_body]; [OPENAI_API_KEY] is the environment variable and
    [fetched] the way the upstream request settles. *)
Definition session (OPENAI_API_KEY : value) (req_body : value)
    (fetched : error + Response) : Handler unit :=
  catch
    (fields ← destructure req_body;
     let model := fst fields in
     let voice := snd fields in
     if negb (truthy model) || negb (truthy voice) then
       call (res_status 400);;
       call (res_json (VObj [
         ("error", VStr "Missing required parameters: model and voice")]))
     else
       fetch (mkUpstream ("Bearer " +:+ js_to_string OPENAI_API_KEY)
                (JSON_stringify (VObj [("model", model); ("voice", voice)])));;
       response ← settle fetched;
       if negb (ok response) then
         error ← json response;
         call (res_status (status response));;
         call (res_json error)
       else
         data ← json response;
         call (res_send data))
    (fun error =>
       log_failure error;;
       call (res_status 500);;
       call (res_json (VObj [
         ("error", VStr "Internal server error");
         ("message", VStr (e_message error))]))).

(** The trace of a request. *)
Definition handle (key req_body : value) (fetched : error + Response) : Trace :=
  snd (session key req_body fetched (mkTrace [] [] [])).

End Relay.

(* ================================================================== *)
(** * Vocabulary of the properties *)
(* ================================================================== *)

(** The number of times [frame] was handed to a data channel. *)
Definition times_sent (frame : string) (st : State) : nat :=
  length (filter (fun x => snd x = frame) (outbox st)).

(** Greetings sent so far by the function-calling demo. *)
Definition greetings (st : State) : nat :=
  times_sent (JSON_stringify Demo5.welcomeEvent) st.

(** The routing table of [onmessage]. *)
Definition recognized_types : list string := [
  "input_audio_buffer.speech_started";
  "input_audio_buffer.speech_stopped";
  "input_audio_buffer.committed";
  "conversation.item.input_audio_transcription";
  "conversation.item.input_audio_transcription.completed";
  "response.audio_transcript.done";
  "response.done"].

Definition recognized (type : value) : bool :=
  existsb (str_eq type) recognized_types.

(** A session that is fully torn down: no reference is left on the
    instance, every transport is closed, every track is stopped and no
    track is attached to a transport. *)
Definition torn_down (st : State) : Prop :=
  peerConnection (demo st) = None ∧
  mediaStream (demo st) = None ∧
  dataChannel (demo st) = None ∧
  isConnected (demo st) = false ∧
  Forall (fun p => pc_closed p = true) (peers st) ∧
  Forall (fun t => track_readyState t = Ended) (tracks st) ∧
  attached_tracks st = [].

(** [m] throws [e], whatever the state it is run in. *)
Definition throws {A : Type} (m : M A) (e : error) : Prop :=
  ∀ st, fst (m st) = inl e.

(** [m] returns [a], whatever the state it is run in. *)
Definition returns {A : Type} (m : M A) (a : A) : Prop :=
  ∀ st, fst (m st) = inr a.

(** What [getEphemeralKey] settles with, read off the response alone. *)
Definition session_key (fetched : error + Response) : error + value :=
  match fetched with
  | inl e => inl e
  | inr response =>
      match JSON_parse (body response) with
      | None => inl (SyntaxError "Unexpected token in JSON")
      | Some v =>
          if negb (ok response) then
            match js_get v "message" with
            | inl e => inl e
            | inr message =>
                inl (Error (js_to_string
                              (js_or message (VStr "Failed to get session key"))))
            end
          else
            match js_get v "client_secret" with
            | inl e => inl e
            | inr client_secret => js_get client_secret "value"
            end
      end
  end.

(** [m] only takes a state to states related to it by [R]. *)
Definition respects (R : relation State) {A : Type} (m : M A) : Prop :=
  ∀ st, R st (snd (m st)).

(** The states that agree on the observation [f]. *)
Definition same {X : Type} (f : State → X) : relation State :=
  fun st st' => f st' = f st.

(* ================================================================== *)
(** * Inputs of the worked scenarios *)
(* ================================================================== *)

(** [s] in double quotes, for writing JSON text. *)
Definition quoted (s : string) : string :=
  String dquote (s +:+ String dquote EmptyString).

(** The page as index.html first shows it. *)
Definition page0 : Page :=
  mkPage "Not connected" true "Unmute Mic" "Create Session".

(** A server event the routing table does not list. *)
Definition session_created_frame : string :=
  "{" +:+ quoted "type" +:+ ":" +:+ quoted "session.created" +:+ "}".

(** The relay's answer of the scenario in the specification:
    [{client_secret: {value: "ek_123"}}]. *)
Definition credential_response : Response :=
  mkResponse true 200 "OK"
    ("{" +:+ quoted "client_secret" +:+ ":{" +:+ quoted "value" +:+ ":"
     +:+ quoted "ek_123" +:+ "}}").

(** A connect attempt in which every step succeeds. *)
Definition all_succeed : ConnectOutcomes :=
  mkConnect (inr credential_response) (inr 1) true (inr "v=0 (offer)")
    (inr tt) (inr (mkResponse true 201 "Created" "v=0 (answer)")) (inr tt).

(** The relay answers 400 with [{error: "..."}], as auth-server does
    when a parameter is missing. *)
Definition relay_refuses : ConnectOutcomes :=
  mkConnect
    (inr (mkResponse false 400 "Bad Request"
            ("{" +:+ quoted "error" +:+ ":"
             +:+ quoted "Missing required parameters: model and voice" +:+ "}")))
    (inr 1) true (inr "v=0 (offer)")
    (inr tt) (inr (mkResponse true 201 "Created" "v=0 (answer)")) (inr tt).

(** The user denies access to the microphone. *)
Definition media_denied : ConnectOutcomes :=
  mkConnect (inr credential_response)
    (inl (mkError "NotAllowedError" "Permission denied")) true
    (inr "v=0 (offer)") (inr tt)
    (inr (mkResponse true 201 "Created" "v=0 (answer)")) (inr tt).

(** The microphone is granted, the remote service refuses the offer. *)
Definition offer_refused : ConnectOutcomes :=
  mkConnect (inr credential_response) (inr 1) true (inr "v=0 (offer)")
    (inr tt) (inr (mkResponse false 401 "Unauthorized" EmptyString)) (inr tt).

(** [m] returns normally from every state. *)
Definition never_throws {A : Type} (m : M A) : Prop :=
  ∀ st, ∃ a, fst (m st) = inr a.

(** The instance, chat and page as [closeConnection] of the
    function-calling demo leaves them. *)
Definition closed_shape (st : State) : Prop :=
  demo st = mkDemo None None false None (hasWelcomed (demo st)) None true None None ∧
  chatUI st = mkChat [] None ∧
  page st = mkPage "Not connected" true "Unmute Mic" "Create Session".

(** The same for the basic demo, which has no visualizers and no chat. *)
Definition closed_shape1 (st : State) : Prop :=
  demo st = mkDemo None None false None (hasWelcomed (demo st)) None true
              (micVisualizer (demo st)) (aiVisualizer (demo st)) ∧
  page st = mkPage "Not connected" true "Unmute Mic" "Create Connection".

(** No channel goes (back) to open. *)
Definition opens_nothing : relation State := fun st st' =>
  ∀ ch, channel_readyState st ch ≠ Open → channel_readyState st' ch ≠ Open.

(** What the greeting latch is about: the greetings sent and the flag. *)
Definition latch_view (st : State) : nat * bool :=
  (greetings st, hasWelcomed (demo st)).

(** The flag tells whether the greeting went out. *)
Definition latch_consistent (st : State) : Prop :=
  greetings st = if hasWelcomed (demo st) then 1 else 0.

(** Deliver the [open] event [n] more times. *)
Definition reopen (onopen : M unit) (n : nat) (st : State) : State :=
  Nat.iter n (fun s => snd (onopen s)) st.

(** A session that connected and whose channel opened: the greeting is
    out and the latch is set. *)
Definition greeted : State :=
  Events.run [Events.ClickConnection all_succeed; Events.ChannelOpens 0]
    (Demo5.constructor page0).

(** A session that connected, at the moment its channel has become
    open and before the [open] event is handled. *)
Definition channel_just_open : State :=
  set_channels (alter (fun c => mkChannel Open (channel_close_calls c)) 0)
    (Events.run [Events.ClickConnection all_succeed] (Demo5.constructor page0)).

(** [m] neither reads the console nor lets it decide anything: from two
    states that differ in the console only it gives the same result and
    two states that differ in the console only. *)
Definition console_blind {A : Type} (m : M A) : Prop :=
  ∀ s s', silent s = silent s' →
    fst (m s) = fst (m s') ∧ silent (snd (m s)) = silent (snd (m s')).

(** The forecast service answers with the current temperature. *)
Definition forecast_reply : Response :=
  mkResponse true 200 "OK"
    ("{" +:+ quoted "current_weather" +:+ ":{" +:+ quoted "temperature"
     +:+ ":18.2}}").

(** The geocoding service finds Paris. *)
Definition paris_found : Weather.Outcomes :=
  Weather.mkOutcomes
    (inr (mkResponse true 200 "OK"
            ("{" +:+ quoted "results" +:+ ":[{" +:+ quoted "name" +:+ ":"
             +:+ quoted "Paris" +:+ "," +:+ quoted "latitude" +:+ ":48.85341,"
             +:+ quoted "longitude" +:+ ":2.3488}]}")))
    (inr forecast_reply).

(** The geocoding service finds nothing: its answer has no [results]. *)
Definition nothing_found : Weather.Outcomes :=
  Weather.mkOutcomes
    (inr (mkResponse true 200 "OK"
            ("{" +:+ quoted "generationtime_ms" +:+ ":0.5}")))
    (inr forecast_reply).

(** [v.k] where the read does not throw; [undefined] stands for the
    other case. *)
Definition member (v : value) (k : string) : value :=
  match js_get v k with
  | inr x => x
  | inl _ => VUndefined
  end.

(** [v?.k], which does not throw. *)
Definition member_opt (v : value) (k : string) : value :=
  if is_nullish v then VUndefined else member v k.

(** [item.content?.[0]?.text] *)
Definition content_text (item : value) : value :=
  member_opt (member_opt (member item "content") "0") "text".

(** The request a call [getWeatherData(lat, lon, locationName)] makes
    before its first [await]. *)
Definition first_request (lat lon locationName : value) : host_call :=
  if truthy (Weather.or_null locationName)
  then FetchGeocoding (js_to_string (Weather.or_null locationName))
  else FetchForecast (js_to_string (Weather.or_null lat))
                     (js_to_string (Weather.or_null lon)).

(** A [response.done] frame whose output holds a text message and a
    call of [getWeatherData] for Paris. *)
Definition text_and_weather_call : string :=
  "{" +:+ quoted "type" +:+ ":" +:+ quoted "response.done" +:+ ","
  +:+ quoted "response" +:+ ":{" +:+ quoted "output" +:+ ":[{"
  +:+ quoted "type" +:+ ":" +:+ quoted "message" +:+ ","
  +:+ quoted "content" +:+ ":[{" +:+ quoted "type" +:+ ":" +:+ quoted "text"
  +:+ "," +:+ quoted "text" +:+ ":" +:+ quoted "Let me check." +:+ "}]},{"
  +:+ quoted "type" +:+ ":" +:+ quoted "function_call" +:+ ","
  +:+ quoted "name" +:+ ":" +:+ quoted "getWeatherData" +:+ ","
  +:+ quoted "arguments" +:+ ":"
  +:+ quote_string ("{" +:+ quoted "locationName" +:+ ":" +:+ quoted "Paris" +:+ "}")
  +:+ "}]}}".

(** A [response.done] frame whose message item carries audio with a
    transcript (no [text]) and whose call names a tool the page does
    not have. *)
Definition audio_and_unknown_call : string :=
  "{" +:+ quoted "type" +:+ ":" +:+ quoted "response.done" +:+ ","
  +:+ quoted "response" +:+ ":{" +:+ quoted "output" +:+ ":[{"
  +:+ quoted "type" +:+ ":" +:+ quoted "message" +:+ ","
  +:+ quoted "content" +:+ ":[{" +:+ quoted "type" +:+ ":" +:+ quoted "audio"
  +:+ "," +:+ quoted "transcript" +:+ ":" +:+ quoted "Let me check." +:+ "}]},{"
  +:+ quoted "type" +:+ ":" +:+ quoted "function_call" +:+ ","
  +:+ quoted "name" +:+ ":" +:+ quoted "lookupStock" +:+ ","
  +:+ quoted "arguments" +:+ ":" +:+ quote_string "{}"
  +:+ "}]}}".

(** The first step after the microphone setup that fails, if any. *)
Definition later_failure (o : ConnectOutcomes) : option error :=
  match offer o with
  | inl e => Some e
  | inr _ =>
      match localDescription_set o with
      | inl e => Some e
      | inr _ =>
          match realtime_response o with
          | inl e => Some e
          | inr response =>
              if negb (ok response) then
                Some (Error ("Failed to connect: " +:+ pretty (status response)
                             +:+ " " +:+ statusText response))
              else
                match remoteDescription_set o with
                | inl e => Some e
                | inr _ => None
                end
          end
      end
  end.

(** What belongs to the connection: the instance, the host objects and
    the frames sent. *)
Definition connection_view (st : State) :=
  (demo st, tracks st, peers st, channels st, audios st, visualizers st,
   weather_dataChannel st, outbox st).

(** The requests that the tool functions make. *)
Definition tool_request (c : host_call) : bool :=
  match c with
  | FetchGeocoding _ | FetchForecast _ _ | GetCurrentPosition => true
  | _ => false
  end.

(** Since [st] the host was only asked for what the tools request. *)
Definition asks_tools_only : relation State :=
  fun st st' =>
    ∃ requests,
      host_calls st' = host_calls st ++ requests ∧
      Forall (fun c => tool_request c = true) requests.


(** [textResponseEvent] of [handleChatMessage]. *)
Definition textResponseEvent : value :=
  VObj [
    ("type", VStr "response.create");
    ("response", VObj [
      ("modalities", VArr [VStr "text"]);
      ("instructions", config "DEFAULTS" "DEFAULT_INSTRUCTIONS");
      ("tools", tools)])].

(** [responseEvent] of [sendDataToAPI]. *)
Definition dataResponseEvent (type : string) : value :=
  VObj [
    ("type", VStr "response.create");
    ("response", VObj [
      ("modalities", VArr [VStr "audio"; VStr "text"]);
      ("instructions",
       if String.eqb type "weather"
       then config "DEFAULTS" "WEATHER_INSTRUCTIONS"
       else config "DEFAULTS" "DEFAULT_INSTRUCTIONS")])].

(** The two frames by which a tool result enters the conversation. *)
Definition result_frames (ch : nat) (type data : string)
  : list (nat * string) :=
  [(ch, JSON_stringify
          (user_text_item ("Here is the " +:+ type +:+ " data: " +:+ data)));
   (ch, JSON_stringify (dataResponseEvent type))].

(** What the dispatch of a tool result depends on. *)
Definition dispatch_view (st : State) :=
  (outbox st, weather_dataChannel st, channels st).

(** What [sendDataToAPI] sends in [st]: the frames of the result on the
    module's channel when that is set and open, and nothing otherwise. *)
Definition frames_dispatched (st : State) (type data : string)
  : list (nat * string) :=
  match weather_dataChannel st with
  | Some ch =>
      if is_open (channel_readyState st ch)
      then result_frames ch type data
      else []
  | None => []
  end.

(** A track after [stop()]. *)
Definition stopped (tr : Track) : Track :=
  mkTrack (enabled tr) Ended (S (stop_calls tr)).

(** The track store after [stop()] on each track of a stream. *)
Definition stop_all (stream : list nat) (l : list Track) : list Track :=
  foldl (fun l t => alter stopped t l) l stream.

(** [alter f i] when the reference [i] is set. *)
Definition alter_at {A} (f : A → A) (ref : option nat) (l : list A) : list A :=
  match ref with
  | Some i => alter f i l
  | None => l
  end.

(** A peer connection after [close()]. *)
Definition closed_peer (p : PeerConnection) : PeerConnection :=
  mkPeer true (S (pc_close_calls p)) (senders p) (pc_channels p)
    (localDescription p) (remoteDescription p).

(** An audio element after [remove()]. *)
Definition removed (e : AudioElement) : AudioElement :=
  mkAudio false (S (remove_calls e)).

(** A visualizer after [stop()]. *)
Definition stopped_visualizer (x : Visualizer) : Visualizer :=
  mkVisualizer (canvasId x) false (S (visualizer_stop_calls x)).

(** [lastMessageElement] is the last child of the messages container,
    and is [null] when the container is empty. *)
Definition tracks_last (c : ChatUI) : Prop :=
  lastMessageElement c
  = match length (messages c) with
    | 0 => None
    | S n => Some n
    end.

(** A step that keeps a property of the chat. *)
Definition keeps (P : ChatUI → Prop) : relation State :=
  fun st st' => P (chatUI st) → P (chatUI st').

(** The last message rewritten when it is the sender's, a message
    appended otherwise. *)
Definition updated (content : string) (s : sender)
    (l : list (sender * string)) : list (sender * string) :=
  match last l with
  | Some (s', _) =>
      if sender_eqb s' s then removelast l ++ [(s, content)]
      else l ++ [(s, content)]
  | None => [(s, content)]
  end.

(** The host operations of a connect attempt that runs to the end, in
    the order they are started. *)
Definition handshake (pc : nat) (token : value) (sdp answer : string)
  : list host_call :=
  [ FetchSession session_request;
    NewPeerConnection pc;
    GetUserMedia;
    CreateOffer pc;
    SetLocalDescription pc sdp;
    FetchRealtime ("Bearer " +:+ js_to_string token) sdp;
    SetRemoteDescription pc answer ].

(** The instance holds the objects of a session. *)
Definition holds_transport (d : RealtimeDemo) : Prop :=
  is_Some (peerConnection d) ∧ is_Some (dataChannel d) ∧
  is_Some (audioElement d) ∧ is_Some (mediaStream d).

(** The connection flag and the references it stands for. *)
Definition transport_view (st : State) :=
  (isConnected (demo st), peerConnection (demo st), dataChannel (demo st),
   audioElement (demo st), mediaStream (demo st)).

(** The placeholder of a user turn. *)
Definition placeholder_shown (text : string) (l : list (sender * string))
    (st : State) : Prop :=
  chatUI st = mkChat (l ++ [(user, text)]) (Some (length l)).

(** The caption of the microphone button for a value of [isTalking]. *)
Definition mic_caption (talking : bool) : string :=
  if talking then "Mute Mic" else "Unmute Mic".

(** The frames that the two demos route alike. *)
Definition is_response_done (ev : value) : bool :=
  match js_get ev "type" with
  | inr ty => str_eq ty "response.done"
  | inl _ => false
  end.

(** The bodies written to the response. *)
Definition bodies_sent (calls : list Relay.res_call) : list value :=
  omap (fun c =>
          match c with
          | Relay.res_status _ => None
          | Relay.res_json v | Relay.res_send v => Some v
          end) calls.

(** The request asks for a session with a model and a voice. *)
Definition names_model_and_voice (req_body : value) : bool :=
  match js_get req_body "model", js_get req_body "voice" with
  | inr model, inr voice => truthy model && truthy voice
  | _, _ => false
  end.

(** The three frames of a user turn. *)
Definition speech_started_frame : string :=
  "{" +:+ quoted "type" +:+ ":" +:+ quoted "input_audio_buffer.speech_started"
  +:+ "}".

Definition committed_frame : string :=
  "{" +:+ quoted "type" +:+ ":" +:+ quoted "input_audio_buffer.committed"
  +:+ "}".

Definition completed_frame : string :=
  "{" +:+ quoted "type" +:+ ":"
  +:+ quoted "conversation.item.input_audio_transcription.completed" +:+ ","
  +:+ quoted "transcript" +:+ ":" +:+ quoted "How warm is it in Paris?" +:+ "}".

(** A [response.done] frame whose output holds a function call whose
    [arguments] break off, followed by a text message. *)
Definition broken_call_and_text : string :=
  "{" +:+ quoted "type" +:+ ":" +:+ quoted "response.done" +:+ ","
  +:+ quoted "response" +:+ ":{" +:+ quoted "output" +:+ ":[{"
  +:+ quoted "type" +:+ ":" +:+ quoted "function_call" +:+ ","
  +:+ quoted "name" +:+ ":" +:+ quoted "getWeatherData" +:+ ","
  +:+ quoted "arguments" +:+ ":" +:+ quoted "{" +:+ "},{"
  +:+ quoted "type" +:+ ":" +:+ quoted "message" +:+ ","
  +:+ quoted "content" +:+ ":[{" +:+ quoted "type" +:+ ":" +:+ quoted "text"
  +:+ "," +:+ quoted "text" +:+ ":" +:+ quoted "Let me check." +:+ "}]}]}}".

(** A connect attempt in which every step succeeds, the credential
    response being [{client_secret: {}}]. *)
Definition secret_without_value : ConnectOutcomes :=
  mkConnect
    (inr (mkResponse true 200 "OK"
            ("{" +:+ quoted "client_secret" +:+ ":{}}")))
    (inr 1) true (inr "v=0 (offer)")
    (inr tt) (inr (mkResponse true 201 "Created" "v=0 (answer)")) (inr tt).

(* ================================================================== *)
(** * Reasoning about computations *)
(* ================================================================== *)

(** Rules for showing that a method respects a preorder on states,
    one per construct of the monad. *)
Section Respects.
Context (R : relation State) `{!PreOrder R}.

Lemma respects_ret {A} (a : A) : respects R (mret a).
Proof. intros st. reflexivity. Qed.

Lemma respects_throw {A} (e : error) : respects R (@throw A e).
Proof. intros st. reflexivity. Qed.

Lemma respects_bind {A B} (m : M A) (k : A → M B) :
  respects R m → (∀ a, respects R (k a)) → respects R (m ≫= k).
Proof.
  intros Hm Hk st. unfold mbind, M_bind.
  specialize (Hm st). destruct (m st) as [[e|a] st']; simpl in *; [done|].
  etrans; [exact Hm|apply Hk].
Qed.

Lemma respects_try_catch {A} (m : M A) (h : error → M A) :
  respects R m → (∀ e, respects R (h e)) → respects R (try_catch m h).
Proof.
  intros Hm Hh st. unfold try_catch.
  specialize (Hm st). destruct (m st) as [[e|a] st']; simpl in *; [|done].
  etrans; [exact Hm|apply Hh].
Qed.

Lemma respects_get_state : respects R get_state.
Proof. intros st. reflexivity. Qed.

Lemma respects_modify (f : State → State) :
  (∀ st, R st (f st)) → respects R (modify f).
Proof. intros H st. apply H. Qed.

Lemma respects_lift {A} (r : error + A) : respects R (lift r).
Proof. destruct r; [apply respects_throw|apply respects_ret]. Qed.

Lemma respects_await {A} (r : error + A) : respects R (await r).
Proof. apply respects_lift. Qed.

Lemma respects_when (b : bool) (m : M unit) :
  respects R m → respects R (when b m).
Proof. destruct b; [done|intros _; apply respects_ret]. Qed.

Lemma respects_for_of {A} (xs : list A) (body : A → M unit) :
  (∀ x, respects R (body x)) → respects R (for_of xs body).
Proof.
  intros H. induction xs as [|x xs IH]; simpl.
  - apply respects_ret.
  - apply respects_bind; [apply H|intros _; exact IH].
Qed.

Lemma respects_if_set {A} (ref : option A) (action : A → M unit) :
  (∀ x, respects R (action x)) → respects R (if_set ref action).
Proof. destruct ref; simpl; [auto|intros _; apply respects_ret]. Qed.
End Respects.

(** Agreement on an observation is a preorder. *)
Global Instance same_preorder {X} (f : State → X) : PreOrder (same f).
Proof. split; unfold same; [intros ?; done|intros ??? H1 H2; congruence]. Qed.

(** Two frames differ: their [type] texts part at the tenth character,
    or else the texts are closed and are compared in full. *)
Ltac frames_differ :=
  let H := fresh in
  intros H;
  first
    [ apply (f_equal (String.get 9)) in H; vm_compute in H; discriminate H
    | vm_compute in H; discriminate H ].

Create HintDb frames discriminated.

(** [frame] walks through a method body with the rules above, leaving
    the state updates whose effect on the relation is not immediate.
    Facts about single operations are taken from the [frames] hints. *)
Ltac head_of t :=
  lazymatch t with
  | ?f _ => head_of f
  | _ => t
  end.

Ltac frame_step :=
  lazymatch goal with
  | |- respects _ (mret _) => apply respects_ret; try tc_solve
  | |- respects _ (throw _) => apply respects_throw; try tc_solve
  | |- respects _ (mbind _ _) => apply respects_bind; [tc_solve| |intros ?]
  | |- respects _ (try_catch _ _) => apply respects_try_catch; [tc_solve| |intros ?]
  | |- respects _ get_state => apply respects_get_state; tc_solve
  | |- respects _ (modify _) => apply respects_modify; intros ?
  | |- respects _ (lift _) => apply respects_lift; tc_solve
  | |- respects _ (await _) => apply respects_await; tc_solve
  | |- respects _ (when _ _) => apply respects_when; [tc_solve|]
  | |- respects _ (for_of _ _) => apply respects_for_of; [tc_solve|intros ?]
  | |- respects _ (if_set _ _) => apply respects_if_set; [tc_solve|intros ?]
  | |- respects _ (match ?x with _ => _ end) => destruct x
  | |- respects _ (let x := _ in _) => cbv zeta
  | |- respects _ ?m =>
      first [ solve [auto 1 with frames] | let h := head_of m in unfold h ]
  end.

Ltac frame := repeat frame_step.


(* ================================================================== *)
(** * Malformed frames (C2) *)
(* ================================================================== *)

(** C2, as amended: when the payload of an inbound frame is not
    well-formed JSON, [onmessage] throws the [SyntaxError] of
    [JSON.parse] before it does anything else: no part of the state
    changes, and the handler itself logs nothing. *)
Theorem malformed_frame_throws (data : string) (st : State) :
  JSON_parse data = None →
  Demo5.onmessage data st = (inl (SyntaxError "Unexpected token in JSON"), st).
Proof.
  intros Hparse.
  unfold Demo5.onmessage, Demo5.parse_json.
  rewrite Hparse. reflexivity.
Qed.

Lemma malformed_frame_throws_witness :
  JSON_parse "{" = None ∧
  Demo5.onmessage "{" (Demo5.constructor page0)
  = (inl (SyntaxError "Unexpected token in JSON"), Demo5.constructor page0).
Proof.
  split; [reflexivity|].
  apply (malformed_frame_throws "{" (Demo5.constructor page0)).
  reflexivity.
Defined.

(** C2 as stated fails: on the malformed payload [{] the handler does
    throw. *)
Lemma malformed_frame_not_dropped :
  ¬ (∀ data st, JSON_parse data = None →
       fst (Demo5.onmessage data st) = inr tt).
Proof.
  intros H.
  specialize (H "{" (Demo5.constructor page0) eq_refl).
  vm_compute in H. discriminate H.
Qed.

(* ================================================================== *)
(** * Running a computation step by step *)
(* ================================================================== *)

Lemma run_bind {A B} (m : M A) (k : A → M B) (st : State) :
  (m ≫= k) st
  = match m st with
    | (inr a, st') => k a st'
    | (inl e, st') => (inl e, st')
    end.
Proof. reflexivity. Qed.

Lemma run_ret {A} (a : A) (st : State) : (mret a : M A) st = (inr a, st).
Proof. reflexivity. Qed.

Lemma run_modify (f : State → State) (st : State) :
  modify f st = (inr tt, f st).
Proof. reflexivity. Qed.

Lemma run_try_catch {A} (m : M A) (h : error → M A) (st : State) :
  try_catch m h st
  = match m st with
    | (inr a, st') => (inr a, st')
    | (inl e, st') => h e st'
    end.
Proof. reflexivity. Qed.

Lemma type_is_eval (v ty : value) (lit : string) (st : State) :
  js_get v "type" = inr ty →
  Demo5.type_is v lit st = (inr (str_eq ty lit), st).
Proof.
  intros H. unfold Demo5.type_is. rewrite run_bind, H. reflexivity.
Qed.

(* ================================================================== *)
(** * Frames of an unlisted type (C5) *)
(* ================================================================== *)

(** C5: a frame that parses to a value whose [type] is none of the
    seven types of the routing table is ignored: [onmessage] returns
    normally and the only trace it leaves is the "Received event:" line
    on the console. *)
Theorem unrecognized_type_ignored
  (data : string) (ev ty : value) (st : State) :
  JSON_parse data = Some ev →
  js_get ev "type" = inr ty →
  recognized ty = false →
  Demo5.onmessage data st
  = (inr tt, add_console (console_log "Received event:" [ArgValue ev]) st).
Proof.
  intros Hparse Hty Hrec.
  unfold recognized, recognized_types in Hrec. simpl in Hrec.
  repeat (apply orb_false_elim in Hrec as [? Hrec]).
  unfold Demo5.onmessage, Demo5.parse_json. rewrite Hparse.
  rewrite run_bind, run_ret.
  rewrite run_bind. unfold log at 1. rewrite run_modify.
  repeat (rewrite run_bind, (type_is_eval _ ty) by done;
          match goal with
          | H : str_eq ty _ = false |- _ => rewrite H; clear H
          end).
  reflexivity.
Qed.

Lemma unrecognized_type_ignored_witness :
  let ev := VObj [("type", VStr "session.created")] in
  JSON_parse session_created_frame = Some ev ∧
  recognized (VStr "session.created") = false ∧
  Demo5.onmessage session_created_frame (Demo5.constructor page0)
  = (inr tt,
     add_console (console_log "Received event:" [ArgValue ev])
       (Demo5.constructor page0)).
Proof.
  split; [reflexivity|]. split; [reflexivity|].
  apply (unrecognized_type_ignored session_created_frame
           (VObj [("type", VStr "session.created")]) (VStr "session.created"));
    reflexivity.
Defined.

(* ================================================================== *)
(** * Failure of the credential fetch (C3) *)
(* ================================================================== *)

Lemma getEphemeralKey_run (fetched : error + Response) (st : State) :
  getEphemeralKey fetched st
  = match session_key fetched with
    | inr token => (inr token, add_host_call (FetchSession session_request) st)
    | inl e =>
        (inl e,
         add_console (console_error "Error getting session key:" [ArgError e])
           (add_host_call (FetchSession session_request) st))
    end.
Proof.
  unfold getEphemeralKey, session_key.
  rewrite run_try_catch, run_bind. unfold host at 1. rewrite run_modify.
  destruct fetched as [e|response]; [reflexivity|].
  rewrite run_bind. cbn [await lift]. rewrite run_ret.
  unfold response_json.
  destruct (ok response); cbn [negb];
    destruct (JSON_parse (body response)) as [v|]; try reflexivity.
  - rewrite run_bind, run_ret, run_bind.
    destruct (js_get v "client_secret") as [e|cs]; [reflexivity|].
    cbn [lift]. rewrite run_ret.
    destruct (js_get cs "value"); reflexivity.
  - rewrite run_bind, run_ret, run_bind.
    destruct (js_get v "message") as [e|m]; reflexivity.
Qed.

Lemma throws_session_key fetched e :
  throws (getEphemeralKey fetched) e ↔ session_key fetched = inl e.
Proof.
  unfold throws. split.
  - intros H. specialize (H (Demo5.constructor page0)).
    rewrite getEphemeralKey_run in H.
    destruct (session_key fetched); simpl in H; congruence.
  - intros H st. rewrite getEphemeralKey_run, H. reflexivity.
Qed.


Lemma toggleSession_credential_failure
  (o : ConnectOutcomes) (e : error) (st : State) :
  isConnected (demo st) = false →
  session_key (session_response o) = inl e →
  Demo5.toggleSession o st
  = (inr tt,
     add_console (console_error "Connection error:" [ArgError e])
       (set_page (fun p =>
            mkPage ("Connection failed: " +:+ e_message e)
              (micButton_disabled p) (micButton_textContent p)
              (connectionButton_textContent p))
          (add_console
             (console_error "Error getting session key:" [ArgError e])
             (add_host_call (FetchSession session_request)
                (set_page (fun p =>
                     mkPage "Connecting..." (micButton_disabled p)
                       (micButton_textContent p)
                       (connectionButton_textContent p)) st))))).
Proof.
  intros Hidle Hfail.
  unfold Demo5.toggleSession.
  rewrite run_bind. unfold get_state at 1. rewrite Hidle. cbn [negb].
  rewrite run_try_catch, run_bind. unfold updateStatus at 1. rewrite run_modify.
  rewrite run_bind, getEphemeralKey_run, Hfail.
  reflexivity.
Qed.

(** C3: when the credential fetch fails, [toggleSession] reports the
    failure and stops there: the only call made to the host is the
    session request, so [getUserMedia] is not attempted, no transport,
    channel or track comes into being and the instance is unchanged. *)
Theorem credential_failure_skips_media
  (o : ConnectOutcomes) (e : error) (st : State) :
  isConnected (demo st) = false →
  throws (getEphemeralKey (session_response o)) e →
  let st' := snd (Demo5.toggleSession o st) in
  fst (Demo5.toggleSession o st) = inr tt ∧
  host_calls st' = host_calls st ++ [FetchSession session_request] ∧
  (GetUserMedia ∉ drop (length (host_calls st)) (host_calls st')) ∧
  tracks st' = tracks st ∧ peers st' = peers st ∧
  channels st' = channels st ∧ demo st' = demo st ∧
  statusDiv_textContent (page st') = "Connection failed: " +:+ e_message e.
Proof.
  intros Hidle Hfail. apply throws_session_key in Hfail.
  cbv zeta. rewrite (toggleSession_credential_failure o e st Hidle Hfail).
  simpl. rewrite drop_app_length.
  repeat split; try done.
  intros Hin. apply list_elem_of_singleton in Hin. discriminate Hin.
Qed.

(** A response that is not [ok] always makes [getEphemeralKey] throw. *)
Lemma non_success_response_throws (response : Response) :
  ok response = false →
  ∃ e, throws (getEphemeralKey (inr response)) e.
Proof.
  intros Hok.
  destruct (session_key (inr response)) as [e|token] eqn:Hkey.
  - exists e. by apply throws_session_key.
  - exfalso. unfold session_key in Hkey. rewrite Hok in Hkey.
    destruct (JSON_parse (body response)) as [v|]; [|discriminate].
    cbn [negb] in Hkey. destruct (js_get v "message"); discriminate.
Qed.

Lemma credential_failure_skips_media_witness :
  let run := Demo5.toggleSession relay_refuses (Demo5.constructor page0) in
  fst run = inr tt ∧
  host_calls (snd run) = [FetchSession session_request] ∧
  tracks (snd run) = [] ∧ peers (snd run) = [] ∧
  statusDiv_textContent (page (snd run))
  = "Connection failed: Failed to get session key".
Proof.
  pose proof (credential_failure_skips_media relay_refuses
                (Error "Failed to get session key")
                (Demo5.constructor page0) eq_refl
                (fun st => eq_refl)) as H.
  cbv zeta in H. destruct H as (H1 & H2 & _ & H3 & H4 & _ & _ & H5).
  repeat split; assumption.
Defined.

(* ================================================================== *)
(** * Closing twice (C7) *)
(* ================================================================== *)

Lemma never_throws_ret {A} (a : A) : never_throws (mret a : M A).
Proof. intros st. by exists a. Qed.

Lemma never_throws_bind {A B} (m : M A) (k : A → M B) :
  never_throws m → (∀ a, never_throws (k a)) → never_throws (m ≫= k).
Proof.
  intros Hm Hk st. rewrite run_bind.
  destruct (Hm st) as [a Ha]. destruct (m st) as [[e|a'] st']; simpl in Ha.
  - discriminate.
  - apply Hk.
Qed.

Lemma never_throws_get_state : never_throws get_state.
Proof. intros st. by exists st. Qed.

Lemma never_throws_modify (f : State → State) : never_throws (modify f).
Proof. intros st. by exists tt. Qed.

Lemma never_throws_when (b : bool) (m : M unit) :
  never_throws m → never_throws (when b m).
Proof. destruct b; [done|intros _; apply never_throws_ret]. Qed.

Lemma never_throws_for_of {A} (xs : list A) (body : A → M unit) :
  (∀ x, never_throws (body x)) → never_throws (for_of xs body).
Proof.
  intros H. induction xs as [|x xs IH]; simpl.
  - apply never_throws_ret.
  - apply never_throws_bind; [apply H|intros _; exact IH].
Qed.

Lemma never_throws_if_set {A} (ref : option A) (action : A → M unit) :
  (∀ x, never_throws (action x)) → never_throws (if_set ref action).
Proof. destruct ref; simpl; [auto|intros _; apply never_throws_ret]. Qed.

Lemma run_seq {B} (m : M unit) (k : M B) (st : State) :
  never_throws m → (m ;; k) st = k (snd (m st)).
Proof.
  intros Hm. rewrite run_bind. destruct (Hm st) as [a Ha].
  destruct (m st) as [[e|[]] st']; simpl in *; [discriminate|done].
Qed.

(** [total] shows that a method made of state updates cannot throw. *)
Ltac total_step :=
  lazymatch goal with
  | |- never_throws (mret _) => apply never_throws_ret
  | |- never_throws (mbind _ _) => apply never_throws_bind; [|intros ?]
  | |- never_throws get_state => apply never_throws_get_state
  | |- never_throws (modify _) => apply never_throws_modify
  | |- never_throws (when _ _) => apply never_throws_when
  | |- never_throws (for_of _ _) => apply never_throws_for_of; intros ?
  | |- never_throws (if_set _ _) => apply never_throws_if_set; intros ?
  | |- never_throws (match ?x with _ => _ end) => destruct x
  | |- never_throws (let x := _ in _) => cbv zeta
  | |- never_throws ?m => let h := head_of m in unfold h
  end.

Ltac total := repeat total_step.

Lemma closeConnection_never_throws : never_throws Demo5.closeConnection.
Proof. total. Qed.

Lemma closeConnection_closes (st : State) :
  fst (Demo5.closeConnection st) = inr tt ∧
  closed_shape (snd (Demo5.closeConnection st)).
Proof.
  split.
  - destruct (closeConnection_never_throws st) as [[] H]. exact H.
  - unfold Demo5.closeConnection.
    rewrite run_bind. unfold get_state at 1. cbv zeta.
    do 6 (rewrite run_seq by total).
    match goal with |- closed_shape (snd (_ ?s)) => generalize s end.
    intros s. split; [|split]; reflexivity.
Qed.

Lemma closeConnection_closed (st : State) :
  closed_shape st → Demo5.closeConnection st = (inr tt, st).
Proof.
  destruct st as [d p c ? ? ? ? ? ? ? ? ? ? ?].
  intros (Hd & Hc & Hp). simpl in *. subst p c. rewrite Hd. reflexivity.
Qed.

Lemma closeConnection1_closes (st : State) :
  fst (Demo1.closeConnection st) = inr tt ∧
  closed_shape1 (snd (Demo1.closeConnection st)).
Proof.
  split.
  - assert (never_throws Demo1.closeConnection) as H by total.
    destruct (H st) as [[] H']. exact H'.
  - unfold Demo1.closeConnection.
    rewrite run_bind. unfold get_state at 1. cbv zeta.
    do 4 (rewrite run_seq by total).
    match goal with |- closed_shape1 (snd (_ ?s)) => generalize s end.
    intros s. split; reflexivity.
Qed.

Lemma closeConnection1_closed (st : State) :
  closed_shape1 st → Demo1.closeConnection st = (inr tt, st).
Proof.
  destruct st as [d p c ? ? ? ? ? ? ? ? ? ? ?].
  intros (Hd & Hp). simpl in *. subst p. rewrite Hd. reflexivity.
Qed.

(** C7: [closeConnection] is idempotent, in the function-calling demo
    and in the basic demo alike.  Both runs return normally and the
    second leaves the state of the first untouched.  The state holds the
    release counters of every track, transport, channel, audio element
    and visualizer, so the second run releases nothing again. *)
Theorem closeConnection_idempotent (st : State) :
  (let once := Demo5.closeConnection st in
   let twice := Demo5.closeConnection (snd once) in
   fst once = inr tt ∧ fst twice = inr tt ∧ snd twice = snd once) ∧
  (let once := Demo1.closeConnection st in
   let twice := Demo1.closeConnection (snd once) in
   fst once = inr tt ∧ fst twice = inr tt ∧ snd twice = snd once).
Proof.
  split; cbv zeta.
  - destruct (closeConnection_closes st) as [Hok Hshape].
    rewrite (closeConnection_closed _ Hshape). auto.
  - destruct (closeConnection1_closes st) as [Hok Hshape].
    rewrite (closeConnection1_closed _ Hshape). auto.
Qed.

(* ================================================================== *)
(** * A tool result with no open channel (C8) *)
(* ================================================================== *)

Lemma sendDataToAPI_not_ready (type data : string) (st : State) :
  (∀ ch, weather_dataChannel st = Some ch → channel_readyState st ch ≠ Open) →
  Weather.sendDataToAPI type data st
  = (inr tt, add_console (console_error "Data channel not ready" []) st).
Proof.
  intros Hclosed. unfold Weather.sendDataToAPI.
  rewrite run_bind. unfold get_state at 1.
  destruct (weather_dataChannel st) as [ch|]; [|reflexivity].
  specialize (Hclosed ch eq_refl).
  destruct (channel_readyState st ch); (contradiction || reflexivity).
Qed.

Global Instance opens_nothing_preorder : PreOrder opens_nothing.
Proof.
  split.
  - intros st ch H. exact H.
  - intros s1 s2 s3 H12 H23 ch H. apply H23, H12, H.
Qed.

Lemma readyState_alter (f : Channel → Channel) (i ch : nat) (l : list Channel) st :
  channels st = alter f i l →
  channel_readyState st ch
  = match l !! ch with
    | Some c => readyState (if decide (i = ch) then f c else c)
    | None => Closed
    end.
Proof.
  intros H. unfold channel_readyState. rewrite H.
  destruct (decide (i = ch)) as [->|Hne].
  - rewrite list_lookup_alter_eq. by destruct (l !! ch).
  - rewrite list_lookup_alter_ne by done. done.
Qed.

Lemma channel_close_not_open (ch ch' : nat) (st : State) :
  channel_readyState st ch' ≠ Open ∨ ch' = ch →
  channel_readyState (snd (channel_close ch st)) ch' ≠ Open.
Proof.
  intros H. unfold channel_close. rewrite run_modify. simpl.
  erewrite readyState_alter by reflexivity.
  unfold channel_readyState in H.
  destruct (channels st !! ch') as [c|]; [|done].
  destruct (decide (ch = ch')) as [->|Hne]; simpl.
  - by destruct (readyState c).
  - destruct H as [H| ->]; done.
Qed.

Lemma mark_closed_fold (chs : list nat) (l : list Channel) (ch : nat) (c : Channel) :
  foldr (alter mark_closed) l chs !! ch = Some c →
  readyState c = Closed ∨ l !! ch = Some c.
Proof.
  revert c. induction chs as [|i chs IH]; simpl; intros c H; [by right|].
  destruct (decide (i = ch)) as [->|Hne].
  - rewrite list_lookup_alter_eq in H.
    destruct (foldr (alter mark_closed) l chs !! ch); simplify_eq/=. by left.
  - rewrite list_lookup_alter_ne in H by done. by apply IH.
Qed.

Lemma peer_close_opens_nothing (pc : nat) : respects opens_nothing (peer_close pc).
Proof.
  intros st ch H. unfold peer_close.
  rewrite run_bind. unfold get_state at 1. cbv zeta.
  rewrite run_bind, run_modify, run_modify. simpl.
  unfold channel_readyState in *. simpl.
  destruct (foldr _ _ _ !! ch) as [c|] eqn:Hc; [|done].
  apply mark_closed_fold in Hc as [Hc|Hc].
  - rewrite Hc. done.
  - rewrite Hc in H. done.
Qed.

Lemma channel_close_opens_nothing (ch : nat) : respects opens_nothing (channel_close ch).
Proof. intros st ch' H. apply channel_close_not_open. by left. Qed.

#[export] Hint Resolve peer_close_opens_nothing channel_close_opens_nothing : frames.

Lemma closeConnection_closes_channel (st : State) (ch : nat) :
  dataChannel (demo st) = Some ch →
  channel_readyState (snd (Demo5.closeConnection st)) ch ≠ Open.
Proof.
  intros Hch. unfold Demo5.closeConnection.
  rewrite run_bind. unfold get_state at 1. cbv zeta. rewrite Hch.
  do 3 (rewrite run_seq by total).
  rewrite run_seq by total.
  match goal with
  | |- channel_readyState (snd (?rest (snd (if_set (Some ch) channel_close ?s)))) ch ≠ Open =>
      assert (respects opens_nothing rest) as Hrest;
      [|apply Hrest; simpl; apply channel_close_not_open; by right]
  end.
  frame; intros ? H; exact H.
Qed.

(** C8: when the channel reference of weatherLookup.js is null or the
    channel it refers to is not open, [sendDataToAPI] returns normally,
    sends nothing and only logs "Data channel not ready".  That is the
    situation after [closeConnection] whenever the module holds the
    channel of the session (as [onopen] arranges) or none. *)
Theorem sendDataToAPI_without_open_channel (type data : string) (st : State) :
  ((∀ ch, weather_dataChannel st = Some ch → channel_readyState st ch ≠ Open) →
   Weather.sendDataToAPI type data st
   = (inr tt, add_console (console_error "Data channel not ready" []) st)) ∧
  ((weather_dataChannel st = None
    ∨ weather_dataChannel st = dataChannel (demo st)) →
   let closed := snd (Demo5.closeConnection st) in
   Weather.sendDataToAPI type data closed
   = (inr tt, add_console (console_error "Data channel not ready" []) closed)).
Proof.
  split; [apply sendDataToAPI_not_ready|].
  intros Hch. cbv zeta. apply sendDataToAPI_not_ready.
  intros ch Hwl.
  assert (weather_dataChannel (snd (Demo5.closeConnection st))
          = weather_dataChannel st) as Hsame.
  { assert (respects (same weather_dataChannel) Demo5.closeConnection) as H
      by (frame; reflexivity).
    apply H. }
  rewrite Hsame in Hwl.
  destruct Hch as [Hnone|Hdemo]; [congruence|].
  apply closeConnection_closes_channel. congruence.
Qed.

Lemma sendDataToAPI_without_open_channel_witness :
  let st := Demo5.constructor page0 in
  let closed := snd (Demo5.closeConnection st) in
  weather_dataChannel st = None ∧
  Weather.sendDataToAPI "weather" "{}" st
  = (inr tt, add_console (console_error "Data channel not ready" []) st) ∧
  Weather.sendDataToAPI "weather" "{}" closed
  = (inr tt, add_console (console_error "Data channel not ready" []) closed).
Proof.
  destruct (sendDataToAPI_without_open_channel "weather" "{}"
              (Demo5.constructor page0)) as [Hnow Hlater].
  split; [reflexivity|]. split.
  - apply Hnow. intros ch Hch. discriminate Hch.
  - apply Hlater. left. reflexivity.
Defined.

(* ================================================================== *)
(** * The greeting latch (C4, C9) *)
(* ================================================================== *)

Lemma run_get_state (st : State) : get_state st = (inr st, st).
Proof. reflexivity. Qed.

Lemma dataChannel_send_open (frame : string) (st : State) (ch : nat) :
  dataChannel (demo st) = Some ch →
  channel_readyState st ch = Open →
  dataChannel_send frame st = (inr tt, add_outbox ch frame st).
Proof.
  intros Hch Hopen. unfold dataChannel_send.
  rewrite run_bind. rewrite run_get_state. rewrite Hch.
  unfold channel_send. rewrite run_bind. rewrite run_get_state.
  rewrite Hopen. reflexivity.
Qed.

Lemma dataChannel_send_cases (frame : string) (st : State) :
  (∃ ch, dataChannel_send frame st = (inr tt, add_outbox ch frame st)) ∨
  (∃ e, dataChannel_send frame st = (inl e, st)).
Proof.
  unfold dataChannel_send. rewrite run_bind. rewrite run_get_state.
  destruct (dataChannel (demo st)) as [ch|]; [|right; eexists; reflexivity].
  unfold channel_send. rewrite run_bind. rewrite run_get_state.
  destruct (is_open (channel_readyState st ch)); [left|right]; eexists; reflexivity.
Qed.

Lemma times_sent_add (w : string) (ch : nat) (frame : string) (st : State) :
  times_sent w (add_outbox ch frame st)
  = times_sent w st + (if decide (frame = w) then 1 else 0).
Proof.
  unfold times_sent. simpl. rewrite filter_app, length_app. f_equal.
  rewrite filter_cons. simpl. destruct (decide (frame = w)); reflexivity.
Qed.

Lemma onopen_first_run (st : State) (ch : nat) :
  hasWelcomed (demo st) = false →
  dataChannel (demo st) = Some ch →
  channel_readyState st ch = Open →
  ∃ st', Demo5.onopen st = (inr tt, st') ∧
    outbox st' = outbox st ++ [(ch, JSON_stringify Demo5.welcomeEvent);
                               (ch, JSON_stringify Demo5.setIntructions)] ∧
    hasWelcomed (demo st') = true.
Proof.
  intros Hlatch Hch Hopen. eexists. split.
  - unfold Demo5.onopen.
    rewrite run_bind. unfold log at 1. rewrite run_modify.
    rewrite run_bind. unfold updateStatus at 1. rewrite run_modify.
    rewrite run_bind, run_get_state.
    rewrite run_bind. unfold Weather.setDataChannel at 1. rewrite run_modify.
    simpl demo. rewrite Hlatch. cbn [negb when].
    rewrite run_bind, run_bind. unfold log at 1. rewrite run_modify.
    rewrite run_bind.
    rewrite (dataChannel_send_open _ _ ch) by done.
    unfold assign_hasWelcomed. rewrite run_modify.
    rewrite (dataChannel_send_open _ _ ch) by (simpl; done).
    reflexivity.
  - simpl. rewrite <- app_assoc. done.
Qed.

(** [run H] executes the computation in the equation [H] as far as its
    control flow is known. *)
Ltac run_step H :=
  first
    [ rewrite run_bind in H
    | rewrite run_modify in H
    | rewrite run_get_state in H
    | rewrite run_ret in H
    | rewrite run_try_catch in H
    | progress unfold log, log_error, host, updateStatus,
        assign_peerConnection, assign_mediaStream, assign_isConnected,
        assign_dataChannel, assign_hasWelcomed, assign_audioElement,
        assign_isTalking, assign_micVisualizer, assign_aiVisualizer,
        assign_micButton_disabled, assign_micButton_textContent,
        assign_connectionButton_textContent, Weather.setDataChannel in H
    | progress cbn beta iota in H ].

Ltac run H := repeat run_step H.

Lemma onopen_latched (st : State) :
  hasWelcomed (demo st) = true →
  latch_view (snd (Demo5.onopen st)) = latch_view st.
Proof.
  intros Hlatch.
  destruct (Demo5.onopen st) as [r st'] eqn:Hrun. cbn [snd].
  unfold Demo5.onopen in Hrun. run Hrun.
  simpl demo in Hrun. rewrite Hlatch in Hrun. cbn [negb when] in Hrun.
  run Hrun.
  match type of Hrun with context [dataChannel_send ?f ?s] =>
    destruct (dataChannel_send_cases f s) as [[ch Hs]|[e Hs]];
    rewrite Hs in Hrun end;
    injection Hrun as _ <-.
  - unfold latch_view, greetings. rewrite times_sent_add.
    rewrite decide_False by frames_differ.
    simpl. rewrite Nat.add_0_r. reflexivity.
  - reflexivity.
Qed.

Lemma onopen_unlatched (st : State) :
  hasWelcomed (demo st) = false →
  latch_view (snd (Demo5.onopen st)) = latch_view st ∨
  latch_view (snd (Demo5.onopen st)) = (S (greetings st), true).
Proof.
  intros Hlatch.
  destruct (Demo5.onopen st) as [r st'] eqn:Hrun. cbn [snd].
  unfold Demo5.onopen in Hrun. run Hrun.
  simpl demo in Hrun. rewrite Hlatch in Hrun. cbn [negb when] in Hrun.
  run Hrun.
  match type of Hrun with context [dataChannel_send ?f ?s] =>
    destruct (dataChannel_send_cases f s) as [[ch Hs]|[e Hs]];
    rewrite Hs in Hrun end.
  - right. run Hrun.
    match type of Hrun with context [dataChannel_send ?f ?s] =>
      destruct (dataChannel_send_cases f s) as [[ch' Hs']|[e Hs']];
      rewrite Hs' in Hrun end;
      injection Hrun as _ <-.
    + unfold latch_view, greetings. rewrite times_sent_add.
      change (times_sent ?w (set_demo ?f (add_outbox ?c ?fr ?s)))
        with (times_sent w (add_outbox c fr s)).
      rewrite times_sent_add.
      rewrite (decide_False (P := JSON_stringify Demo5.setIntructions = _))
        by frames_differ.
      rewrite decide_True by reflexivity.
      simpl. f_equal. unfold times_sent. simpl. lia.
    + unfold latch_view, greetings.
      change (times_sent ?w (set_demo ?f (add_outbox ?c ?fr ?s)))
        with (times_sent w (add_outbox c fr s)).
      rewrite times_sent_add.
      rewrite decide_True by reflexivity.
      simpl. f_equal. unfold times_sent. simpl. lia.
  - left. injection Hrun as _ <-.
    unfold latch_view, greetings, times_sent. simpl. rewrite Hlatch. done.
Qed.

Lemma channel_send_other (ch : nat) (frame : string) :
  frame ≠ JSON_stringify Demo5.welcomeEvent →
  respects (same latch_view) (channel_send ch frame).
Proof.
  intros Hne st. unfold same, channel_send.
  rewrite run_bind, run_get_state.
  destruct (is_open (channel_readyState st ch)); [|reflexivity].
  rewrite run_modify. cbn [snd]. unfold latch_view, greetings.
  rewrite times_sent_add, decide_False by done.
  simpl. rewrite Nat.add_0_r. reflexivity.
Qed.

(** A frame that differs from the greeting in its text. *)
Ltac other_frame :=
  apply channel_send_other;
  repeat match goal with
         | |- context [if ?b then _ else _] => destruct b
         end;
  frames_differ.

#[export] Hint Extern 1 (respects (same latch_view) (channel_send _ _)) =>
  other_frame : frames.

Lemma toggleSession_latch o : respects (same latch_view) (Demo5.toggleSession o).
Proof. frame; reflexivity. Qed.

Lemma onmessage_latch d : respects (same latch_view) (Demo5.onmessage d).
Proof. frame; reflexivity. Qed.

Lemma closeConnection_latch : respects (same latch_view) Demo5.closeConnection.
Proof. frame; reflexivity. Qed.

Lemma handleChatMessage_latch m : respects (same latch_view) (Demo5.handleChatMessage m).
Proof. frame; reflexivity. Qed.

Lemma getWeatherData_latch a b c o : respects (same latch_view) (Weather.getWeatherData a b c o).
Proof. frame; reflexivity. Qed.


Lemma reopen_latched (n : nat) (st : State) :
  hasWelcomed (demo st) = true →
  latch_view (reopen Demo5.onopen n st) = latch_view st.
Proof.
  intros Hlatch. induction n as [|n IH]; [reflexivity|].
  unfold reopen in *. simpl.
  rewrite onopen_latched; [exact IH|].
  apply (f_equal snd) in IH. simpl in IH. congruence.
Qed.

Section Transcripts.
Variables W D T X : value.

Lemma onopen4_first_run (st : State) (ch : nat) :
  hasWelcomed (demo st) = false →
  dataChannel (demo st) = Some ch →
  channel_readyState st ch = Open →
  ∃ st', Demo4.onopen W D T X st = (inr tt, st') ∧
    outbox st' = outbox st ++ [(ch, JSON_stringify (Demo4.welcomeEvent W X));
                               (ch, JSON_stringify (Demo4.setIntructions D T X))] ∧
    hasWelcomed (demo st') = true.
Proof.
  intros Hlatch Hch Hopen. eexists. split.
  - unfold Demo4.onopen.
    rewrite run_bind. unfold log at 1. rewrite run_modify.
    rewrite run_bind. unfold updateStatus at 1. rewrite run_modify.
    rewrite run_bind, run_get_state.
    simpl demo. rewrite Hlatch. cbn [negb when].
    rewrite run_bind, run_bind. unfold log at 1. rewrite run_modify.
    rewrite run_bind.
    rewrite (dataChannel_send_open _ _ ch) by done.
    unfold assign_hasWelcomed. rewrite run_modify.
    rewrite (dataChannel_send_open _ _ ch) by (simpl; done).
    reflexivity.
  - simpl. rewrite <- app_assoc. done.
Qed.

Lemma onopen4_latched (st : State) :
  hasWelcomed (demo st) = true →
  times_sent (JSON_stringify (Demo4.welcomeEvent W X)) (snd (Demo4.onopen W D T X st))
  = times_sent (JSON_stringify (Demo4.welcomeEvent W X)) st ∧
  hasWelcomed (demo (snd (Demo4.onopen W D T X st))) = true.
Proof.
  intros Hlatch.
  destruct (Demo4.onopen W D T X st) as [r st'] eqn:Hrun. cbn [snd].
  unfold Demo4.onopen in Hrun. run Hrun.
  simpl demo in Hrun. rewrite Hlatch in Hrun. cbn [negb when] in Hrun.
  run Hrun.
  match type of Hrun with context [dataChannel_send ?f ?s] =>
    destruct (dataChannel_send_cases f s) as [[ch Hs]|[e Hs]];
    rewrite Hs in Hrun end;
    injection Hrun as _ <-.
  - rewrite times_sent_add.
    rewrite decide_False by frames_differ.
    simpl. rewrite Nat.add_0_r. split; [reflexivity|exact Hlatch].
  - split; [reflexivity|exact Hlatch].
Qed.

Lemma reopen4_latched (n : nat) (st : State) :
  hasWelcomed (demo st) = true →
  times_sent (JSON_stringify (Demo4.welcomeEvent W X)) (reopen (Demo4.onopen W D T X) n st)
  = times_sent (JSON_stringify (Demo4.welcomeEvent W X)) st ∧
  hasWelcomed (demo (reopen (Demo4.onopen W D T X) n st)) = true.
Proof.
  intros Hlatch. induction n as [|n [IHs IHl]]; [by split|].
  unfold reopen in *. simpl.
  destruct (onopen4_latched _ IHl) as [Hs Hl]. split; congruence.
Qed.
End Transcripts.

(** C4: the greeting goes out exactly once.  On an [open] event that
    finds the latch unset and the channel of the session open, the
    handler sends the greeting followed by the session configuration
    and sets the latch; from then on, however often the [open] event is
    delivered again, the number of greetings sent stays the same.  With
    the latch set the handler never sends a greeting.  The first and
    third parts are the handlers of the function-calling demo and of
    the transcripts demo (for every configuration). *)
Theorem greeting_sent_once :
  (∀ st ch n,
     hasWelcomed (demo st) = false →
     dataChannel (demo st) = Some ch →
     channel_readyState st ch = Open →
     let opened := snd (Demo5.onopen st) in
     fst (Demo5.onopen st) = inr tt ∧
     outbox opened
     = outbox st ++ [(ch, JSON_stringify Demo5.welcomeEvent);
                     (ch, JSON_stringify Demo5.setIntructions)] ∧
     greetings opened = S (greetings st) ∧
     greetings (reopen Demo5.onopen n opened) = S (greetings st)) ∧
  (∀ st,
     hasWelcomed (demo st) = true →
     greetings (snd (Demo5.onopen st)) = greetings st ∧
     hasWelcomed (demo (snd (Demo5.onopen st))) = true) ∧
  (∀ W D T X st ch n,
     hasWelcomed (demo st) = false →
     dataChannel (demo st) = Some ch →
     channel_readyState st ch = Open →
     let greeting := JSON_stringify (Demo4.welcomeEvent W X) in
     let opened := snd (Demo4.onopen W D T X st) in
     fst (Demo4.onopen W D T X st) = inr tt ∧
     outbox opened
     = outbox st ++ [(ch, greeting);
                     (ch, JSON_stringify (Demo4.setIntructions D T X))] ∧
     times_sent greeting (reopen (Demo4.onopen W D T X) n opened)
     = S (times_sent greeting st)).
Proof.
  split; [|split].
  - intros st ch n Hlatch Hch Hopen. cbv zeta.
    destruct (onopen_first_run st ch Hlatch Hch Hopen) as (st' & -> & Hout & Hl).
    cbn [fst snd].
    assert (greetings st' = S (greetings st)) as Hg.
    { unfold greetings, times_sent. rewrite Hout, filter_app, length_app.
      rewrite filter_cons, decide_True by reflexivity.
      rewrite filter_cons, decide_False
        by frames_differ.
      simpl. lia. }
    repeat split; try done.
    pose proof (reopen_latched n st' Hl) as Hre.
    apply (f_equal fst) in Hre. simpl in Hre. congruence.
  - intros st Hlatch. pose proof (onopen_latched st Hlatch) as H.
    unfold latch_view in H. injection H as Hg Hl. split; congruence.
  - intros W D T X st ch n Hlatch Hch Hopen. cbv zeta.
    destruct (onopen4_first_run W D T X st ch Hlatch Hch Hopen)
      as (st' & -> & Hout & Hl).
    cbn [fst snd]. repeat split; try done.
    destruct (reopen4_latched W D T X n st' Hl) as [-> _].
    unfold times_sent. rewrite Hout, filter_app, length_app.
    rewrite filter_cons, decide_True by reflexivity.
    rewrite filter_cons, decide_False
      by frames_differ.
    simpl. lia.
Qed.

Lemma greeting_sent_once_witness :
  greetings (reopen Demo5.onopen 3 (snd (Demo5.onopen channel_just_open))) = 1 ∧
  greetings (snd (Demo5.onopen greeted)) = 1 ∧
  times_sent (JSON_stringify (Demo4.welcomeEvent (VStr "Greet the user") (VNum "200")))
    (reopen (Demo4.onopen (VStr "Greet the user") (VStr "Be concise")
               (VObj [("type", VStr "server_vad")]) (VNum "200")) 3
       (snd (Demo4.onopen (VStr "Greet the user") (VStr "Be concise")
               (VObj [("type", VStr "server_vad")]) (VNum "200")
               channel_just_open))) = 1.
Proof.
  destruct greeting_sent_once as (Hfirst & Hagain & Hfirst4).
  split; [|split].
  - destruct (Hfirst channel_just_open 0 3) as (_ & _ & _ & H);
      [reflexivity..|exact H].
  - destruct (Hagain greeted) as [H _]; [reflexivity|exact H].
  - destruct (Hfirst4 (VStr "Greet the user") (VStr "Be concise")
                (VObj [("type", VStr "server_vad")]) (VNum "200")
                channel_just_open 0 3) as (_ & _ & H);
      [reflexivity..|exact H].
Defined.

Lemma handle_latch (e : Events.event) :
  match e with
  | Events.ChannelOpens _ => True
  | _ => respects (same latch_view) (Events.handle e)
  end.
Proof.
  destruct e; try exact I; simpl.
  - apply toggleSession_latch.
  - frame; reflexivity.
  - frame; reflexivity.
  - apply onmessage_latch.
  - frame; reflexivity.
  - frame; reflexivity.
  - apply getWeatherData_latch.
  - frame; reflexivity.
  - frame; reflexivity.
  - frame; reflexivity.
Qed.

Lemma channel_opens_latch (ch : nat) (st : State) :
  latch_view (snd (Demo5.channel_opens ch st)) = latch_view st ∨
  (hasWelcomed (demo st) = false ∧
   latch_view (snd (Demo5.channel_opens ch st)) = (S (greetings st), true)).
Proof.
  unfold Demo5.channel_opens. rewrite run_bind, run_modify.
  match goal with |- context [Demo5.onopen ?s] => set (s1 := s) end.
  assert (latch_view s1 = latch_view st) as Hview by reflexivity.
  assert (greetings s1 = greetings st) as Hg by reflexivity.
  assert (hasWelcomed (demo s1) = hasWelcomed (demo st)) as Hl by reflexivity.
  clearbody s1.
  destruct (hasWelcomed (demo st)) eqn:Hlatch.
  - left. rewrite onopen_latched; done.
  - destruct (onopen_unlatched s1 Hl) as [H|H].
    + left. congruence.
    + right. split; [done|]. rewrite H, Hg. done.
Qed.

Lemma step_latch_consistent (st : State) (e : Events.event) :
  latch_consistent st → latch_consistent (Events.step st e).
Proof.
  unfold latch_consistent, Events.step. intros Hinv.
  destruct e as [o| |ch| |d|m|v b|a b c o|g|r|r];
    try (match goal with
         | |- context [Events.handle ?e] =>
             pose proof (handle_latch e) as H; cbn [Events.handle] in H; specialize (H st)
         end;
         cbn [Events.handle];
         unfold same, latch_view in H;
         pose proof (f_equal fst H) as Hg; pose proof (f_equal snd H) as Hw;
         cbn [fst snd] in Hg, Hw; rewrite Hg, Hw; exact Hinv).
  simpl. destruct (channel_opens_latch ch st) as [H|[Hl H]];
    unfold latch_view in H; injection H as -> ->; [exact Hinv|].
  rewrite Hl in Hinv. rewrite Hinv. reflexivity.
Qed.

Lemma run_latch_consistent (es : list Events.event) (st : State) :
  latch_consistent st → latch_consistent (Events.run es st).
Proof.
  revert st. induction es as [|e es IH]; intros st Hinv; [exact Hinv|].
  simpl. apply IH, step_latch_consistent, Hinv.
Qed.

(** C9: [closeConnection] leaves the [hasWelcomed] latch as it is.
    Hence, once the greeting is out, closing the session, connecting
    again with the same object and receiving the [open] event of the
    new channel sends no second greeting; and over the whole life of an
    object, whatever events are delivered to it, at most one greeting is
    ever sent. *)
Theorem greeting_once_per_object :
  (∀ st, hasWelcomed (demo (snd (Demo5.closeConnection st)))
         = hasWelcomed (demo st)) ∧
  (∀ st o ch,
     hasWelcomed (demo st) = true →
     let closed := snd (Demo5.closeConnection st) in
     let reconnected := snd (Demo5.toggleSession o closed) in
     let reopened := snd (Demo5.channel_opens ch reconnected) in
     greetings reopened = greetings st ∧
     hasWelcomed (demo reopened) = true) ∧
  (∀ es p, (greetings (Events.run es (Demo5.constructor p)) ≤ 1)%nat).
Proof.
  split; [|split].
  - intros st. pose proof (closeConnection_latch st) as H.
    unfold same, latch_view in H. injection H as _ H. exact H.
  - intros st o ch Hlatch. cbv zeta.
    pose proof (closeConnection_latch st) as H1.
    pose proof (toggleSession_latch o (snd (Demo5.closeConnection st))) as H2.
    unfold same in H1, H2. rewrite H1 in H2.
    destruct (channel_opens_latch ch
                (snd (Demo5.toggleSession o (snd (Demo5.closeConnection st)))))
      as [H3|[H3 _]].
    + rewrite H2 in H3. unfold latch_view in H3. injection H3 as -> ->. done.
    + unfold latch_view in H2. injection H2 as _ H2. congruence.
  - intros es p.
    assert (latch_consistent (Events.run es (Demo5.constructor p))) as H
      by (apply run_latch_consistent; reflexivity).
    unfold latch_consistent in H. rewrite H.
    destruct (hasWelcomed _); lia.
Qed.

Lemma greeting_once_per_object_witness :
  let closed := snd (Demo5.closeConnection greeted) in
  let reconnected := snd (Demo5.toggleSession all_succeed closed) in
  let reopened := snd (Demo5.channel_opens 1 reconnected) in
  hasWelcomed (demo greeted) = true ∧
  isConnected (demo reconnected) = true ∧
  dataChannel (demo reconnected) = Some 1 ∧
  greetings reopened = 1.
Proof.
  destruct greeting_once_per_object as (_ & Hagain & _).
  destruct (Hagain greeted all_succeed 1 eq_refl) as [H _].
  split; [reflexivity|]. split; [reflexivity|]. split; [reflexivity|].
  exact H.
Defined.

(** In that scenario the new channel carries the session configuration
    and nothing else. *)
Example reconnect_sends_configuration_only :
  let closed := snd (Demo5.closeConnection greeted) in
  let reconnected := snd (Demo5.toggleSession all_succeed closed) in
  let reopened := snd (Demo5.channel_opens 1 reconnected) in
  outbox reopened
  = outbox greeted ++ [(1, JSON_stringify Demo5.setIntructions)].
Proof. vm_compute. reflexivity. Qed.

(* ================================================================== *)
(** * Coordinates of a named location (C10) *)
(* ================================================================== *)

(** The length of a non-empty array is not the number zero. *)
Lemma pretty_N_go_nonzero (x : N) (s : string) :
  (0 < x)%N →
  mantissa_nonzero (list_ascii_of_string (pretty_N_go x s)) = true.
Proof.
  revert s. induction (N.lt_wf_0 x) as [x _ IH]. intros s Hpos.
  rewrite pretty_N_go_step by done.
  destruct (decide (x `div` 10 = 0)%N) as [Hsmall|Hbig].
  - rewrite Hsmall, pretty_N_go_0.
    apply N.div_small_iff in Hsmall; [|done].
    rewrite N.mod_small by done.
    assert (x = 1 ∨ x = 2 ∨ x = 3 ∨ x = 4 ∨ x = 5 ∨ x = 6 ∨ x = 7 ∨ x = 8 ∨ x = 9)%N
      as Hx by lia.
    destruct Hx as [->|[->|[->|[->|[->|[->|[->|[->| ->]]]]]]]]; reflexivity.
  - apply IH.
    + apply N.div_lt; lia.
    + apply N.neq_0_lt_0. exact Hbig.
Qed.

Lemma length_not_zero (n : nat) : num_is_zero (pretty (S n)) = false.
Proof.
  unfold num_is_zero, pretty, pretty_nat, pretty, pretty_N.
  rewrite decide_False by lia.
  rewrite pretty_N_go_nonzero by lia. reflexivity.
Qed.

Lemma blind_ret {A} (a : A) : console_blind (mret a : M A).
Proof. intros s s' H. by split. Qed.

Lemma blind_throw {A} (e : error) : console_blind (@throw A e).
Proof. intros s s' H. by split. Qed.

Lemma blind_bind {A B} (m : M A) (k : A → M B) :
  console_blind m → (∀ a, console_blind (k a)) → console_blind (m ≫= k).
Proof.
  intros Hm Hk s s' H. rewrite !run_bind.
  destruct (Hm s s' H) as [Hr Hs].
  destruct (m s) as [[e|a] t], (m s') as [[e'|a'] t']; simpl in *;
    try discriminate; injection Hr as ->.
  - by split.
  - by apply Hk.
Qed.

Lemma blind_try_catch {A} (m : M A) (h : error → M A) :
  console_blind m → (∀ e, console_blind (h e)) → console_blind (try_catch m h).
Proof.
  intros Hm Hh s s' H. rewrite !run_try_catch.
  destruct (Hm s s' H) as [Hr Hs].
  destruct (m s) as [[e|a] t], (m s') as [[e'|a'] t']; simpl in *;
    try discriminate; injection Hr as ->.
  - by apply Hh.
  - by split.
Qed.

Lemma blind_modify (f : State → State) :
  (∀ s s', silent s = silent s' → silent (f s) = silent (f s')) →
  console_blind (modify f).
Proof. intros Hf s s' H. split; [done|]. by apply Hf. Qed.

Lemma blind_lift {A} (r : error + A) : console_blind (lift r).
Proof. destruct r; [apply blind_throw|apply blind_ret]. Qed.

Lemma silent_fields (s s' : State) :
  silent s = silent s' →
  weather_dataChannel s = weather_dataChannel s' ∧
  channels s = channels s' ∧ outbox s = outbox s'.
Proof. unfold silent. intros H. injection H. intros. auto. Qed.

Lemma blind_log (msg : string) (args : list console_arg) :
  console_blind (log msg args).
Proof.
  apply blind_modify. intros s s' H. unfold silent in *. simpl.
  injection H. intros. f_equal; first [assumption|congruence].
Qed.

Lemma blind_log_error (msg : string) (args : list console_arg) :
  console_blind (log_error msg args).
Proof.
  apply blind_modify. intros s s' H. unfold silent in *. simpl.
  injection H. intros. f_equal; first [assumption|congruence].
Qed.

Lemma blind_host (c : host_call) : console_blind (host c).
Proof.
  apply blind_modify. intros s s' H. unfold silent in *. simpl.
  injection H. intros. f_equal; first [assumption|congruence].
Qed.

Lemma blind_channel_send (ch : nat) (frame : string) :
  console_blind (channel_send ch frame).
Proof.
  intros s s' H. unfold channel_send. rewrite !run_bind, !run_get_state.
  destruct (silent_fields s s' H) as (_ & Hch & _).
  unfold channel_readyState. rewrite <- Hch.
  destruct (is_open _); [|by split].
  rewrite !run_modify. split; [done|].
  unfold silent in *. simpl. injection H. intros.
  f_equal; first [assumption|congruence].
Qed.

Lemma blind_sendDataToAPI (type data : string) :
  console_blind (Weather.sendDataToAPI type data).
Proof.
  intros s s' H. unfold Weather.sendDataToAPI.
  rewrite !run_bind, !run_get_state.
  destruct (silent_fields s s' H) as (Hwl & Hch & _).
  rewrite <- Hwl. destruct (weather_dataChannel s) as [ch|];
    [|by apply blind_log_error].
  unfold channel_readyState. rewrite <- Hch.
  destruct (negb _); [by apply blind_log_error|].
  exact (blind_bind _ _ (blind_channel_send _ _)
           (fun _ => blind_channel_send _ _) s s' H).
Qed.

Lemma blind_response_json (r : Response) : console_blind (response_json r).
Proof.
  unfold response_json. destruct (JSON_parse (body r));
    [apply blind_ret|apply blind_throw].
Qed.

Lemma js_get_length (l : list value) :
  js_get (VArr l) "length" = inr (VNum (pretty (length l))).
Proof. reflexivity. Qed.

Lemma js_get_first (x : value) (l : list value) :
  js_get (VArr (x :: l)) "0" = inr x.
Proof. reflexivity. Qed.

(** The second half of [getWeatherData], from the coordinates on. *)
Lemma getWeatherData_found
  (lat lon name : value) (o : Weather.Outcomes) (st : State)
  (response : Response) (data first la lo : value) (rest : list value) :
  truthy name = true →
  Weather.geocoding_response o = inr response →
  JSON_parse (body response) = Some data →
  js_get data "results" = inr (VArr (first :: rest)) →
  js_get first "latitude" = inr la →
  js_get first "longitude" = inr lo →
  Weather.getWeatherData lat lon name o st
  = try_catch
      (host (FetchForecast (js_to_string la) (js_to_string lo));;
       weatherResponse ← await (Weather.forecast_response o);
       weatherData ← response_json weatherResponse;
       Weather.sendDataToAPI "weather" (JSON_stringify_2 weatherData))
      (fun error =>
         log_error "Error fetching weather data:" [ArgError error];;
         throw error)
      (add_host_call (FetchGeocoding (js_to_string name))
         (add_console
            (console_log
               ("Function called: getWeatherData lat: "
                +:+ js_to_string (Weather.or_null lat)
                +:+ ", lon: " +:+ js_to_string (Weather.or_null lon)
                +:+ ", locationName: " +:+ js_to_string name) []) st)).
Proof.
  intros Hname Hgeo Hparse Hresults Hlat Hlon.
  assert (Weather.or_null name = name) as Hnn by (by destruct name).
  unfold Weather.getWeatherData. cbv zeta. rewrite Hnn, Hname.
  rewrite run_bind. unfold log at 1. rewrite run_modify.
  rewrite !run_try_catch.
  rewrite (run_bind (_ ≫= _)).
  rewrite run_bind. unfold host at 1. rewrite run_modify.
  rewrite run_bind, Hgeo. cbn [await lift]. rewrite run_ret.
  rewrite run_bind. unfold response_json at 1. rewrite Hparse, run_ret.
  rewrite run_bind, Hresults. cbn [lift]. rewrite run_ret.
  rewrite run_bind. cbn [truthy negb].
  rewrite run_bind, js_get_length. cbn [lift]. rewrite run_ret, run_ret.
  cbn [is_number_zero length]. rewrite length_not_zero.
  rewrite run_bind, js_get_first. cbn [lift]. rewrite run_ret.
  rewrite run_bind, Hlat. cbn [lift]. rewrite run_ret.
  rewrite run_bind, Hlon. cbn [lift]. rewrite run_ret, run_ret.
  reflexivity.
Qed.

Lemma getWeatherData_not_found
  (lat lon name : value) (o : Weather.Outcomes) (st : State)
  (response : Response) (data results : value) :
  truthy name = true →
  Weather.geocoding_response o = inr response →
  JSON_parse (body response) = Some data →
  js_get data "results" = inr results →
  truthy results = false ∨ results = VArr [] →
  Weather.getWeatherData lat lon name o st
  = (inl (Error "Location not found"),
     add_console
       (console_error "Error fetching weather data:"
          [ArgError (Error "Location not found")])
       (add_host_call (FetchGeocoding (js_to_string name))
          (add_console
             (console_log
                ("Function called: getWeatherData lat: "
                 +:+ js_to_string (Weather.or_null lat)
                 +:+ ", lon: " +:+ js_to_string (Weather.or_null lon)
                 +:+ ", locationName: " +:+ js_to_string name) []) st))).
Proof.
  intros Hname Hgeo Hparse Hresults Hnone.
  assert (Weather.or_null name = name) as Hnn by (by destruct name).
  unfold Weather.getWeatherData. cbv zeta. rewrite Hnn, Hname.
  rewrite run_bind. unfold log at 1. rewrite run_modify.
  rewrite !run_try_catch.
  rewrite (run_bind (_ ≫= _)).
  rewrite run_bind. unfold host at 1. rewrite run_modify.
  rewrite run_bind, Hgeo. cbn [await lift]. rewrite run_ret.
  rewrite run_bind. unfold response_json at 1. rewrite Hparse, run_ret.
  rewrite run_bind, Hresults. cbn [lift]. rewrite run_ret.
  rewrite run_bind.
  destruct Hnone as [Hfalsy| ->].
  - rewrite Hfalsy. cbn [negb]. rewrite run_ret. reflexivity.
  - cbn [truthy negb]. rewrite run_bind, js_get_length.
    cbn [lift]. rewrite run_ret, run_ret. reflexivity.
Qed.




(* ================================================================== *)
(** * A response with a message and a function call (C6) *)
(* ================================================================== *)

Lemma js_get_total (v : value) (k : string) :
  is_nullish v = false → ∃ x, js_get v k = inr x.
Proof.
  destruct v; try discriminate; intros _; unfold js_get; eauto.
  - destruct (String.eqb k "length"); [eauto|].
    destruct (index_of_key k); eauto.
  - destruct (String.eqb k "length"); [eauto|].
    destruct (index_of_key k); eauto.
Qed.

Lemma js_get_member (v : value) (k : string) :
  is_nullish v = false → js_get v k = inr (member v k).
Proof.
  intros Hv. destruct (js_get_total v k Hv) as [x Hx].
  unfold member. by rewrite Hx.
Qed.

Lemma js_get_opt_member (v : value) (k : string) :
  js_get_opt v k = inr (member_opt v k).
Proof.
  unfold js_get_opt, member_opt.
  destruct (is_nullish v) eqn:Hv; [reflexivity|by apply js_get_member].
Qed.

Lemma readable_not_nullish (v x : value) (k : string) :
  js_get v k = inr x → is_nullish v = false.
Proof. by destruct v. Qed.

Lemma parse_value_defined (fuel : nat) (cs rest : list ascii) (v : value) :
  parse_value fuel cs = Some (v, rest) → v ≠ VUndefined.
Proof.
  destruct fuel as [|fuel]; [discriminate|].
  cbn [parse_value]. intros Hp.
  destruct (skip_ws cs) as [|c cs']; [discriminate|].
  repeat match type of Hp with
         | (if ?x then _ else _) = _ => destruct x
         end.
  all: try (destruct (expect _ _); [|discriminate]; injection Hp as <- _;
            discriminate).
  - destruct (lex_string _ _) as [[s r]|]; [|discriminate].
    injection Hp as <- _. discriminate.
  - destruct (skip_ws cs') as [|d r]; [discriminate|].
    destruct (ascii_eqb d "]"); [injection Hp as <- _; discriminate|].
    destruct (parse_elements _ _) as [[l r']|]; [|discriminate].
    injection Hp as <- _. discriminate.
  - destruct (skip_ws cs') as [|d r]; [discriminate|].
    destruct (ascii_eqb d "}"); [injection Hp as <- _; discriminate|].
    destruct (parse_members _ _ _) as [[l r']|]; [|discriminate].
    injection Hp as <- _. discriminate.
  - destruct (lex_number _) as [[n r]|]; [|discriminate].
    injection Hp as <- _. discriminate.
Qed.

(** [JSON.parse] never returns [undefined]. *)
Lemma JSON_parse_defined (text : string) (v : value) :
  JSON_parse text = Some v → v ≠ VUndefined.
Proof.
  unfold JSON_parse.
  destruct (parse_value _ _) as [[v' rest]|] eqn:Hp; [|discriminate].
  destruct (skip_ws rest); [|discriminate]. intros [= <-].
  by apply parse_value_defined in Hp.
Qed.

(** Executes the straight-line part of a handler in the goal. *)
Ltac straight :=
  repeat first
    [ rewrite run_bind
    | rewrite run_modify
    | rewrite run_ret
    | rewrite run_get_state
    | rewrite run_try_catch
    | progress unfold log, log_error, host, unawaited
    | progress cbn beta iota ].

Lemma handle_message_item (item : value) (st : State) :
  js_get item "type" = inr (VStr "message") →
  Demo5.handle_output_item item st
  = when (truthy (content_text item))
      (addMessage (js_to_string (content_text item)) ai) st.
Proof.
  intros Hty. pose proof (readable_not_nullish _ _ _ Hty) as Hitem.
  unfold Demo5.handle_output_item.
  rewrite run_bind, (type_is_eval _ (VStr "message")) by done.
  change (str_eq (VStr "message") "message") with true. cbv iota.
  rewrite run_bind, run_bind, (js_get_member item "content") by done.
  cbn [lift]. rewrite run_ret.
  rewrite run_bind, js_get_opt_member. cbn [lift]. rewrite run_ret.
  rewrite js_get_opt_member. cbn [lift]. rewrite run_ret.
  fold (content_text item). cbn [andb].
  destruct (truthy (content_text item)); cbn [when]; [reflexivity|].
  rewrite run_bind, (type_is_eval _ (VStr "message")) by done.
  change (str_eq (VStr "message") "function_call") with false. reflexivity.
Qed.

Lemma handle_call_item (item args : value) (st : State) :
  js_get item "type" = inr (VStr "function_call") →
  JSON_parse (js_to_string (member item "arguments")) = Some args →
  (str_eq (member item "name") "getWeatherData" = true → args ≠ VNull) →
  let name := member item "name" in
  let lat := member args "lat" in
  let lon := member args "lon" in
  let locationName := member args "locationName" in
  ∃ st', Demo5.handle_output_item item st = (inr tt, st') ∧
    chatUI st' = chatUI st ∧ outbox st' = outbox st ∧
    geolocation st' = geolocation st ∧
    started_tools st'
    = started_tools st
      ++ (if str_eq name "getWeatherData"
          then [CallGetWeatherData lat lon locationName]
          else if str_eq name "getBrowserLocationWeatherData"
          then [CallGetBrowserLocationWeatherData]
          else []) ∧
    host_calls st'
    = host_calls st
      ++ (if str_eq name "getWeatherData"
          then [first_request lat lon locationName]
          else if str_eq name "getBrowserLocationWeatherData"
          then (if geolocation st then [GetCurrentPosition] else [])
          else []).
Proof.
  intros Hty Hparse Hnull. cbv zeta.
  pose proof (readable_not_nullish _ _ _ Hty) as Hitem.
  assert (∀ s, Demo5.handle_output_item item s
               = (if str_eq (member item "name") "getWeatherData" then
                    lat ← lift (js_get args "lat");
                    lon ← lift (js_get args "lon");
                    locationName ← lift (js_get args "locationName");
                    modify (add_started_tool
                              (CallGetWeatherData lat lon locationName));;
                    unawaited (Weather.getWeatherData_called lat lon locationName)
                  else if str_eq (member item "name")
                            "getBrowserLocationWeatherData" then
                    modify (add_started_tool CallGetBrowserLocationWeatherData);;
                    st ← get_state;
                    unawaited (Weather.getBrowserLocationWeatherData
                                 (geolocation st))
                  else mret tt)
                   (add_console
                      (console_log
                         ("Function call: " +:+ js_to_string (member item "name"))
                         [ArgValue args]) s)) as Hrun.
  { intros s. unfold Demo5.handle_output_item.
    rewrite run_bind, (type_is_eval _ (VStr "function_call")) by done.
    change (str_eq (VStr "function_call") "message") with false. cbv iota.
    rewrite run_bind, run_ret. cbn [andb].
    rewrite run_bind, (type_is_eval _ (VStr "function_call")) by done.
    change (str_eq (VStr "function_call") "function_call") with true. cbv iota.
    rewrite run_bind, (js_get_member item "name") by done.
    cbn [lift]. rewrite run_ret.
    rewrite run_bind, (js_get_member item "arguments") by done.
    cbn [lift]. rewrite run_ret.
    rewrite run_bind. unfold Demo5.parse_json. rewrite Hparse, run_ret.
    rewrite run_bind. unfold log at 1. rewrite run_modify. reflexivity. }
  rewrite Hrun. clear Hrun.
  destruct (str_eq (member item "name") "getWeatherData") eqn:Hname.
  - assert (is_nullish args = false) as Hargs.
    { specialize (Hnull eq_refl). apply JSON_parse_defined in Hparse.
      by destruct args. }
    rewrite !js_get_member by done. cbn [lift].
    unfold Weather.getWeatherData_called, first_request. cbv zeta.
    destruct (truthy (Weather.or_null (member args "locationName"))) eqn:Hloc;
      eexists; (split; [straight; rewrite Hloc; straight; reflexivity|]);
      simpl; repeat split.
  - destruct (str_eq (member item "name") "getBrowserLocationWeatherData").
    + unfold Weather.getBrowserLocationWeatherData.
      destruct (geolocation st) eqn:Hgeo;
        eexists; (split; [straight; cbn [geolocation add_started_tool add_console];
                          rewrite Hgeo; straight; reflexivity|]);
        simpl; rewrite ?app_nil_r; repeat split; assumption.
    + eexists. split; [reflexivity|]. simpl. rewrite !app_nil_r. repeat split.
Qed.

Lemma response_done_run (data : string) (ev response : value)
  (items : list value) (st : State) :
  JSON_parse data = Some ev →
  js_get ev "type" = inr (VStr "response.done") →
  js_get ev "response" = inr response →
  js_get_opt response "output" = inr (VArr items) →
  Demo5.onmessage data st
  = for_of items Demo5.handle_output_item
      (add_console (console_log "Text response object:" [ArgValue response])
         (add_console (console_log "Received event:" [ArgValue ev]) st)).
Proof.
  intros Hparse Hty Hresp Hout.
  unfold Demo5.onmessage, Demo5.parse_json. rewrite Hparse.
  rewrite run_bind, run_ret.
  rewrite run_bind. unfold log at 1. rewrite run_modify.
  do 6 (rewrite run_bind, (type_is_eval _ (VStr "response.done")) by done;
        match goal with
        | |- context [str_eq (VStr "response.done") ?l] =>
            change (str_eq (VStr "response.done") l) with false
        end; cbv iota).
  rewrite run_bind, (type_is_eval _ (VStr "response.done")) by done.
  change (str_eq (VStr "response.done") "response.done") with true. cbv iota.
  rewrite run_bind, Hresp. cbn [lift]. rewrite run_ret.
  rewrite run_bind. unfold log at 1. rewrite run_modify.
  rewrite run_bind, Hout. cbn [lift]. rewrite run_ret.
  cbn [truthy]. rewrite run_bind. cbn [Demo5.js_iterate]. rewrite run_ret.
  reflexivity.
Qed.




(* ================================================================== *)
(** * A failed negotiation (C1) *)
(* ================================================================== *)

Lemma alter_snoc {A} (f : A → A) (l : list A) (x : A) :
  alter f (length l) (l ++ [x]) = l ++ [f x].
Proof.
  rewrite <- (Nat.add_0_r (length l)). rewrite alter_app_r. reflexivity.
Qed.

Lemma lookup_snoc {A} (l : list A) (x : A) :
  (l ++ [x]) !! length l = Some x.
Proof. by apply list_lookup_middle. Qed.

Lemma alter_app_head {A} (f : A → A) (l r : list A) (x : A) :
  alter f (length l) (l ++ x :: r) = l ++ f x :: r.
Proof.
  rewrite <- (Nat.add_0_r (length l)). rewrite alter_app_r. reflexivity.
Qed.

Lemma not_yet_a_sender (t : nat) : bool_decide (t ∈ @nil nat) = false.
Proof. apply bool_decide_eq_false_2, not_elem_of_nil. Qed.

Lemma run_throw {A} (e : error) (st : State) : @throw A e st = (inl e, st).
Proof. reflexivity. Qed.

(** [exec] and [host_exec] execute the computation in the goal, the
    second one through the host operations of a connect attempt. *)
Ltac exec_step :=
  first
    [ rewrite run_bind
    | rewrite run_modify
    | rewrite run_get_state
    | rewrite run_ret
    | rewrite run_throw
    | rewrite run_try_catch
    | progress unfold log, log_error, host, updateStatus,
        assign_peerConnection, assign_mediaStream, assign_isConnected,
        assign_dataChannel, assign_hasWelcomed, assign_audioElement,
        assign_isTalking, assign_micVisualizer, assign_aiVisualizer,
        assign_micButton_disabled, assign_micButton_textContent,
        assign_connectionButton_textContent, Weather.setDataChannel
    | progress cbn beta iota ].

Ltac exec := repeat exec_step.

Ltac host_step :=
  first
    [ exec_step
    | progress unfold Demo5.setupWebRTC, Demo5.setupMicrophone,
        new_RTCPeerConnection, createVisualizer, create_audio_element,
        createDataChannel, peer_is_closed, getUserMedia, visualizer_init,
        track_set_enabled, addTrack, set_localDescription,
        set_remoteDescription
    | progress cbn [await lift when negb pc_closed senders replicate seq]
    | rewrite alter_snoc
    | rewrite lookup_snoc
    | rewrite alter_app_head
    | rewrite not_yet_a_sender
    | match goal with
      | H : ?f ?o = _ |- context [?f ?o] => rewrite H
      end
    | progress
        cbn [demo page chatUI tracks peers channels audios visualizers
             weather_dataChannel outbox console host_calls started_tools
             geolocation
             set_demo set_page set_chatUI set_tracks set_peers set_channels
             set_audios set_visualizers set_weather_dataChannel add_outbox
             add_console add_host_call add_started_tool
             peerConnection mediaStream isConnected dataChannel hasWelcomed
             audioElement isTalking micVisualizer aiVisualizer] ].

Ltac host_exec := repeat host_step.

Ltac fields :=
  cbn [demo page chatUI tracks peers channels audios visualizers
       weather_dataChannel outbox console host_calls started_tools
             geolocation
       set_demo set_page set_chatUI set_tracks set_peers set_channels
       set_audios set_visualizers set_weather_dataChannel add_outbox
       add_console add_host_call add_started_tool
       peerConnection mediaStream isConnected dataChannel hasWelcomed
       audioElement isTalking micVisualizer aiVisualizer].

Lemma toggleSession_media_rejected
  (o : ConnectOutcomes) (e : error) (token : value) (st : State) :
  isConnected (demo st) = false →
  session_key (session_response o) = inr token →
  userMedia o = inl e →
  ∃ st', Demo5.toggleSession o st = (inr tt, st') ∧
    statusDiv_textContent (page st') = "Connection failed: " +:+ e_message e ∧
    isConnected (demo st') = false ∧
    mediaStream (demo st') = mediaStream (demo st) ∧
    tracks st' = tracks st ∧
    peerConnection (demo st') = Some (length (peers st)) ∧
    peers st' = peers st ++ [mkPeer false 0 [] [length (channels st)] None None] ∧
    dataChannel (demo st') = Some (length (channels st)) ∧
    channels st' = channels st ++ [mkChannel Connecting 0] ∧
    audioElement (demo st') = Some (length (audios st)) ∧
    audios st' = audios st ++ [mkAudio true 0].
Proof.
  intros Hidle Hkey Hmedia.
  eexists. split.
  - unfold Demo5.toggleSession. exec.
    rewrite Hidle. cbn [negb]. exec.
    rewrite getEphemeralKey_run, Hkey. exec.
    unfold Demo5.setupWebRTC. exec.
    unfold new_RTCPeerConnection. exec.
    unfold createVisualizer. exec.
    unfold create_audio_element. exec.
    unfold createDataChannel. exec.
    unfold peer_is_closed. fields.
    rewrite lookup_snoc. cbn [pc_closed]. exec.
    unfold Demo5.setupMicrophone. exec.
    unfold getUserMedia. exec.
    rewrite Hmedia. cbn [await lift]. exec.
    reflexivity.
  - simpl. rewrite alter_snoc. simpl.
    repeat split; try reflexivity. exact Hidle.
Qed.

Lemma toggleSession_later_failure
  (o : ConnectOutcomes) (e : error) (token : value) (n : nat) (st : State) :
  isConnected (demo st) = false →
  session_key (session_response o) = inr token →
  userMedia o = inr (S n) →
  later_failure o = Some e →
  ∃ st' ld rd, Demo5.toggleSession o st = (inr tt, st') ∧
    statusDiv_textContent (page st') = "Connection failed: " +:+ e_message e ∧
    isConnected (demo st') = false ∧
    mediaStream (demo st') = Some (seq (length (tracks st)) (S n)) ∧
    tracks st' = tracks st ++ replicate (S n) (mkTrack true Live 0) ∧
    peerConnection (demo st') = Some (length (peers st)) ∧
    peers st' = peers st ++ [mkPeer false 0 [length (tracks st)]
                               [length (channels st)] ld rd] ∧
    dataChannel (demo st') = Some (length (channels st)) ∧
    channels st' = channels st ++ [mkChannel Connecting 0].
Proof.
  intros Hidle Hkey Hmedia Hlater.
  unfold later_failure in Hlater.
  destruct (micVisualizer_started o) eqn:Hvis;
    destruct (offer o) as [e1|sdp] eqn:Hoffer;
    [| destruct (localDescription_set o) as [e2|[]] eqn:Hlocal;
       [| destruct (realtime_response o) as [e3|response] eqn:Hreal;
          [| destruct (ok response) eqn:Hok; cbn [negb] in Hlater;
             [ destruct (remoteDescription_set o) as [e4|[]] eqn:Hremote;
               [|discriminate Hlater] |] ] ]
    |
    | destruct (localDescription_set o) as [e2|[]] eqn:Hlocal;
       [| destruct (realtime_response o) as [e3|response] eqn:Hreal;
          [| destruct (ok response) eqn:Hok; cbn [negb] in Hlater;
             [ destruct (remoteDescription_set o) as [e4|[]] eqn:Hremote;
               [|discriminate Hlater] |] ] ] ];
    injection Hlater as <-;
    (do 3 eexists; split;
     [ unfold Demo5.toggleSession; exec; rewrite Hidle; cbn [negb]; exec;
       rewrite getEphemeralKey_run, Hkey; host_exec; reflexivity
     | simpl; rewrite ?alter_snoc, ?alter_app_head; simpl;
       rewrite ?alter_snoc; simpl;
       repeat split; try reflexivity; exact Hidle ]).
Qed.

Lemma returns_session_key (fetched : error + Response) (token : value) :
  returns (getEphemeralKey fetched) token ↔ session_key fetched = inr token.
Proof.
  unfold returns. split.
  - intros H. specialize (H (Demo5.constructor page0)).
    rewrite getEphemeralKey_run in H.
    destruct (session_key fetched); simpl in H; congruence.
  - intros H st. rewrite getEphemeralKey_run, H. reflexivity.
Qed.

Lemma attached_tracks_new_peer (st st' : State) (p : PeerConnection) :
  peers st' = peers st ++ [p] →
  attached_tracks st'
  = attached_tracks st ++ (if pc_closed p then [] else senders p).
Proof.
  intros H. unfold attached_tracks. rewrite H, map_app, concat_app.
  simpl. by rewrite app_nil_r.
Qed.

(** C1, as amended: when a connect attempt fails after the credential
    was obtained, [toggleSession] reports the failure ("Connection
    failed: ..." in the status line) and leaves [isConnected] false, but
    it tears nothing down: the peer connection and the data channel
    created for the attempt stay referenced and open.  If [getUserMedia]
    rejects, no track comes into being and none is attached to a
    transport by the attempt.  If the microphone was granted and a later
    step fails, the tracks stay live and the first one stays attached to
    the open transport. *)
Theorem failed_negotiation_reported_not_torn_down
  (o : ConnectOutcomes) (token : value) (st : State) :
  isConnected (demo st) = false →
  returns (getEphemeralKey (session_response o)) token →
  let st' := snd (Demo5.toggleSession o st) in
  (∀ e, userMedia o = inl e →
     fst (Demo5.toggleSession o st) = inr tt ∧
     statusDiv_textContent (page st') = "Connection failed: " +:+ e_message e ∧
     isConnected (demo st') = false ∧
     mediaStream (demo st') = mediaStream (demo st) ∧
     tracks st' = tracks st ∧
     attached_tracks st' = attached_tracks st ∧
     peerConnection (demo st') = Some (length (peers st)) ∧
     peers st' = peers st ++ [mkPeer false 0 [] [length (channels st)] None None] ∧
     dataChannel (demo st') = Some (length (channels st)) ∧
     channels st' = channels st ++ [mkChannel Connecting 0] ∧
     ¬ torn_down st') ∧
  (∀ n e, userMedia o = inr (S n) → later_failure o = Some e →
     fst (Demo5.toggleSession o st) = inr tt ∧
     statusDiv_textContent (page st') = "Connection failed: " +:+ e_message e ∧
     isConnected (demo st') = false ∧
     mediaStream (demo st') = Some (seq (length (tracks st)) (S n)) ∧
     tracks st' = tracks st ++ replicate (S n) (mkTrack true Live 0) ∧
     attached_tracks st' = attached_tracks st ++ [length (tracks st)] ∧
     peerConnection (demo st') = Some (length (peers st)) ∧
     dataChannel (demo st') = Some (length (channels st)) ∧
     channels st' = channels st ++ [mkChannel Connecting 0] ∧
     ¬ torn_down st').
Proof.
  intros Hidle Hkey. apply returns_session_key in Hkey. cbv zeta. split.
  - intros e Hmedia.
    destruct (toggleSession_media_rejected o e token st Hidle Hkey Hmedia)
      as (st' & -> & Hs & Hc & Hm & Ht & Hp & Hps & Hd & Hch & _).
    cbn [fst snd].
    repeat split; try assumption.
    + rewrite (attached_tracks_new_peer st st' _ Hps). simpl.
      by rewrite app_nil_r.
    + intros (Hnone & _). congruence.
  - intros n e Hmedia Hlater.
    destruct (toggleSession_later_failure o e token n st Hidle Hkey Hmedia Hlater)
      as (st' & ld & rd & -> & Hs & Hc & Hm & Ht & Hp & Hps & Hd & Hch).
    cbn [fst snd].
    repeat split; try assumption.
    + rewrite (attached_tracks_new_peer st st' _ Hps). reflexivity.
    + intros (Hnone & _). congruence.
Qed.

Lemma failed_negotiation_reported_not_torn_down_witness :
  let denied := snd (Demo5.toggleSession media_denied (Demo5.constructor page0)) in
  let refused := snd (Demo5.toggleSession offer_refused (Demo5.constructor page0)) in
  statusDiv_textContent (page denied) = "Connection failed: Permission denied" ∧
  attached_tracks denied = [] ∧
  statusDiv_textContent (page refused)
  = "Connection failed: Failed to connect: 401 Unauthorized" ∧
  attached_tracks refused = [0].
Proof.
  destruct (failed_negotiation_reported_not_torn_down media_denied
              (VStr "ek_123") (Demo5.constructor page0) eq_refl
              (fun st => eq_refl)) as [Hdenied _].
  destruct (Hdenied (mkError "NotAllowedError" "Permission denied") eq_refl)
    as (_ & H1 & _ & _ & _ & H2 & _).
  destruct (failed_negotiation_reported_not_torn_down offer_refused
              (VStr "ek_123") (Demo5.constructor page0) eq_refl
              (fun st => eq_refl)) as [_ Hrefused].
  destruct (Hrefused 0 (Error "Failed to connect: 401 Unauthorized")
              eq_refl eq_refl) as (_ & H3 & _ & _ & _ & H4 & _).
  split; [exact H1|]. split; [exact H2|]. split; [exact H3|exact H4].
Defined.

(** C1 as stated fails.  In the scenario of the specification the
    credential is obtained and [getUserMedia] rejects: the session does
    not end torn down, its peer connection is still referenced and
    open.  When the offer is refused after the microphone was granted,
    the track is left live and attached. *)
Lemma failed_negotiation_leaves_session_standing :
  let denied := snd (Demo5.toggleSession media_denied (Demo5.constructor page0)) in
  let refused := snd (Demo5.toggleSession offer_refused (Demo5.constructor page0)) in
  ¬ torn_down denied ∧
  peerConnection (demo denied) = Some 0 ∧
  peers denied = [mkPeer false 0 [] [0] None None] ∧
  ¬ torn_down refused ∧
  tracks refused = [mkTrack true Live 0] ∧
  attached_tracks refused = [0].
Proof.
  cbv zeta.
  split; [intros (H & _); vm_compute in H; discriminate H|].
  split; [reflexivity|]. split; [reflexivity|].
  split; [intros (H & _); vm_compute in H; discriminate H|].
  split; reflexivity.
Qed.

(* ================================================================== *)
(** * The dispatcher and the text chat: what they leave alone *)
(* ================================================================== *)

Global Instance asks_tools_only_preorder : PreOrder asks_tools_only.
Proof.
  split.
  - intros st. exists []. split; [by rewrite app_nil_r|constructor].
  - intros s1 s2 s3 (r1 & H1 & F1) (r2 & H2 & F2). exists (r1 ++ r2).
    split; [by rewrite H2, H1, app_assoc|by apply Forall_app].
Qed.

Lemma onmessage_asks_tools_only (data : string) :
  respects asks_tools_only (Demo5.onmessage data).
Proof.
  frame;
    first [ by (exists []; split; [simpl; by rewrite app_nil_r|constructor])
          | by (eexists [_]; split; [reflexivity|repeat constructor]) ].
Qed.

(** X1: the dispatcher of inbound frames leaves the connection alone:
    whatever the frame, the instance, the host objects, the module's
    channel and the frames sent are as before, and so are the two
    buttons' enabled state and caption; the only host operations it
    starts are the requests of the tools it calls. *)
Theorem onmessage_leaves_connection_alone (data : string) (st : State) :
  connection_view (snd (Demo5.onmessage data st)) = connection_view st ∧
  micButton_disabled (page (snd (Demo5.onmessage data st)))
  = micButton_disabled (page st) ∧
  connectionButton_textContent (page (snd (Demo5.onmessage data st)))
  = connectionButton_textContent (page st) ∧
  ∃ requests,
    host_calls (snd (Demo5.onmessage data st)) = host_calls st ++ requests ∧
    Forall (fun c => tool_request c = true) requests.
Proof.
  split; [|split; [|split]].
  - assert (respects (same connection_view) (Demo5.onmessage data)) as H
      by (frame; reflexivity).
    apply H.
  - assert (respects (same (fun s => micButton_disabled (page s)))
              (Demo5.onmessage data)) as H by (frame; reflexivity).
    apply H.
  - assert (respects (same (fun s => connectionButton_textContent (page s)))
              (Demo5.onmessage data)) as H by (frame; reflexivity).
    apply H.
  - apply (onmessage_asks_tools_only data st).
Qed.

(** X2: [handleChatMessage] never throws and touches neither the chat, the
    instance nor the page; on an open channel it sends exactly two
    frames, the user's text item and then the request for a text-only
    response, and otherwise none. *)
Theorem handleChatMessage_two_frames_or_none (message : string) (st : State) :
  let st' := snd (Demo5.handleChatMessage message st) in
  fst (Demo5.handleChatMessage message st) = inr tt ∧
  chatUI st' = chatUI st ∧ demo st' = demo st ∧ page st' = page st ∧
  match dataChannel (demo st) with
  | Some ch =>
      if is_open (channel_readyState st ch)
      then outbox st'
           = outbox st ++ [(ch, JSON_stringify (user_text_item message));
                           (ch, JSON_stringify textResponseEvent)]
      else outbox st' = outbox st
  | None => outbox st' = outbox st
  end.
Proof.
  cbv zeta.
  destruct (dataChannel (demo st)) as [ch|] eqn:Hch.
  - destruct (is_open (channel_readyState st ch)) eqn:Hopen.
    + assert (Demo5.handleChatMessage message st
              = (inr tt,
                 add_outbox ch (JSON_stringify textResponseEvent)
                   (add_console
                      (console_log "Sending text-only response:"
                         [ArgValue textResponseEvent])
                      (add_outbox ch (JSON_stringify (user_text_item message)) st))))
        as ->.
      { unfold Demo5.handleChatMessage. exec. rewrite Hch, Hopen. cbn [negb].
        exec. unfold dataChannel_send. exec. fields. rewrite Hch.
        unfold channel_send. exec. rewrite Hopen. exec. fields.
        rewrite Hch. exec.
        change (channel_readyState (add_console ?e (add_outbox ?c ?f st)) ch)
          with (channel_readyState st ch).
        rewrite Hopen. exec. reflexivity. }
      simpl. rewrite <- app_assoc. repeat split; reflexivity.
    + assert (Demo5.handleChatMessage message st
              = (inr tt,
                 add_console (console_error "Data channel not ready" []) st))
        as ->.
      { unfold Demo5.handleChatMessage. exec. rewrite Hch, Hopen. reflexivity. }
      simpl. repeat split; reflexivity.
  - assert (Demo5.handleChatMessage message st
            = (inr tt,
               add_console (console_error "Data channel not ready" []) st))
      as ->.
    { unfold Demo5.handleChatMessage. exec. rewrite Hch. reflexivity. }
    simpl. repeat split; reflexivity.
Qed.

(* ================================================================== *)
(** * Tool results *)
(* ================================================================== *)

Lemma sendDataToAPI_ready (type data : string) (st : State) (ch : nat) :
  weather_dataChannel st = Some ch →
  channel_readyState st ch = Open →
  ∃ st', Weather.sendDataToAPI type data st = (inr tt, st') ∧
    outbox st' = outbox st ++ result_frames ch type data ∧
    console st' = console st.
Proof.
  intros Hch Hopen. eexists. split.
  - unfold Weather.sendDataToAPI. exec. rewrite Hch, Hopen. cbn [is_open negb].
    exec. unfold channel_send. exec. rewrite Hopen. cbn [is_open]. exec.
    change (channel_readyState (add_outbox ?c ?f st) ch)
      with (channel_readyState st ch).
    rewrite Hopen. cbn [is_open]. exec. reflexivity.
  - simpl. rewrite <- app_assoc. split; reflexivity.
Qed.

Lemma sendDataToAPI_sent (type data : string) (st : State) :
  ∃ st', Weather.sendDataToAPI type data st = (inr tt, st') ∧
    outbox st'
    = outbox st
      ++ match weather_dataChannel st with
         | Some ch =>
             if is_open (channel_readyState st ch)
             then result_frames ch type data else []
         | None => []
         end.
Proof.
  destruct (weather_dataChannel st) as [ch|] eqn:Hch.
  - destruct (channel_readyState st ch) eqn:Hopen; cbn [is_open].
    2: { destruct (sendDataToAPI_ready type data st ch Hch Hopen)
           as (st' & Hrun & Hout & _). by exists st'. }
    all: rewrite sendDataToAPI_not_ready by (intros c Hc; congruence);
      eexists; split; [reflexivity|]; simpl; by rewrite app_nil_r.
  - rewrite sendDataToAPI_not_ready by (intros c Hc; congruence).
    eexists. split; [reflexivity|]. simpl. by rewrite app_nil_r.
Qed.

Lemma sendDataToAPI_never_throws (type data : string) :
  never_throws (Weather.sendDataToAPI type data).
Proof.
  intros st. exists tt.
  destruct (sendDataToAPI_sent type data st) as (st' & -> & _). reflexivity.
Qed.

(** X3: [sendDataToAPI] never throws; it sends both frames of a tool
    result, in order, on an open channel, and no frame at all
    otherwise. *)
Theorem sendDataToAPI_all_or_nothing (type data : string) (st : State) :
  let st' := snd (Weather.sendDataToAPI type data st) in
  fst (Weather.sendDataToAPI type data st) = inr tt ∧
  match weather_dataChannel st with
  | Some ch =>
      if is_open (channel_readyState st ch)
      then outbox st' = outbox st ++ result_frames ch type data
      else outbox st' = outbox st
  | None => outbox st' = outbox st
  end.
Proof.
  cbv zeta.
  destruct (sendDataToAPI_sent type data st) as (st' & -> & Hout).
  split; [reflexivity|]. cbn [snd]. rewrite Hout.
  destruct (weather_dataChannel st) as [ch|]; [|apply app_nil_r].
  destruct (is_open (channel_readyState st ch)); [reflexivity|apply app_nil_r].
Qed.

Lemma caught_nothing {A} (m : M A) (h : error → M A) (st : State) :
  never_throws m →
  (let (s, st') := m st in
   match s with
   | inl e => h e st'
   | inr a => (inr a, st')
   end) = m st.
Proof.
  intros Hm. destruct (Hm st) as [a Ha].
  destruct (m st) as [[e|a'] st']; simpl in *; [discriminate|reflexivity].
Qed.

(** Runs a body down every branch of its awaited results, parses and
    truthiness tests. *)
Ltac case_run :=
  repeat
    (exec;
     cbn [await lift];
     try match goal with
         | |- context [await ?x] =>
             lazymatch x with inl _ => fail | inr _ => fail
             | _ => destruct x eqn:? end
         | |- context [lift ?x] =>
             lazymatch x with inl _ => fail | inr _ => fail
             | _ => destruct x eqn:? end
         | |- context [match JSON_parse ?t with _ => _ end] =>
             destruct (JSON_parse t) eqn:?
         | |- context [if ?x then _ else _] =>
             lazymatch x with
             | truthy _ => destruct x eqn:?
             | negb (truthy _) => destruct x eqn:?
             | is_number_zero _ => destruct x eqn:?
             end
         end).

Lemma getWeatherData_in_stages
  (lat lon name : value) (o : Weather.Outcomes) (st : State) :
  Weather.getWeatherData lat lon name o st
  = (Weather.getWeatherData_called lat lon name;;
     (if truthy (Weather.or_null name)
      then Weather.getWeatherData_geocoded (Weather.geocoding_response o)
      else mret tt);;
     Weather.getWeatherData_forecast (Weather.forecast_response o)) st.
Proof.
  unfold Weather.getWeatherData, Weather.getWeatherData_called,
    Weather.getWeatherData_geocoded, Weather.getWeatherData_forecast.
  cbv zeta. unfold response_json.
  case_run; reflexivity.
Qed.

Lemma getWeatherData_forecast_run (forecast : error + Response) (st : State) :
  let run := Weather.getWeatherData_forecast forecast st in
  match forecast with
  | inr response =>
      match JSON_parse (body response) with
      | Some weatherData =>
          fst run = inr tt ∧
          outbox (snd run)
          = outbox st
            ++ frames_dispatched st "weather" (JSON_stringify_2 weatherData)
      | None => (∃ e, fst run = inl e) ∧ outbox (snd run) = outbox st
      end
  | inl e => fst run = inl e ∧ outbox (snd run) = outbox st
  end.
Proof.
  cbv zeta. unfold Weather.getWeatherData_forecast, response_json.
  destruct forecast as [e|response]; [split; reflexivity|].
  destruct (JSON_parse (body response)) as [weatherData|] eqn:Hparse.
  - rewrite run_try_catch, run_bind. cbn [await lift]. rewrite run_ret.
    rewrite run_bind, Hparse, run_ret.
    destruct (sendDataToAPI_sent "weather" (JSON_stringify_2 weatherData) st)
      as (st' & -> & Hout).
    split; [reflexivity|exact Hout].
  - rewrite run_try_catch, run_bind. cbn [await lift]. rewrite run_ret.
    rewrite run_bind, Hparse. split; [eexists|]; reflexivity.
Qed.

(** X4: a [getWeatherData] call sends on the data channel at its last
    step only.  The call is its three pieces in a row; the first two
    leave the frames sent, the module's channel and the channels as
    they are; the last one, run in whatever state the page is in when
    the forecast request settles, sends the two frames of one result
    carrying [JSON.stringify(weatherData, null, 2)] of the forecast
    just received when the module's channel is set and open then, and
    nothing when it is not; when the request fails or its body does not
    parse, the call rejects and nothing is sent. *)
Theorem getWeatherData_sends_result_or_nothing :
  (∀ lat lon name o st,
     Weather.getWeatherData lat lon name o st
     = (Weather.getWeatherData_called lat lon name;;
        (if truthy (Weather.or_null name)
         then Weather.getWeatherData_geocoded (Weather.geocoding_response o)
         else mret tt);;
        Weather.getWeatherData_forecast (Weather.forecast_response o)) st) ∧
  (∀ lat lon name st,
     dispatch_view (snd (Weather.getWeatherData_called lat lon name st))
     = dispatch_view st) ∧
  (∀ geocoding st,
     dispatch_view (snd (Weather.getWeatherData_geocoded geocoding st))
     = dispatch_view st) ∧
  (∀ forecast st,
     let run := Weather.getWeatherData_forecast forecast st in
     match forecast with
     | inr response =>
         match JSON_parse (body response) with
         | Some weatherData =>
             fst run = inr tt ∧
             outbox (snd run)
             = outbox st
               ++ frames_dispatched st "weather" (JSON_stringify_2 weatherData)
         | None => (∃ e, fst run = inl e) ∧ outbox (snd run) = outbox st
         end
     | inl e => fst run = inl e ∧ outbox (snd run) = outbox st
     end).
Proof.
  split; [exact getWeatherData_in_stages|].
  split; [|split; [|exact getWeatherData_forecast_run]].
  - intros lat lon name st.
    assert (respects (same dispatch_view)
              (Weather.getWeatherData_called lat lon name)) as H
      by (frame; reflexivity).
    apply H.
  - intros geocoding st.
    assert (respects (same dispatch_view)
              (Weather.getWeatherData_geocoded geocoding)) as H
      by (frame; reflexivity).
    apply H.
Qed.



(* ================================================================== *)
(** * What closeConnection releases *)
(* ================================================================== *)

Lemma for_of_track_stop (stream : list nat) (st : State) :
  for_of stream track_stop st = (inr tt, set_tracks (stop_all stream) st).
Proof.
  revert st. induction stream as [|t stream IH]; intros st.
  - destruct st; reflexivity.
  - cbn [for_of]. rewrite run_bind. unfold track_stop at 1.
    rewrite run_modify, IH. destruct st; reflexivity.
Qed.

Lemma stop_all_length (stream : list nat) (l : list Track) :
  length (stop_all stream l) = length l.
Proof.
  revert l. induction stream as [|t stream IH]; intros l; [done|].
  unfold stop_all in *. simpl. rewrite IH. apply length_alter.
Qed.

Lemma stop_all_keeps_ended (stream : list nat) (l : list Track) (t : nat) (tr : Track) :
  stop_all stream l !! t = Some tr →
  (∃ tr0, l !! t = Some tr0 ∧ track_readyState tr0 = Ended) →
  track_readyState tr = Ended.
Proof.
  revert l. induction stream as [|u stream IH]; intros l Hl (tr0 & H0 & He).
  - unfold stop_all in Hl. simpl in Hl. congruence.
  - unfold stop_all in *. simpl in Hl. apply (IH _ Hl).
    destruct (decide (u = t)) as [->|Hne].
    + exists (stopped tr0). rewrite list_lookup_alter_eq, H0. done.
    + exists tr0. rewrite list_lookup_alter_ne by done. done.
Qed.

Lemma stop_all_ends (stream : list nat) (l : list Track) (t : nat) (tr : Track) :
  t ∈ stream → stop_all stream l !! t = Some tr → track_readyState tr = Ended.
Proof.
  revert l. induction stream as [|u stream IH]; intros l Hin Hl.
  - by apply elem_of_nil in Hin.
  - apply elem_of_cons in Hin as [->|Hin].
    + unfold stop_all in Hl. simpl in Hl.
      apply (stop_all_keeps_ended stream _ u tr Hl).
      assert (is_Some (l !! u)) as [tr0 H0].
      { apply lookup_lt_is_Some. apply lookup_lt_Some in Hl.
        change (foldl _ _ stream) with (stop_all stream (alter stopped u l)) in Hl.
        rewrite stop_all_length, length_alter in Hl. exact Hl. }
      exists (stopped tr0). rewrite list_lookup_alter_eq, H0. done.
    + unfold stop_all in *. simpl in Hl. by apply (IH _ Hin Hl).
Qed.

Lemma same_after {X} (f : State → X) (m : M unit) (s : State) :
  respects (same f) m → f (snd (m s)) = f s.
Proof. intros H. apply H. Qed.

Lemma closeConnection_heap (st : State) :
  let st' := snd (Demo5.closeConnection st) in
  tracks st'
  = match mediaStream (demo st) with
    | Some stream => stop_all stream (tracks st)
    | None => tracks st
    end ∧
  peers st' = alter_at closed_peer (peerConnection (demo st)) (peers st) ∧
  audios st' = alter_at removed (audioElement (demo st)) (audios st) ∧
  visualizers st'
  = alter_at stopped_visualizer (micVisualizer (demo st))
      (alter_at stopped_visualizer (aiVisualizer (demo st)) (visualizers st)).
Proof.
  cbv zeta. unfold Demo5.closeConnection.
  rewrite run_bind, run_get_state. cbv beta iota zeta.
  repeat split.
  - rewrite run_seq by total.
    rewrite same_after by (frame; reflexivity).
    destruct (mediaStream (demo st)) as [stream|]; [|reflexivity].
    cbn [if_set]. rewrite for_of_track_stop. reflexivity.
  - rewrite run_seq by total. rewrite run_seq by total.
    rewrite same_after by (frame; reflexivity).
    destruct (peerConnection (demo st)) as [pc|]; cbn [if_set alter_at].
    + unfold peer_close. exec. cbn [snd]. fields.
      rewrite same_after by (frame; reflexivity). reflexivity.
    + rewrite !same_after by (frame; reflexivity). reflexivity.
  - do 3 (rewrite run_seq by total).
    rewrite same_after by (frame; reflexivity).
    destruct (audioElement (demo st)) as [a|]; cbn [if_set alter_at].
    + unfold audio_remove. exec. cbn [snd]. fields.
      rewrite !same_after by (frame; reflexivity). reflexivity.
    + cbn [snd]. rewrite !same_after by (frame; reflexivity). reflexivity.
  - do 6 (rewrite run_seq by total).
    rewrite same_after by (frame; reflexivity).
    destruct (micVisualizer (demo st)) as [mic|], (aiVisualizer (demo st)) as [ai0|];
      cbn [if_set alter_at]; unfold visualizer_stop; exec; cbn [snd]; fields;
      rewrite ?same_after by (frame; reflexivity); reflexivity.
Qed.

Lemma lookup_alter_at {A} (f : A → A) (ref : option nat) (l : list A) (i : nat) :
  alter_at f ref l !! i
  = if decide (ref = Some i) then f <$> l !! i else l !! i.
Proof.
  destruct ref as [j|]; cbn [alter_at].
  - destruct (decide (j = i)) as [->|Hne].
    + rewrite list_lookup_alter_eq. by rewrite decide_True.
    + rewrite list_lookup_alter_ne by done.
      rewrite decide_False by congruence. done.
  - by rewrite decide_False.
Qed.

Lemma stop_all_other (stream : list nat) (l : list Track) (t : nat) :
  t ∉ stream → stop_all stream l !! t = l !! t.
Proof.
  revert l. induction stream as [|u stream IH]; intros l Hnot; [done|].
  apply not_elem_of_cons in Hnot as [Hne Hnot].
  unfold stop_all in *. simpl. rewrite IH by done.
  by rewrite list_lookup_alter_ne.
Qed.

(** X6: closeConnection releases every object the instance refers to:
    each track of the stream is ended, the peer connection is closed,
    the audio element is out of the document and [stop()] has been
    called on both visualizers. *)
Theorem closeConnection_releases (st : State) :
  let st' := snd (Demo5.closeConnection st) in
  (∀ stream t tr, mediaStream (demo st) = Some stream → t ∈ stream →
     tracks st' !! t = Some tr → track_readyState tr = Ended) ∧
  (∀ pc p, peerConnection (demo st) = Some pc →
     peers st' !! pc = Some p → pc_closed p = true) ∧
  (∀ ch, dataChannel (demo st) = Some ch → channel_readyState st' ch ≠ Open) ∧
  (∀ a e, audioElement (demo st) = Some a →
     audios st' !! a = Some e → in_document e = false) ∧
  (∀ v x, micVisualizer (demo st) = Some v ∨ aiVisualizer (demo st) = Some v →
     visualizers st' !! v = Some x → (0 < visualizer_stop_calls x)%nat).
Proof.
  cbv zeta. destruct (closeConnection_heap st) as (Ht & Hp & Ha & Hv).
  split; [|split; [|split; [|split]]].
  - intros stream t tr Hs Hin. rewrite Ht, Hs. by apply stop_all_ends.
  - intros pc p Hpc. rewrite Hp, Hpc. cbn [alter_at].
    rewrite list_lookup_alter_eq. destruct (peers st !! pc); [|done].
    simpl. by intros [= <-].
  - intros ch. apply closeConnection_closes_channel.
  - intros a e Hae. rewrite Ha, Hae. cbn [alter_at].
    rewrite list_lookup_alter_eq. destruct (audios st !! a); [|done].
    simpl. by intros [= <-].
  - intros v x Hor. rewrite Hv, !lookup_alter_at.
    destruct (visualizers st !! v) as [x0|] eqn:Hx0.
    + repeat case_decide; simpl; try (intros [= <-]; simpl; lia).
      destruct Hor; congruence.
    + repeat case_decide; simpl; done.
Qed.

(** X7: closeConnection touches no object the instance does not refer to. *)
Theorem closeConnection_spares_unreferenced (st : State) :
  let st' := snd (Demo5.closeConnection st) in
  (∀ t, t ∉ default [] (mediaStream (demo st)) → tracks st' !! t = tracks st !! t) ∧
  (∀ pc, peerConnection (demo st) ≠ Some pc → peers st' !! pc = peers st !! pc) ∧
  (∀ a, audioElement (demo st) ≠ Some a → audios st' !! a = audios st !! a) ∧
  (∀ v, micVisualizer (demo st) ≠ Some v → aiVisualizer (demo st) ≠ Some v →
     visualizers st' !! v = visualizers st !! v) ∧
  length (tracks st') = length (tracks st) ∧
  length (peers st') = length (peers st) ∧
  length (audios st') = length (audios st) ∧
  length (visualizers st') = length (visualizers st).
Proof.
  cbv zeta. destruct (closeConnection_heap st) as (Ht & Hp & Ha & Hv).
  rewrite Ht, Hp, Ha, Hv.
  repeat split.
  - intros t Hnot. destruct (mediaStream (demo st)); [|done].
    by apply stop_all_other.
  - intros pc Hne. rewrite lookup_alter_at. by rewrite decide_False.
  - intros a Hne. rewrite lookup_alter_at. by rewrite decide_False.
  - intros v Hm Ha'. rewrite !lookup_alter_at. by rewrite !decide_False.
  - destruct (mediaStream (demo st)); [|done]. apply stop_all_length.
  - destruct (peerConnection (demo st)); [|done]. apply length_alter.
  - destruct (audioElement (demo st)); [|done]. apply length_alter.
  - destruct (micVisualizer (demo st)), (aiVisualizer (demo st));
      cbn [alter_at]; rewrite ?length_alter; done.
Qed.

(* ================================================================== *)
(** * The chat *)
(* ================================================================== *)

Global Instance keeps_preorder (P : ChatUI → Prop) : PreOrder (keeps P).
Proof. split; unfold keeps; [intros ?; done|intros ??? H1 H2 H; auto]. Qed.

Lemma addMessage_tracks_last content s :
  respects (keeps tracks_last) (addMessage content s).
Proof.
  intros st _. unfold tracks_last. simpl. by rewrite length_app, Nat.add_1_r.
Qed.

Lemma updateLastMessage_tracks_last content s :
  respects (keeps tracks_last) (updateLastMessage content s).
Proof.
  unfold updateLastMessage. frame; try apply addMessage_tracks_last.
  intros H. unfold tracks_last in *. simpl. by rewrite length_insert.
Qed.

Lemma clearMessages_tracks_last : respects (keeps tracks_last) clearMessages.
Proof. intros st _. reflexivity. Qed.

#[export] Hint Resolve addMessage_tracks_last updateLastMessage_tracks_last
  clearMessages_tracks_last : frames.

Lemma handle_tracks_last (e : Events.event) :
  respects (keeps tracks_last) (Events.handle e).
Proof. destruct e; simpl; frame; try (intros H; exact H). Qed.

(** X8: whatever the page has gone through, the chat's tracked element is
    the last message shown. *)
Theorem chat_tracks_last_message (p : Page) (es : list Events.event) :
  tracks_last (chatUI (Events.run es (Demo5.constructor p))).
Proof.
  unfold Events.run.
  assert (tracks_last (chatUI (Demo5.constructor p))) as H by reflexivity.
  revert H. generalize (Demo5.constructor p).
  induction es as [|e es IH]; intros st H; [exact H|].
  simpl. apply IH. unfold Events.step. by apply handle_tracks_last.
Qed.

Lemma sender_eqb_eq (a b : sender) : sender_eqb a b = true → a = b.
Proof. by destruct a, b. Qed.

(** X9: with the tracked element being the last message,
    [updateLastMessage] rewrites the text of the last message when it
    is the sender's, and appends a message otherwise; it never touches
    an earlier message, and nothing outside the chat. *)
Theorem updateLastMessage_replaces_or_appends
    (content : string) (s : sender) (st : State) :
  tracks_last (chatUI st) →
  updateLastMessage content s st
  = (inr tt,
     set_chatUI (fun c =>
       mkChat (updated content s (messages c))
              (Some (pred (length (updated content s (messages c)))))) st).
Proof.
  intros H. unfold updateLastMessage.
  rewrite run_bind, run_get_state. cbv beta zeta.
  unfold tracks_last in H. rewrite H. unfold updated.
  destruct st as [d p [l e] ? ? ? ? ? ? ? ? ? ? ?].
  unfold set_chatUI. cbn [chatUI messages lastMessageElement] in *. subst e.
  destruct l as [|x0 l0 _] using rev_ind.
  - reflexivity.
  - rewrite length_app, Nat.add_1_r, last_snoc, removelast_last.
    rewrite lookup_app_r, Nat.sub_diag by lia. destruct x0 as [s' text].
    cbn [lookup list_lookup].
    destruct (sender_eqb s' s) eqn:Hs.
    + apply sender_eqb_eq in Hs as ->.
      unfold modify, set_chatUI. cbn [chatUI messages lastMessageElement].
      rewrite insert_app_r_alt, Nat.sub_diag by lia.
      cbn [insert list_insert]. by rewrite !length_app, !Nat.add_1_r.
    + unfold addMessage, modify, set_chatUI. cbn [chatUI messages lastMessageElement].
      by rewrite !length_app, !Nat.add_1_r.
Qed.

Lemma updateLastMessage_replaces_or_appends_witness :
  let st := snd (addMessage "Speaking..." user (Demo5.constructor page0)) in
  tracks_last (chatUI st) ∧
  messages (chatUI (snd (updateLastMessage "Processing speech..." user st)))
  = [(user, "Processing speech...")] ∧
  messages (chatUI (snd (updateLastMessage "Hello!" ai st)))
  = [(user, "Speaking..."); (ai, "Hello!")].
Proof.
  cbv zeta.
  set (st := snd (addMessage "Speaking..." user (Demo5.constructor page0))).
  split; [reflexivity|]. split.
  - rewrite (updateLastMessage_replaces_or_appends "Processing speech..." user
               st eq_refl).
    reflexivity.
  - rewrite (updateLastMessage_replaces_or_appends "Hello!" ai st eq_refl).
    reflexivity.
Defined.

(* ================================================================== *)
(** * A connect attempt that succeeds *)
(* ================================================================== *)

Lemma toggleSession_success
  (o : ConnectOutcomes) (token : value) (n : nat) (sdp : string)
  (response : Response) (st : State) :
  isConnected (demo st) = false →
  session_key (session_response o) = inr token →
  userMedia o = inr (S n) →
  offer o = inr sdp →
  localDescription_set o = inr tt →
  realtime_response o = inr response →
  ok response = true →
  remoteDescription_set o = inr tt →
  ∃ st', Demo5.toggleSession o st = (inr tt, st') ∧
    host_calls st'
    = host_calls st ++ handshake (length (peers st)) token sdp (body response) ∧
    outbox st' = outbox st ∧
    page st' = mkPage "Connected" false "Mute Mic" "Close Session" ∧
    isConnected (demo st') = true ∧
    peerConnection (demo st') = Some (length (peers st)) ∧
    dataChannel (demo st') = Some (length (channels st)) ∧
    audioElement (demo st') = Some (length (audios st)) ∧
    mediaStream (demo st') = Some (seq (length (tracks st)) (S n)) ∧
    peers st' = peers st ++ [mkPeer false 0 [length (tracks st)]
                               [length (channels st)] (Some sdp) (Some (body response))] ∧
    channels st' = channels st ++ [mkChannel Connecting 0] ∧
    hasWelcomed (demo st') = hasWelcomed (demo st).
Proof.
  intros Hidle Hkey Hmedia Hoffer Hlocal Hreal Hok Hremote.
  destruct (micVisualizer_started o) eqn:Hvis.
  all: eexists; split;
     [ unfold Demo5.toggleSession; exec; rewrite Hidle; cbn [negb]; exec;
       rewrite getEphemeralKey_run, Hkey; host_exec; reflexivity
     | simpl ].
  all: rewrite ?alter_snoc, ?alter_app_head; simpl; rewrite ?alter_snoc; simpl.
  all: unfold handshake; rewrite <- !app_assoc; simpl.
  all: repeat split; reflexivity.
Qed.

(** X10: A connect attempt in which every step succeeds starts exactly the
    seven host operations of the handshake, in order, sends nothing on
    the data channel, does not touch the greeting latch and leaves the
    page showing a connected session. *)
Theorem toggleSession_connects
  (o : ConnectOutcomes) (token : value) (n : nat) (sdp : string)
  (response : Response) (st : State) :
  isConnected (demo st) = false →
  session_key (session_response o) = inr token →
  userMedia o = inr (S n) →
  offer o = inr sdp →
  localDescription_set o = inr tt →
  realtime_response o = inr response →
  ok response = true →
  remoteDescription_set o = inr tt →
  let run := Demo5.toggleSession o st in
  fst run = inr tt ∧
  host_calls (snd run)
  = host_calls st ++ handshake (length (peers st)) token sdp (body response) ∧
  outbox (snd run) = outbox st ∧
  page (snd run) = mkPage "Connected" false "Mute Mic" "Close Session" ∧
  isConnected (demo (snd run)) = true ∧
  hasWelcomed (demo (snd run)) = hasWelcomed (demo st).
Proof.
  intros Hidle Hkey Hmedia Hoffer Hlocal Hreal Hok Hremote. cbv zeta.
  destruct (toggleSession_success o token n sdp response st
              Hidle Hkey Hmedia Hoffer Hlocal Hreal Hok Hremote)
    as (st' & -> & Hcalls & Hout & Hpage & Hconn & _ & _ & _ & _ & _ & _ & Hw).
  cbn [fst snd]. repeat split; assumption.
Qed.

Lemma toggleSession_connects_witness :
  let run := Demo5.toggleSession all_succeed (Demo5.constructor page0) in
  fst run = inr tt ∧
  host_calls (snd run)
  = [ FetchSession session_request; NewPeerConnection 0; GetUserMedia;
      CreateOffer 0; SetLocalDescription 0 "v=0 (offer)";
      FetchRealtime "Bearer ek_123" "v=0 (offer)";
      SetRemoteDescription 0 "v=0 (answer)" ] ∧
  outbox (snd run) = [] ∧
  isConnected (demo (snd run)) = true.
Proof.
  destruct (toggleSession_connects all_succeed (VStr "ek_123") 0 "v=0 (offer)"
              (mkResponse true 201 "Created" "v=0 (answer)")
              (Demo5.constructor page0)
              eq_refl eq_refl eq_refl eq_refl eq_refl eq_refl eq_refl eq_refl)
    as (Hrun & Hcalls & Hout & _ & Hconn & _).
  split; [exact Hrun|]. split; [exact Hcalls|].
  split; [exact Hout|exact Hconn].
Defined.

(* ================================================================== *)
(** * What a connected page holds *)
(* ================================================================== *)

Lemma toggleSession_no_track
  (o : ConnectOutcomes) (token : value) (st : State) :
  isConnected (demo st) = false →
  session_key (session_response o) = inr token →
  userMedia o = inr 0 →
  ∃ st', Demo5.toggleSession o st = (inr tt, st') ∧
    isConnected (demo st') = false ∧
    statusDiv_textContent (page st')
    = "Connection failed: Cannot set properties of undefined (setting 'enabled')".
Proof.
  intros Hidle Hkey Hmedia.
  destruct (micVisualizer_started o) eqn:Hvis.
  all: eexists; split;
     [ unfold Demo5.toggleSession; exec; rewrite Hidle; cbn [negb]; exec;
       rewrite getEphemeralKey_run, Hkey; host_exec; reflexivity
     | simpl; split; [exact Hidle|reflexivity] ].
Qed.

Lemma toggleSession_holds (o : ConnectOutcomes) (st : State) :
  isConnected (demo st) = false →
  isConnected (demo (snd (Demo5.toggleSession o st))) = true →
  holds_transport (demo (snd (Demo5.toggleSession o st))).
Proof.
  intros Hidle.
  destruct (session_key (session_response o)) as [e|token] eqn:Hkey.
  { rewrite (toggleSession_credential_failure o e st Hidle Hkey).
    simpl. congruence. }
  destruct (userMedia o) as [e|[|n]] eqn:Hmedia.
  { destruct (toggleSession_media_rejected o e token st Hidle Hkey Hmedia)
      as (st' & -> & _ & Hoff & _). simpl. congruence. }
  { destruct (toggleSession_no_track o token st Hidle Hkey Hmedia)
      as (st' & -> & Hoff & _). simpl. congruence. }
  destruct (later_failure o) as [e|] eqn:Hlater.
  { destruct (toggleSession_later_failure o e token n st Hidle Hkey Hmedia Hlater)
      as (st' & ld & rd & -> & _ & Hoff & _). simpl. congruence. }
  unfold later_failure in Hlater.
  destruct (offer o) as [|sdp] eqn:Hoffer; [discriminate|].
  destruct (localDescription_set o) as [|[]] eqn:Hlocal; [discriminate|].
  destruct (realtime_response o) as [|response] eqn:Hreal; [discriminate|].
  destruct (ok response) eqn:Hok; [|discriminate].
  destruct (remoteDescription_set o) as [|[]] eqn:Hremote; [discriminate|].
  destruct (toggleSession_success o token n sdp response st
              Hidle Hkey Hmedia Hoffer Hlocal Hreal Hok Hremote)
    as (st' & -> & _ & _ & _ & _ & Hpc & Hdc & Ha & Hms & _).
  intros _. cbn [snd]. unfold holds_transport. rewrite Hpc, Hdc, Ha, Hms.
  repeat split; eexists; reflexivity.
Qed.

Lemma handle_transport (e : Events.event) :
  match e with
  | Events.ClickConnection _ => True
  | _ => respects (same transport_view) (Events.handle e)
  end.
Proof. destruct e; try exact I; simpl; frame; reflexivity. Qed.

Lemma transport_view_holds (st st' : State) :
  same transport_view st st' →
  (isConnected (demo st) = true → holds_transport (demo st)) →
  isConnected (demo st') = true → holds_transport (demo st').
Proof.
  unfold same, transport_view, holds_transport.
  intros Heq. injection Heq as -> -> -> -> ->. done.
Qed.

(** X11: while the page shows a session as connected, the instance holds
    its peer connection, data channel, audio element and media stream,
    whatever events led there. *)
Theorem connected_holds_transport (p : Page) (es : list Events.event) :
  isConnected (demo (Events.run es (Demo5.constructor p))) = true →
  holds_transport (demo (Events.run es (Demo5.constructor p))).
Proof.
  unfold Events.run.
  assert (isConnected (demo (Demo5.constructor p)) = true →
          holds_transport (demo (Demo5.constructor p))) as H by discriminate.
  revert H. generalize (Demo5.constructor p).
  induction es as [|e es IH]; intros st H; [exact H|].
  simpl. apply IH. unfold Events.step.
  pose proof (handle_transport e) as He.
  destruct e as [o| | | | | | | | | |];
    try exact (transport_view_holds _ _ (He st) H).
  simpl. destruct (isConnected (demo st)) eqn:Hconn.
  - unfold Demo5.toggleSession. rewrite run_bind, run_get_state.
    cbv beta. rewrite Hconn. cbn [negb].
    destruct (closeConnection_closes st) as [_ (Hd & _)].
    rewrite Hd. discriminate.
  - by apply toggleSession_holds.
Qed.

Lemma connected_holds_transport_witness :
  let st := Events.run [Events.ClickConnection all_succeed]
              (Demo5.constructor page0) in
  isConnected (demo st) = true ∧ holds_transport (demo st).
Proof.
  cbv zeta. split; [reflexivity|].
  apply (connected_holds_transport page0 [Events.ClickConnection all_succeed]).
  reflexivity.
Defined.

(* ================================================================== *)
(** * A user turn in the chat, and the microphone button *)
(* ================================================================== *)

(** Takes [onmessage] on a frame of type [T] to the branch of [T]. *)
Ltac route Hparse T :=
  unfold Demo5.onmessage, Demo5.parse_json; rewrite Hparse;
  rewrite run_bind, run_ret;
  rewrite run_bind; unfold log at 1; rewrite run_modify;
  repeat (rewrite run_bind, (type_is_eval _ (VStr T)) by done;
          match goal with
          | |- context [str_eq (VStr T) ?l] =>
              first [ change (str_eq (VStr T) l) with false
                    | change (str_eq (VStr T) l) with true ]
          end; cbv iota).

Lemma insert_snoc {A} (l : list A) (x y : A) :
  <[length l := y]> (l ++ [x]) = l ++ [y].
Proof. rewrite insert_app_r_alt, Nat.sub_diag by lia. reflexivity. Qed.

Lemma speech_started_run (data : string) (ev : value) (st : State) :
  JSON_parse data = Some ev →
  js_get ev "type" = inr (VStr "input_audio_buffer.speech_started") →
  placeholder_shown "Speaking..." (messages (chatUI st))
    (snd (Demo5.onmessage data st)).
Proof.
  intros Hparse Hty. route Hparse "input_audio_buffer.speech_started".
  unfold addMessage. exec. reflexivity.
Qed.

Lemma committed_run (data : string) (ev : value) (text : string)
    (l : list (sender * string)) (st : State) :
  JSON_parse data = Some ev →
  js_get ev "type" = inr (VStr "input_audio_buffer.committed") →
  placeholder_shown text l st →
  placeholder_shown "Processing speech..." l (snd (Demo5.onmessage data st)).
Proof.
  intros Hparse Hty Hshown. route Hparse "input_audio_buffer.committed".
  unfold placeholder_shown in *.
  unfold updateLastMessage. exec. fields. rewrite Hshown.
  cbn [messages lastMessageElement]. rewrite lookup_snoc. cbn [sender_eqb].
  exec. cbn [snd]. fields. rewrite Hshown.
  cbn [messages lastMessageElement]. by rewrite insert_snoc.
Qed.

Lemma completed_run (data : string) (ev transcript : value) (text : string)
    (l : list (sender * string)) (st : State) :
  JSON_parse data = Some ev →
  js_get ev "type"
  = inr (VStr "conversation.item.input_audio_transcription.completed") →
  js_get ev "transcript" = inr transcript →
  placeholder_shown text l st →
  placeholder_shown
    (if truthy transcript then js_to_string transcript else text) l
    (snd (Demo5.onmessage data st)).
Proof.
  intros Hparse Hty Htr Hshown.
  route Hparse "conversation.item.input_audio_transcription.completed".
  rewrite run_bind, Htr. cbn [lift]. rewrite run_ret.
  unfold placeholder_shown in *.
  destruct (truthy transcript); cbn [when].
  - unfold updateLastMessage. exec. fields. rewrite Hshown.
    cbn [messages lastMessageElement]. rewrite lookup_snoc. cbn [sender_eqb].
    exec. cbn [snd]. fields. rewrite Hshown.
    cbn [messages lastMessageElement]. by rewrite insert_snoc.
  - exact Hshown.
Qed.

(** X12: A user turn leaves one entry in the chat: the placeholder added
    when speech starts is rewritten when the audio is committed and
    again by the final transcript, so that after the three frames the
    chat is the one before the turn followed by the transcript.  An
    empty final transcript leaves the placeholder in
    place. *)
Theorem user_turn_leaves_one_entry
  (started committed completed : string) (ev1 ev2 ev3 transcript : value)
  (st : State) :
  JSON_parse started = Some ev1 →
  js_get ev1 "type" = inr (VStr "input_audio_buffer.speech_started") →
  JSON_parse committed = Some ev2 →
  js_get ev2 "type" = inr (VStr "input_audio_buffer.committed") →
  JSON_parse completed = Some ev3 →
  js_get ev3 "type"
  = inr (VStr "conversation.item.input_audio_transcription.completed") →
  js_get ev3 "transcript" = inr transcript →
  messages (chatUI (Events.run [Events.ChannelMessage started;
                                Events.ChannelMessage committed;
                                Events.ChannelMessage completed] st))
  = messages (chatUI st)
    ++ [(user, if truthy transcript then js_to_string transcript
               else "Processing speech...")].
Proof.
  intros Hp1 Ht1 Hp2 Ht2 Hp3 Ht3 Htr.
  unfold Events.run. cbn [foldl]. unfold Events.step. cbn [Events.handle].
  pose proof (speech_started_run started ev1 st Hp1 Ht1) as H1.
  pose proof (committed_run committed ev2 _ _ _ Hp2 Ht2 H1) as H2.
  pose proof (completed_run completed ev3 transcript _ _ _ Hp3 Ht3 Htr H2) as H3.
  unfold placeholder_shown in H3. rewrite H3. reflexivity.
Qed.

(** X13: with a captured stream, a click on the microphone button flips
    [isTalking] and brings the first track's [enabled] flag and the
    button's caption in step with it; the track is not stopped, no
    other track is touched and nothing is sent. *)
Theorem toggleTalk_mirrors_flag
  (st : State) (audioTrack : nat) (rest : list nat) :
  mediaStream (demo st) = Some (audioTrack :: rest) →
  let st' := snd (Demo5.toggleTalk st) in
  let talking := negb (isTalking (demo st)) in
  fst (Demo5.toggleTalk st) = inr tt ∧
  isTalking (demo st') = talking ∧
  tracks st' !! audioTrack
  = (fun tr => mkTrack talking (track_readyState tr) (stop_calls tr))
      <$> tracks st !! audioTrack ∧
  (∀ t, t ≠ audioTrack → tracks st' !! t = tracks st !! t) ∧
  micButton_textContent (page st') = mic_caption talking ∧
  outbox st' = outbox st ∧ peers st' = peers st ∧ channels st' = channels st.
Proof.
  intros Hstream. cbv zeta.
  assert (∃ st', Demo5.toggleTalk st = (inr tt, st') ∧
            st' = set_page (fun p =>
                    mkPage (if negb (isTalking (demo st))
                            then "Microphone active" else "Microphone muted")
                      (micButton_disabled p)
                      (mic_caption (negb (isTalking (demo st))))
                      (connectionButton_textContent p))
                  (set_tracks (alter (fun tr =>
                      mkTrack (negb (isTalking (demo st)))
                        (track_readyState tr) (stop_calls tr)) audioTrack)
                    (set_demo (fun d =>
                       mkDemo (peerConnection d) (mediaStream d) (isConnected d)
                         (dataChannel d) (hasWelcomed d) (audioElement d)
                         (negb (isTalking (demo st))) (micVisualizer d)
                         (aiVisualizer d)) st)))
    as (st' & -> & ->).
  { eexists. split.
    - unfold Demo5.toggleTalk. exec. rewrite Hstream. exec.
      unfold track_set_enabled. exec. reflexivity.
    - destruct st as [[pc ms ic dc hw ae talking mv av] [] ? ? ? ? ? ? ? ? ? ? ? ?].
      unfold mic_caption. simpl. destruct talking; reflexivity. }
  cbn [fst snd]. fields.
  split; [reflexivity|]. split; [reflexivity|].
  split; [apply list_lookup_alter_eq|].
  split; [intros t Hne; by apply list_lookup_alter_ne|].
  repeat split; reflexivity.
Qed.

(* ================================================================== *)
(** * The dispatcher of the transcripts demo *)
(* ================================================================== *)

(** X14: apart from [response.done] frames, the dispatcher of the
    function-calling demo is the dispatcher of the transcripts demo
    run on the same chat: on every other payload, well-formed or not,
    the two do the same. *)
Theorem onmessage_extends_transcripts (data : string) (st : State) :
  (∀ ev, JSON_parse data = Some ev → is_response_done ev = false) →
  Demo5.onmessage data st
  = Demo4.onmessage addMessage updateLastMessage data st.
Proof.
  intros Hnot. unfold Demo5.onmessage, Demo4.onmessage, Demo5.parse_json.
  destruct (JSON_parse data) as [ev|] eqn:Hparse; [|reflexivity].
  specialize (Hnot ev eq_refl). unfold is_response_done in Hnot.
  rewrite !(run_bind (mret ev)), !run_ret.
  rewrite !(run_bind (log _ _)). unfold log at 1 3. rewrite !run_modify.
  destruct (js_get ev "type") as [e|ty] eqn:Hty.
  { unfold Demo5.type_is. rewrite !run_bind, Hty. reflexivity. }
  repeat (rewrite !(run_bind (Demo5.type_is _ _)), !(type_is_eval _ ty) by done;
          match goal with
          | |- context [str_eq ty ?l] =>
              lazymatch l with
              | "response.done" => rewrite Hnot
              | _ => destruct (str_eq ty l); [reflexivity|]
              end
          end).
  reflexivity.
Qed.

Section Transcripts_chat.
Variables add update : string → sender → M unit.

Lemma response_done4_run (data : string) (ev response output : value)
    (st : State) :
  JSON_parse data = Some ev →
  js_get ev "type" = inr (VStr "response.done") →
  js_get ev "response" = inr response →
  js_get_opt response "output" = inr output →
  truthy output = true →
  Demo4.onmessage add update data st
  = (first ← lift (js_get output "0");
     textResponse ←
       (if is_nullish first then mret VUndefined
        else
          content ← lift (js_get first "content");
          part ← lift (js_get content "0");
          lift (js_get_opt part "text"));
     when (truthy textResponse) (add (js_to_string textResponse) ai))
      (add_console (console_log "Received text response:" [ArgValue ev])
         (add_console (console_log "Received event:" [ArgValue ev]) st)).
Proof.
  intros Hparse Hty Hresp Hout Htruthy.
  unfold Demo4.onmessage, Demo5.parse_json. rewrite Hparse.
  rewrite run_bind, run_ret.
  rewrite run_bind. unfold log at 1. rewrite run_modify.
  do 6 (rewrite run_bind, (type_is_eval _ (VStr "response.done")) by done;
        match goal with
        | |- context [str_eq (VStr "response.done") ?l] =>
            change (str_eq (VStr "response.done") l) with false
        end; cbv iota).
  rewrite run_bind, (type_is_eval _ (VStr "response.done")) by done.
  change (str_eq (VStr "response.done") "response.done") with true. cbv iota.
  rewrite run_bind. unfold log at 1. rewrite run_modify.
  rewrite run_bind, Hresp. cbn [lift]. rewrite run_ret.
  rewrite run_bind, Hout. cbn [lift]. rewrite run_ret.
  rewrite Htruthy. reflexivity.
Qed.

(** X15: the transcripts demo shows the text of the first output item of a
    [response.done] frame and looks at no other item: whatever follows
    the first item, the handler logs the frame and then makes one
    [addMessage] call with the first item's text when that is truthy,
    and no call on the chat otherwise. *)
Theorem transcripts_shows_first_item_only
  (data : string) (ev response first content part text : value)
  (rest : list value) (st : State) :
  JSON_parse data = Some ev →
  js_get ev "type" = inr (VStr "response.done") →
  js_get ev "response" = inr response →
  js_get_opt response "output" = inr (VArr (first :: rest)) →
  js_get first "content" = inr content →
  js_get content "0" = inr part →
  js_get_opt part "text" = inr text →
  Demo4.onmessage add update data st
  = when (truthy text) (add (js_to_string text) ai)
      (add_console (console_log "Received text response:" [ArgValue ev])
         (add_console (console_log "Received event:" [ArgValue ev]) st)).
Proof.
  intros Hparse Hty Hresp Hout Hcontent Hpart Htext.
  rewrite (response_done4_run data ev response _ st Hparse Hty Hresp Hout eq_refl).
  assert (is_nullish first = false) as Hfirst by (by destruct first).
  assert (js_get (VArr (first :: rest)) "0" = inr first) as -> by reflexivity.
  cbn [lift]. rewrite run_bind, run_ret. rewrite Hfirst.
  rewrite run_bind, run_bind, Hcontent. cbn [lift]. rewrite run_ret.
  rewrite run_bind, Hpart. cbn [lift]. rewrite run_ret. rewrite Htext.
  cbn [lift]. rewrite run_ret. reflexivity.
Qed.

(** X16: when the first output item of a [response.done] frame has no
    [content] (a function call, say), the transcripts demo throws the
    [TypeError] of reading [content[0]] once it has logged the frame:
    the chat is not called, and later items are not reached. *)
Theorem transcripts_first_item_without_content_throws
  (data : string) (ev response first : value) (rest : list value) (st : State) :
  JSON_parse data = Some ev →
  js_get ev "type" = inr (VStr "response.done") →
  js_get ev "response" = inr response →
  js_get_opt response "output" = inr (VArr (first :: rest)) →
  js_get first "content" = inr VUndefined →
  Demo4.onmessage add update data st
  = (inl (TypeError "Cannot read properties of undefined (reading '0')"),
     add_console (console_log "Received text response:" [ArgValue ev])
       (add_console (console_log "Received event:" [ArgValue ev]) st)).
Proof.
  intros Hparse Hty Hresp Hout Hcontent.
  rewrite (response_done4_run data ev response _ st Hparse Hty Hresp Hout eq_refl).
  assert (is_nullish first = false) as Hfirst by (by destruct first).
  assert (js_get (VArr (first :: rest)) "0" = inr first) as -> by reflexivity.
  cbn [lift]. rewrite run_bind, run_ret. rewrite Hfirst.
  rewrite run_bind, run_bind, Hcontent. cbn [lift]. rewrite run_ret.
  rewrite run_bind. cbn [js_get lift]. rewrite run_throw.
  reflexivity.
Qed.

End Transcripts_chat.

(* ================================================================== *)
(** * The relay's session endpoint *)
(* ================================================================== *)

Lemma destructure_run (req_body : value) (t : Relay.Trace) :
  ∃ r, Relay.destructure req_body t = (r, t) ∧
    match r with
    | inl _ => names_model_and_voice req_body = false
    | inr (model, voice) =>
        js_get req_body "model" = inr model ∧
        js_get req_body "voice" = inr voice
    end.
Proof.
  unfold Relay.destructure, names_model_and_voice.
  destruct req_body; try (eexists; split; reflexivity).
  all: eexists; split; [reflexivity|split; reflexivity].
Qed.

(** The runs of the handler: a request that does not name a model and
    a voice is refused without a call upstream; any other is passed
    on, and the answer is the upstream one or an error report. *)
Lemma session_cases (key req_body : value) (fetched : error + Response) :
  ∃ t, Relay.session key req_body fetched (Relay.mkTrace [] [] []) = (inr tt, t) ∧
    ((names_model_and_voice req_body = false ∧
      Relay.fetches t = [] ∧
      ∃ code body, Relay.res t = [Relay.res_status code; Relay.res_json body] ∧
                   (code = 400 ∨ code = 500)) ∨
     (names_model_and_voice req_body = true ∧
      ∃ model voice,
        js_get req_body "model" = inr model ∧
        js_get req_body "voice" = inr voice ∧
        Relay.fetches t
        = [Relay.mkUpstream ("Bearer " +:+ js_to_string key)
             (JSON_stringify (VObj [("model", model); ("voice", voice)]))] ∧
        ((∃ code body,
            Relay.res t = [Relay.res_status code; Relay.res_json body]) ∨
         (∃ data, Relay.res t = [Relay.res_send data])))).
Proof.
  unfold Relay.session, Relay.catch.
  unfold mbind at 1, Relay.Handler_bind at 1.
  destruct (destructure_run req_body (Relay.mkTrace [] [] []))
    as (r & Hrun & Hr).
  rewrite Hrun. destruct r as [e|[model voice]].
  { eexists. split; [reflexivity|]. left. simpl.
    split; [exact Hr|]. split; [reflexivity|].
    do 2 eexists. split; [reflexivity|by right]. }
  destruct Hr as [Hmodel Hvoice]. unfold names_model_and_voice.
  rewrite Hmodel, Hvoice. cbn [fst snd].
  destruct (truthy model), (truthy voice); cbn [negb orb andb].
  2-4: eexists; (split; [reflexivity|]); left; simpl;
       (split; [reflexivity|]); (split; [reflexivity|]);
       do 2 eexists; (split; [reflexivity|by left]).
  destruct fetched as [e|response]; cbn [Relay.settle].
  { eexists. split; [reflexivity|]. right. split; [reflexivity|].
    exists model, voice. simpl. repeat split. left. by do 2 eexists. }
  unfold mbind, Relay.Handler_bind, Relay.fetch, Relay.json, mret, Relay.Handler_ret,
    Relay.raise.
  destruct (ok response); cbn [negb];
    destruct (JSON_parse (body response)) as [v|];
    (eexists; split; [reflexivity|]; right; (split; [reflexivity|]);
     exists model, voice; simpl; repeat split;
     first [ left; by do 2 eexists | right; by eexists ]).
Qed.

(** X17: every request is answered, and answered once: whatever the request
    body and however the upstream call settles, the handler never
    throws and writes exactly one body to the response. *)
Theorem relay_answers_once (key req_body : value) (fetched : error + Response) :
  fst (Relay.session key req_body fetched (Relay.mkTrace [] [] [])) = inr tt ∧
  length (bodies_sent (Relay.res (Relay.handle key req_body fetched))) = 1.
Proof.
  unfold Relay.handle.
  destruct (session_cases key req_body fetched) as (t & -> & Hcases).
  split; [reflexivity|]. cbn [snd].
  destruct Hcases as [(_ & _ & code & body & -> & _)
                     |(_ & model & voice & _ & _ & _ &
                       [(code & body & ->)|(data & ->)])];
    reflexivity.
Qed.

(** X18: the upstream service is asked only for a request that names a
    model and a voice, and then once, with exactly that model and
    voice as the body and the server's key as the bearer token; any
    other request is answered with status 400 or 500 without a call
    upstream. *)
Theorem relay_asks_upstream_for_complete_requests
  (key req_body : value) (fetched : error + Response) :
  let t := Relay.handle key req_body fetched in
  if names_model_and_voice req_body then
    ∃ model voice,
      js_get req_body "model" = inr model ∧
      js_get req_body "voice" = inr voice ∧
      Relay.fetches t
      = [Relay.mkUpstream ("Bearer " +:+ js_to_string key)
           (JSON_stringify (VObj [("model", model); ("voice", voice)]))]
  else
    Relay.fetches t = [] ∧
    ∃ code body, Relay.res t = [Relay.res_status code; Relay.res_json body] ∧
                 (code = 400 ∨ code = 500).
Proof.
  cbv zeta. unfold Relay.handle.
  destruct (session_cases key req_body fetched) as (t & -> & Hcases).
  cbn [snd].
  destruct Hcases as [(-> & Hnone & Hres)
                     |(-> & model & voice & Hm & Hv & Hone & _)].
  - split; [exact Hnone|exact Hres].
  - exists model, voice. repeat split; assumption.
Qed.

(** X19: the page and the relay fit together: the body that
    [getEphemeralKey] posts parses to a request that names a model and
    a voice, so the relay never refuses it as incomplete, and what the
    relay sends upstream is that body again, character for
    character. *)
Theorem page_request_passes_relay (key : value) (fetched : error + Response) :
  ∃ req_body,
    JSON_parse session_request = Some req_body ∧
    names_model_and_voice req_body = true ∧
    Relay.fetches (Relay.handle key req_body fetched)
    = [Relay.mkUpstream ("Bearer " +:+ js_to_string key) session_request].
Proof.
  eexists. split; [vm_compute; reflexivity|].
  split; [reflexivity|].
  match goal with
  | |- Relay.fetches (Relay.handle _ ?b _) = _ =>
      pose proof (relay_cases_probe := session_cases key b fetched)
  end.
  destruct relay_cases_probe as (t & Hrun & Hcases).
  unfold Relay.handle. rewrite Hrun. cbn [snd].
  destruct Hcases as [(Hfalse & _)|(_ & model & voice & Hm & Hv & -> & _)].
  - discriminate Hfalse.
  - injection Hm as <-. injection Hv as <-. reflexivity.
Qed.

(* ================================================================== *)
(** * A credential without a value; the cleanup of the basic demo *)
(* ================================================================== *)

(** X20: A credential response that carries [client_secret] without a
    [value] is not noticed: [getEphemeralKey] returns [undefined], the
    attempt runs to the end and the offer is posted with the literal
    bearer token [undefined]. *)
Theorem missing_secret_value_goes_unnoticed
  (o : ConnectOutcomes) (credential : Response) (data : value)
  (secret : list (string * value)) (n : nat) (sdp : string)
  (response : Response) (st : State) :
  isConnected (demo st) = false →
  session_response o = inr credential →
  ok credential = true →
  JSON_parse (body credential) = Some data →
  js_get data "client_secret" = inr (VObj secret) →
  assoc "value" secret = None →
  userMedia o = inr (S n) →
  offer o = inr sdp →
  localDescription_set o = inr tt →
  realtime_response o = inr response →
  ok response = true →
  remoteDescription_set o = inr tt →
  let run := Demo5.toggleSession o st in
  fst run = inr tt ∧
  FetchRealtime "Bearer undefined" sdp ∈ host_calls (snd run) ∧
  isConnected (demo (snd run)) = true ∧
  statusDiv_textContent (page (snd run)) = "Connected".
Proof.
  intros Hidle Hsession Hok Hparse Hsecret Hvalue Hmedia Hoffer Hlocal Hreal
    Hok' Hremote. cbv zeta.
  assert (session_key (session_response o) = inr VUndefined) as Hkey.
  { rewrite Hsession. unfold session_key. rewrite Hparse, Hok. cbn [negb].
    rewrite Hsecret. cbn [js_get]. by rewrite Hvalue. }
  destruct (toggleSession_success o VUndefined n sdp response st
              Hidle Hkey Hmedia Hoffer Hlocal Hreal Hok' Hremote)
    as (st' & -> & Hcalls & _ & Hpage & Hconn & _).
  cbn [fst snd]. split; [reflexivity|]. split.
  - rewrite Hcalls. apply elem_of_app. right. unfold handshake.
    repeat constructor.
  - split; [exact Hconn|]. by rewrite Hpage.
Qed.

Lemma closeConnection1_heap (st : State) :
  let st' := snd (Demo1.closeConnection st) in
  tracks st'
  = match mediaStream (demo st) with
    | Some stream => stop_all stream (tracks st)
    | None => tracks st
    end ∧
  peers st' = alter_at closed_peer (peerConnection (demo st)) (peers st) ∧
  audios st' = alter_at removed (audioElement (demo st)) (audios st) ∧
  visualizers st' = visualizers st ∧
  chatUI st' = chatUI st.
Proof.
  cbv zeta. unfold Demo1.closeConnection.
  rewrite run_bind, run_get_state. cbv beta iota zeta.
  split; [|split; [|split; [|split]]].
  - rewrite run_seq by total.
    rewrite same_after by (frame; reflexivity).
    destruct (mediaStream (demo st)) as [stream|]; [|reflexivity].
    cbn [if_set]. rewrite for_of_track_stop. reflexivity.
  - rewrite run_seq by total. rewrite run_seq by total.
    rewrite same_after by (frame; reflexivity).
    destruct (peerConnection (demo st)) as [pc|]; cbn [if_set alter_at].
    + unfold peer_close. exec. cbn [snd]. fields.
      rewrite same_after by (frame; reflexivity). reflexivity.
    + rewrite !same_after by (frame; reflexivity). reflexivity.
  - do 3 (rewrite run_seq by total).
    rewrite same_after by (frame; reflexivity).
    destruct (audioElement (demo st)) as [a|]; cbn [if_set alter_at].
    + unfold audio_remove. exec. cbn [snd]. fields.
      rewrite !same_after by (frame; reflexivity). reflexivity.
    + cbn [snd]. rewrite !same_after by (frame; reflexivity). reflexivity.
  - assert (respects (same visualizers) Demo1.closeConnection) as H
      by (frame; reflexivity).
    apply (H st).
  - assert (respects (same chatUI) Demo1.closeConnection) as H
      by (frame; reflexivity).
    apply (H st).
Qed.

(** X21: on the media tracks, the peer connections, the data channels and
    the audio elements, the cleanup of the basic demo does what the
    cleanup of the function-calling demo does; it leaves the visualizers
    and the chat alone. *)
Theorem basic_cleanup_agrees (st : State) :
  let basic := snd (Demo1.closeConnection st) in
  let full := snd (Demo5.closeConnection st) in
  tracks basic = tracks full ∧ peers basic = peers full ∧
  channels basic = channels full ∧ audios basic = audios full ∧
  visualizers basic = visualizers st ∧ chatUI basic = chatUI st.
Proof.
  cbv zeta.
  destruct (closeConnection1_heap st) as (Ht1 & Hp1 & Ha1 & Hv1 & Hc1).
  destruct (closeConnection_heap st) as (Ht & Hp & Ha & _).
  rewrite Ht1, Hp1, Ha1, Ht, Hp, Ha.
  repeat split; try assumption.
  unfold Demo1.closeConnection, Demo5.closeConnection.
  rewrite !run_bind, !run_get_state. cbv beta iota zeta.
  do 4 (rewrite (run_seq (if_set _ _)) by total).
  rewrite same_after by (frame; reflexivity).
  symmetry.
  do 4 (rewrite (run_seq (if_set _ _)) by total).
  rewrite same_after by (frame; reflexivity).
  reflexivity.
Qed.

(* ================================================================== *)
(** * Function calls whose arguments do not parse *)
(* ================================================================== *)

Lemma js_get_defined (v x : value) (k k' : string) :
  js_get v k = inr x → ∃ y, js_get v k' = inr y.
Proof.
  destruct v; try discriminate; intros _; unfold js_get; eauto.
  - destruct (String.eqb k' "length"); [eauto|].
    destruct (index_of_key k'); eauto.
  - destruct (String.eqb k' "length"); [eauto|].
    destruct (index_of_key k'); eauto.
Qed.

(** X22: A function call whose [arguments] are not well-formed JSON makes
    the handler throw the [SyntaxError] of [JSON.parse] at that item:
    no tool is started for it, and the items after it are not visited,
    so a text message that follows the call is not shown. *)
Theorem malformed_arguments_abort_the_frame
  (data : string) (ev response call_item arguments : value)
  (rest : list value) (st : State) :
  JSON_parse data = Some ev →
  js_get ev "type" = inr (VStr "response.done") →
  js_get ev "response" = inr response →
  js_get_opt response "output" = inr (VArr (call_item :: rest)) →
  js_get call_item "type" = inr (VStr "function_call") →
  js_get call_item "arguments" = inr arguments →
  JSON_parse (js_to_string arguments) = None →
  let run := Demo5.onmessage data st in
  fst run = inl (SyntaxError "Unexpected token in JSON") ∧
  silent (snd run) = silent st.
Proof.
  intros Hparse Hty Hresp Hout Hcall Hargs Hbad. cbv zeta.
  rewrite (response_done_run data ev response _ st Hparse Hty Hresp Hout).
  destruct (js_get_defined call_item _ "type" "name" Hcall) as [name Hname].
  assert (∀ s, Demo5.handle_output_item call_item s
               = (inl (SyntaxError "Unexpected token in JSON"), s)) as Hitem.
  { intros s. unfold Demo5.handle_output_item.
    rewrite run_bind, (type_is_eval _ (VStr "function_call")) by done.
    change (str_eq (VStr "function_call") "message") with false. cbv iota.
    rewrite run_bind, run_ret. cbn [andb]. cbv iota.
    rewrite run_bind, (type_is_eval _ (VStr "function_call")) by done.
    change (str_eq (VStr "function_call") "function_call") with true. cbv iota.
    rewrite run_bind, Hname. cbn [lift]. rewrite run_ret.
    rewrite run_bind, Hargs. cbn [lift]. rewrite run_ret.
    rewrite run_bind. unfold Demo5.parse_json. rewrite Hbad, run_throw.
    reflexivity. }
  cbn [for_of]. rewrite run_bind, Hitem.
  split; reflexivity.
Qed.



(* ================================================================== *)
(** * Worked scenarios of the properties above *)
(* ================================================================== *)

Lemma user_turn_leaves_one_entry_witness :
  messages (chatUI (Events.run [Events.ChannelMessage speech_started_frame;
                                Events.ChannelMessage committed_frame;
                                Events.ChannelMessage completed_frame]
                      (Demo5.constructor page0)))
  = [(user, "How warm is it in Paris?")].
Proof.
  exact (user_turn_leaves_one_entry
           speech_started_frame committed_frame completed_frame
           (VObj [("type", VStr "input_audio_buffer.speech_started")])
           (VObj [("type", VStr "input_audio_buffer.committed")])
           (VObj [("type",
                   VStr "conversation.item.input_audio_transcription.completed");
                  ("transcript", VStr "How warm is it in Paris?")])
           (VStr "How warm is it in Paris?") (Demo5.constructor page0)
           eq_refl eq_refl eq_refl eq_refl eq_refl eq_refl eq_refl).
Defined.

Lemma toggleTalk_mirrors_flag_witness :
  let st := snd (Demo5.toggleSession all_succeed (Demo5.constructor page0)) in
  let st' := snd (Demo5.toggleTalk st) in
  mediaStream (demo st) = Some [0] ∧
  isTalking (demo st') = false ∧
  tracks st' !! 0 = Some (mkTrack false Live 0) ∧
  micButton_textContent (page st') = "Unmute Mic".
Proof.
  cbv zeta.
  set (st := snd (Demo5.toggleSession all_succeed (Demo5.constructor page0))).
  assert (mediaStream (demo st) = Some [0]) as Hstream by reflexivity.
  destruct (toggleTalk_mirrors_flag st 0 [] Hstream)
    as (_ & Htalk & Htrack & _ & Hcaption & _).
  split; [exact Hstream|]. split; [exact Htalk|].
  split; [exact Htrack|exact Hcaption].
Defined.

Lemma onmessage_extends_transcripts_witness :
  JSON_parse committed_frame
  = Some (VObj [("type", VStr "input_audio_buffer.committed")]) ∧
  Demo5.onmessage committed_frame (Demo5.constructor page0)
  = Demo4.onmessage addMessage updateLastMessage committed_frame
      (Demo5.constructor page0).
Proof.
  split; [reflexivity|].
  apply (onmessage_extends_transcripts committed_frame (Demo5.constructor page0)).
  intros ev Hev.
  assert (ev = VObj [("type", VStr "input_audio_buffer.committed")]) as ->
    by (change (JSON_parse committed_frame)
          with (Some (VObj [("type", VStr "input_audio_buffer.committed")]))
          in Hev; congruence).
  reflexivity.
Defined.

Lemma transcripts_shows_first_item_only_witness :
  let run := Demo4.onmessage addMessage updateLastMessage
               text_and_weather_call (Demo5.constructor page0) in
  fst run = inr tt ∧
  messages (chatUI (snd run)) = [(ai, "Let me check.")] ∧
  started_tools (snd run) = [].
Proof.
  pose (part := VObj [("type", VStr "text"); ("text", VStr "Let me check.")]).
  pose (message := VObj [("type", VStr "message"); ("content", VArr [part])]).
  pose (arguments := "{" +:+ quoted "locationName" +:+ ":" +:+ quoted "Paris" +:+ "}").
  pose (call_item := VObj [("type", VStr "function_call");
                           ("name", VStr "getWeatherData");
                           ("arguments", VStr arguments)]).
  pose (response := VObj [("output", VArr [message; call_item])]).
  pose (ev := VObj [("type", VStr "response.done"); ("response", response)]).
  cbv zeta.
  rewrite (transcripts_shows_first_item_only addMessage updateLastMessage
             text_and_weather_call ev response
             message (VArr [part]) part (VStr "Let me check.") [call_item]
             (Demo5.constructor page0)
             eq_refl eq_refl eq_refl eq_refl eq_refl eq_refl eq_refl).
  repeat split; reflexivity.
Defined.

Lemma transcripts_first_item_without_content_throws_witness :
  let run := Demo4.onmessage addMessage updateLastMessage
               broken_call_and_text (Demo5.constructor page0) in
  fst run = inl (TypeError "Cannot read properties of undefined (reading '0')") ∧
  messages (chatUI (snd run)) = [].
Proof.
  pose (part := VObj [("type", VStr "text"); ("text", VStr "Let me check.")]).
  pose (message := VObj [("type", VStr "message"); ("content", VArr [part])]).
  pose (call_item := VObj [("type", VStr "function_call");
                           ("name", VStr "getWeatherData");
                           ("arguments", VStr "{")]).
  pose (response := VObj [("output", VArr [call_item; message])]).
  pose (ev := VObj [("type", VStr "response.done"); ("response", response)]).
  cbv zeta.
  rewrite (transcripts_first_item_without_content_throws
             addMessage updateLastMessage broken_call_and_text
             ev response call_item [message] (Demo5.constructor page0)
             eq_refl eq_refl eq_refl eq_refl eq_refl).
  split; reflexivity.
Defined.

Lemma malformed_arguments_abort_the_frame_witness :
  let run := Demo5.onmessage broken_call_and_text (Demo5.constructor page0) in
  fst run = inl (SyntaxError "Unexpected token in JSON") ∧
  messages (chatUI (snd run)) = [] ∧
  started_tools (snd run) = [].
Proof.
  pose (part := VObj [("type", VStr "text"); ("text", VStr "Let me check.")]).
  pose (message := VObj [("type", VStr "message"); ("content", VArr [part])]).
  pose (call_item := VObj [("type", VStr "function_call");
                           ("name", VStr "getWeatherData");
                           ("arguments", VStr "{")]).
  pose (response := VObj [("output", VArr [call_item; message])]).
  pose (ev := VObj [("type", VStr "response.done"); ("response", response)]).
  destruct (malformed_arguments_abort_the_frame broken_call_and_text
              ev response call_item (VStr "{") [message] (Demo5.constructor page0)
              eq_refl eq_refl eq_refl eq_refl eq_refl eq_refl eq_refl)
    as [Hthrows Hsilent].
  split; [exact Hthrows|]. split.
  - exact (f_equal (fun s => messages (chatUI s)) Hsilent).
  - exact (f_equal started_tools Hsilent).
Defined.

Lemma missing_secret_value_goes_unnoticed_witness :
  let run := Demo5.toggleSession secret_without_value (Demo5.constructor page0) in
  fst run = inr tt ∧
  FetchRealtime "Bearer undefined" "v=0 (offer)" ∈ host_calls (snd run) ∧
  isConnected (demo (snd run)) = true ∧
  statusDiv_textContent (page (snd run)) = "Connected".
Proof.
  exact (missing_secret_value_goes_unnoticed secret_without_value
           (mkResponse true 200 "OK" ("{" +:+ quoted "client_secret" +:+ ":{}}"))
           (VObj [("client_secret", VObj [])]) [] 0 "v=0 (offer)"
           (mkResponse true 201 "Created" "v=0 (answer)")
           (Demo5.constructor page0)
           eq_refl eq_refl eq_refl eq_refl eq_refl eq_refl eq_refl eq_refl
           eq_refl eq_refl eq_refl eq_refl).
Defined.

(* ================================================================== *)
(** * Tool results after the channel has opened *)
(* ================================================================== *)

Lemma onopen_run (st : State) (ch : nat) :
  dataChannel (demo st) = Some ch →
  channel_readyState st ch = Open →
  ∃ st', Demo5.onopen st = (inr tt, st') ∧
    weather_dataChannel st' = Some ch ∧
    channels st' = channels st ∧
    dataChannel (demo st') = Some ch ∧
    statusDiv_textContent (page st') = "Connected to Realtime API".
Proof.
  intros Hch Hopen.
  destruct (hasWelcomed (demo st)) eqn:Hlatch.
  - eexists. split.
    + unfold Demo5.onopen.
      rewrite run_bind. unfold log at 1. rewrite run_modify.
      rewrite run_bind. unfold updateStatus at 1. rewrite run_modify.
      rewrite run_bind, run_get_state.
      rewrite run_bind. unfold Weather.setDataChannel at 1. rewrite run_modify.
      simpl demo. rewrite run_bind, Hlatch. cbn [negb when].
      rewrite run_ret.
      rewrite (dataChannel_send_open _ _ ch) by (simpl; done).
      reflexivity.
    + simpl. rewrite Hch. repeat split.
  - eexists. split.
    + unfold Demo5.onopen.
      rewrite run_bind. unfold log at 1. rewrite run_modify.
      rewrite run_bind. unfold updateStatus at 1. rewrite run_modify.
      rewrite run_bind, run_get_state.
      rewrite run_bind. unfold Weather.setDataChannel at 1. rewrite run_modify.
      simpl demo. rewrite run_bind, Hlatch. cbn [negb when].
      rewrite run_bind. unfold log at 1. rewrite run_modify.
      rewrite run_bind.
      rewrite (dataChannel_send_open _ _ ch) by done.
      unfold assign_hasWelcomed. rewrite run_modify.
      rewrite (dataChannel_send_open _ _ ch) by (simpl; done).
      reflexivity.
    + simpl. rewrite Hch. repeat split.
Qed.

(** X24: once the [open] handler of the data channel has run, tool
    results travel on that channel: the handler returns normally and
    hands the instance's channel to the weather module, so that a
    result passed to [sendDataToAPI] next is sent on it as its two
    frames. *)
Theorem opened_channel_carries_results
  (st : State) (ch : nat) (type data : string) :
  dataChannel (demo st) = Some ch →
  channel_readyState st ch = Open →
  let st1 := snd (Demo5.onopen st) in
  fst (Demo5.onopen st) = inr tt ∧
  weather_dataChannel st1 = Some ch ∧
  outbox (snd (Weather.sendDataToAPI type data st1))
  = outbox st1 ++ result_frames ch type data.
Proof.
  intros Hch Hopen. cbv zeta.
  destruct (onopen_run st ch Hch Hopen) as (st1 & -> & Hw & Hchs & _).
  cbn [fst snd]. split; [reflexivity|]. split; [exact Hw|].
  assert (channel_readyState st1 ch = Open) as Hopen1
    by (unfold channel_readyState in *; by rewrite Hchs).
  destruct (sendDataToAPI_ready type data st1 ch Hw Hopen1)
    as (st2 & -> & Hout & _).
  exact Hout.
Qed.

Lemma opened_channel_carries_results_witness :
  let st1 := snd (Demo5.onopen channel_just_open) in
  dataChannel (demo channel_just_open) = Some 0 ∧
  channel_readyState channel_just_open 0 = Open ∧
  weather_dataChannel st1 = Some 0 ∧
  outbox (snd (Weather.sendDataToAPI "weather" "{}" st1))
  = outbox st1 ++ result_frames 0 "weather" "{}".
Proof.
  cbv zeta. split; [reflexivity|]. split; [reflexivity|].
  destruct (opened_channel_carries_results channel_just_open 0 "weather" "{}"
              eq_refl eq_refl) as (_ & Hw & Hout).
  split; [exact Hw|exact Hout].
Defined.
